(** * Polly test server: relay engine

    A shallow embedding of [test_server/server.py]: the two binary wire
    decoders of [handle_phone_binary] (thermal frames and range scans), the
    fan-out [broadcast_to_browsers], the command channel [send_control], the
    router [handle_browser_message], the observer connections of
    [ws_handler] and the reconnection loops of [connect_phone_endpoint] and
    [connect_phone_control] with their backoff.

    Python integers are unbounded, so they are [Z].  [bytes] values are lists
    of [Byte.byte].  The shared module-level state ([browser_clients],
    [phone_connected], [control_ws]) is one record threaded through a state
    and exception monad; what leaves the process (frames delivered to
    observers, frames written on the control link, sleeps) is appended to
    traces kept in the same record.

    The floats of the program are dyadic rationals that doubles hold
    exactly, or are immediately truncated and clamped, and are modelled by
    exact arithmetic; each place says why.  [json.dumps] and [b64encode] are
    written out; [json.loads] is a parameter of the handlers that call it.
    The endless [while True] loops run over a finite script of what the
    environment answers to each connection attempt, and the tasks of the
    event loop take turns, one loop iteration at a time.  The broadcast pass
    is also given among the other tasks, with the steps they take on the
    shared set of observers while the pass is suspended in a send. *)

From Stdlib Require Import ZArith List Strings.Byte String Ascii QArith Qminmax Lia Lqa.
From stdpp Require Import base gmap strings list pretty.

Local Open Scope Z_scope.
Set Warnings "-register-all,-clear-no-such-hyp".

(** ** Python values used by the decoders *)

Abbreviation bytes := (list byte).

Definition byte_val (b : byte) : Z := Z.of_N (Byte.to_N b).

(** Exceptions the modelled code can raise. *)
Inductive exn : Set :=
| StructError      (* struct.error: buffer too short for the format *)
| ValueError       (* wrong number of values to unpack; an integer literal
                      over the digit limit in [json.loads] *)
| JSONDecodeError  (* json.JSONDecodeError, a subclass of ValueError *)
| AttributeError   (* attribute missing on the object *)
| ConnectionError  (* builtin, with its subclass ConnectionResetError *)
| RuntimeError     (* builtin *)
| ConnectionClosed (* websockets.ConnectionClosed *)
| OSError.         (* builtin: connection refused, unreachable, timed out *)

Inductive result (A : Type) : Type :=
| Ok (a : A)
| Raise (e : exn).
Arguments Ok {A} a.
Arguments Raise {A} e.

Definition rbind {A B} (r : result A) (k : A -> result B) : result B :=
  match r with
  | Ok a => k a
  | Raise e => Raise e
  end.

(** [range(start, stop, step)] for a positive [step]. *)
Definition py_range (start stop step : Z) : list Z :=
  let count := if stop <=? start then 0 else (stop - start + step - 1) / step in
  map (fun k => start + Z.of_nat k * step) (seq 0 (Z.to_nat count)).

(** [data[i:j]] for indices [0 <= i]; Python clips both ends to the length
    of the sequence, as [take] and [drop] do. *)
Definition py_slice {A} (data : list A) (i j : Z) : list A :=
  take (Z.to_nat (j - i)) (drop (Z.to_nat i) data).

(** [struct.unpack_from("<H", buf, off)[0]]: the unsigned 16-bit little-endian
    value at [off]; struct.error when fewer than two bytes remain. *)
Definition unpack_from_H (buf : bytes) (off : Z) : result Z :=
  match py_slice buf off (off + 2) with
  | [b0; b1] => Ok (Z.lor (byte_val b0) (Z.shiftl (byte_val b1) 8))
  | _ => Raise StructError
  end.

(** The unsigned 32-bit little-endian value at [off]. *)
Definition unpack_from_I (buf : bytes) (off : Z) : result Z :=
  match py_slice buf off (off + 4) with
  | [b0; b1; b2; b3] =>
      Ok (Z.lor (byte_val b0)
           (Z.lor (Z.shiftl (byte_val b1) 8)
              (Z.lor (Z.shiftl (byte_val b2) 16) (Z.shiftl (byte_val b3) 24))))
  | _ => Raise StructError
  end.

(** [struct.unpack_from("<HHII", data, 0)]: no padding in a [<] format, so the
    fields sit at offsets 0, 2, 4 and 8, and 12 bytes are required. *)
Definition unpack_from_HHII (data : bytes) : result (Z * Z * Z * Z) :=
  if Z.of_nat (length data) <? 12 then Raise StructError
  else
    rbind (unpack_from_H data 0) (fun width =>
    rbind (unpack_from_H data 2) (fun height =>
    rbind (unpack_from_I data 4) (fun min_val =>
    rbind (unpack_from_I data 8) (fun max_val =>
    Ok (width, height, min_val, max_val))))).

(** [int(a / b)] for Python integers [a] and [b > 0]: a true division
    followed by truncation towards zero.  The division of two integers is
    correctly rounded to a double.  In [handle_phone_binary] the dividend is
    below 2^41 in magnitude and the divisor below 2^32, so a quotient that is
    not an integer is further than 2^-32 from the next one while the doubles
    below 256 are spaced 2^-45 or closer: inside the window [0, 255] that the
    caller clamps to, the truncated double is the truncated exact quotient,
    and outside of it both lie on the same side of the window. *)
Definition py_int_truediv (a b : Z) : Z := Z.quot a b.

(** ** Thermal frames: the [flir] branch of [handle_phone_binary] *)

Record flir_frame : Set := FlirFrame {
  f_width : Z;
  f_height : Z;
  f_minVal : Z;
  f_maxVal : Z;
  f_pixels : list Z
}.

(** The body of the pixel loop: one raw sample to one pixel. *)
Definition flir_pixel (min_val val_range raw : Z) : Z :=
  let normalized := py_int_truediv ((raw - min_val) * 255) val_range in
  Z.max 0 (Z.min 255 normalized).

(** [for i in range(0, len(pixel_data) - 1, 2): ... pixels.append(...)],
    the indices still to visit in [idx] and the list built so far in
    [pixels]. *)
Fixpoint flir_loop (pixel_data : bytes) (min_val val_range : Z)
    (idx : list Z) (pixels : list Z) : result (list Z) :=
  match idx with
  | [] => Ok pixels
  | i :: idx' =>
      rbind (unpack_from_H pixel_data i) (fun raw =>
      flir_loop pixel_data min_val val_range idx'
        (pixels ++ [flir_pixel min_val val_range raw]))
  end.

(** The frame built by the [flir] branch; [None] when the payload is shorter
    than the header and the branch does nothing. *)
Definition flir_decode (data : bytes) : result (option flir_frame) :=
  if 12 <=? Z.of_nat (length data) then
    rbind (unpack_from_HHII data) (fun '(width, height, min_val, max_val) =>
    let pixel_data := drop 12 data in
    let val_range := Z.max (max_val - min_val) 1 in
    rbind (flir_loop pixel_data min_val val_range
             (py_range 0 (Z.of_nat (length pixel_data) - 1) 2) [])
      (fun pixels => Ok (Some (FlirFrame width height min_val max_val pixels))))
  else Ok None.

(** ** Range scans: the [lidar] branch of [handle_phone_binary] *)

(** The floats of this branch are quotients of an integer below 2^16 by 64
    or by 4, which doubles hold exactly, so they are modelled as the exact
    rationals.  [round(x, 1)] is correctly rounded, ties to even, and gives
    the double closest to a decimal with one digit after the point; that
    decimal stands for it. *)
Definition py_round1 (x : Q) : Q :=
  let n := Qnum x * 10 in
  let d := Z.pos (Qden x) in
  let fl := n / d in
  let r2 := 2 * (n mod d) in
  let t := if r2 <? d then fl
           else if d <? r2 then fl + 1
           else if Z.even fl then fl else fl + 1 in
  Qmake t 10.

Record lidar_point : Set := LidarPoint {
  p_a : Q;
  p_d : Q;
  p_q : Z
}.

(** The body of the record loop once [b0, b1, b2, b3, b4] are bound: the
    [points] list after this record. *)
Definition lidar_record (b0 b1 b2 b3 b4 : byte) (points : list lidar_point)
  : list lidar_point :=
  let quality := Z.shiftr (byte_val b0) 2 in
  if quality =? 0 then points
  else
    let angle := Qmake (Z.lor (Z.shiftr (byte_val b1) 1) (Z.shiftl (byte_val b2) 7)) 64 in
    let distance := Qmake (Z.lor (byte_val b3) (Z.shiftl (byte_val b4) 8)) 4 in
    if Qlt_le_dec 0 distance
    then points ++ [LidarPoint (py_round1 angle) (py_round1 distance) quality]
    else points.

(** [for i in range(0, len(data) - 4, 5): b0, b1, b2, b3, b4 = data[i:i+5] ...];
    the tuple assignment raises ValueError on a slice that is not five long. *)
Fixpoint lidar_loop (data : bytes) (idx : list Z) (points : list lidar_point)
  : result (list lidar_point) :=
  match idx with
  | [] => Ok points
  | i :: idx' =>
      match py_slice data i (i + 5) with
      | [b0; b1; b2; b3; b4] =>
          lidar_loop data idx' (lidar_record b0 b1 b2 b3 b4 points)
      | _ => Raise ValueError
      end
  end.

Definition lidar_decode (data : bytes) : result (list lidar_point) :=
  lidar_loop data (py_range 0 (Z.of_nat (length data) - 4) 5) [].

(** ** JSON values, [json.dumps] and [b64encode] *)

(** What [json.loads] returns and [json.dumps] takes.  A [str] is a string of
    code points below 256.  A [dict] is the list of its items in insertion
    order, with distinct keys.  A [float] is carried as the text that
    [float.__repr__] prints for it, which is all [json.dumps] looks at:
    ["nan"], ["inf"] and ["-inf"] for the floats that are not finite, which
    [json.loads] reads from [NaN], [Infinity] and [-Infinity] and
    [json.dumps] writes as such. *)
Inductive json : Type :=
| JNull
| JBool (b : bool)
| JInt (n : Z)
| JFloat (repr : string)
| JString (s : string)
| JArray (items : list json)
| JObject (fields : list (string * json)).

Definition dquote : string := String (ascii_of_nat 34) EmptyString.
Definition backslash : string := String (ascii_of_nat 92) EmptyString.

Definition hex_digit (n : N) : ascii :=
  nth (N.to_nat n) (list_ascii_of_string "0123456789abcdef") "0"%char.

(** One character of a string under [ensure_ascii=True]. *)
Definition json_escape_char (c : ascii) : string :=
  let n := N_of_ascii c in
  if (n =? 34)%N then backslash +:+ dquote
  else if (n =? 92)%N then backslash +:+ backslash
  else if (n =? 10)%N then backslash +:+ "n"
  else if (n =? 13)%N then backslash +:+ "r"
  else if (n =? 9)%N then backslash +:+ "t"
  else if (n =? 12)%N then backslash +:+ "f"
  else if (n =? 8)%N then backslash +:+ "b"
  else if ((n <? 32) || (126 <? n))%N then
    backslash +:+ "u00"
      +:+ String (hex_digit (n / 16)) (String (hex_digit (n mod 16)) EmptyString)
  else String c EmptyString.

Fixpoint json_escape (s : string) : string :=
  match s with
  | EmptyString => EmptyString
  | String c s' => json_escape_char c +:+ json_escape s'
  end.

Definition json_quote (s : string) : string := dquote +:+ json_escape s +:+ dquote.

(** [json.dumps(v)] with the default separators [", "] and [": "]. *)
Fixpoint json_dumps (v : json) : string :=
  match v with
  | JNull => "null"
  | JBool true => "true"
  | JBool false => "false"
  | JInt n => pretty n
  | JFloat repr =>
      if String.eqb repr "nan" then "NaN"
      else if String.eqb repr "inf" then "Infinity"
      else if String.eqb repr "-inf" then "-Infinity"
      else repr
  | JString s => json_quote s
  | JArray items =>
      let fix join (first : bool) (l : list json) : string :=
        match l with
        | [] => EmptyString
        | x :: l' => (if first then EmptyString else ", ") +:+ json_dumps x +:+ join false l'
        end in
      "[" +:+ join true items +:+ "]"
  | JObject fields =>
      let fix join (first : bool) (l : list (string * json)) : string :=
        match l with
        | [] => EmptyString
        | (k, x) :: l' =>
            (if first then EmptyString else ", ")
              +:+ json_quote k +:+ ": " +:+ json_dumps x +:+ join false l'
        end in
      "{" +:+ join true fields +:+ "}"
  end.

Arguments json_dumps : simpl never.

(** [d[key]] if present. *)
Fixpoint dict_get (fields : list (string * json)) (key : string) : option json :=
  match fields with
  | [] => None
  | (k, v) :: fields' => if String.eqb k key then Some v else dict_get fields' key
  end.

(** [msg.get(key, dflt)]: only a dict has the method. *)
Definition py_get (msg : json) (key : string) (dflt : json) : result json :=
  match msg with
  | JObject fields => Ok (default dflt (dict_get fields key))
  | _ => Raise AttributeError
  end.

(** Whether [%d] formats the value: an [int] (a [bool] is one) or a finite
    [float].  On every other value the formatting raises. *)
Definition percent_d (v : json) : bool :=
  match v with
  | JInt _ | JBool _ => true
  | JFloat repr =>
      negb (String.eqb repr "nan" || String.eqb repr "inf" || String.eqb repr "-inf")
  | _ => false
  end.

(** [v == s] for a string literal [s]. *)
Definition json_eq_str (v : json) (s : string) : bool :=
  match v with
  | JString s' => String.eqb s' s
  | _ => false
  end.

(** The repr of the float closest to [x], for [x] a non-negative number of
    tenths below 10^16: the shortest text that reads back as that float. *)
Definition repr_tenths (x : Q) : string :=
  let t := Qnum x * 10 / Z.pos (Qden x) in
  pretty (t / 10) +:+ "." +:+ pretty (t mod 10).

Definition b64_char (n : Z) : ascii :=
  nth (Z.to_nat n)
    (list_ascii_of_string "ABCDEFGHIJKLMNOPQRSTUVWXYZabcdefghijklmnopqrstuvwxyz0123456789+/")
    "="%char.

(** [b64encode(data).decode("ascii")]. *)
Fixpoint b64encode (data : bytes) : string :=
  match data with
  | [] => EmptyString
  | [a] =>
      let x := byte_val a in
      String (b64_char (Z.shiftr x 2))
        (String (b64_char (Z.shiftl (Z.land x 3) 4)) "==")
  | [a; b] =>
      let x := byte_val a in
      let y := byte_val b in
      String (b64_char (Z.shiftr x 2))
        (String (b64_char (Z.lor (Z.shiftl (Z.land x 3) 4) (Z.shiftr y 4)))
           (String (b64_char (Z.shiftl (Z.land y 15) 2)) "="))
  | a :: b :: c :: rest =>
      let x := byte_val a in
      let y := byte_val b in
      let z := byte_val c in
      String (b64_char (Z.shiftr x 2))
        (String (b64_char (Z.lor (Z.shiftl (Z.land x 3) 4) (Z.shiftr y 4)))
           (String (b64_char (Z.lor (Z.shiftl (Z.land y 15) 2) (Z.shiftr z 6)))
              (String (b64_char (Z.land z 63)) (b64encode rest))))
  end.

(** ** Shared state and effects *)

(** An observer's [web.WebSocketResponse], by identity. *)
Abbreviation client := nat.

(** The connection object held in [control_ws]: [send] on a connection that
    has closed raises [ConnectionClosed]. *)
Inductive websocket : Set :=
| SocketOpen
| SocketClosed.

(** What crosses the process boundary, in the order it happens.  A send is
    recorded with the exception it ended in, if any. *)
Inductive io_event : Type :=
| EvSendStr (ws : client) (message : string) (err : option exn)
| EvControlSend (text : string) (err : option exn)
| EvSleep (task : string) (seconds : Q).

Inductive log_record : Type :=
| LogConnecting (endpoint : string)
| LogConnected (endpoint : string)
| LogDisconnected (endpoint : string) (e : exn)
| LogConnectionFailed (endpoint : string) (e : exn)
| LogMotor (left right : json) (mc : Z)
| LogDropped (payload : json)
| LogSendFailed.

(** The module-level variables, the function attribute
    [handle_browser_message._mc] (absent until the first motor message), the
    state of the observers' transports, and the traces.

    [send_fault ws] is the exception [ws.send_str] raises for a [str]
    argument, if it raises: aiohttp raises [RuntimeError] on a response that
    is not prepared and [ConnectionResetError] (a [ConnectionError]) on a
    closing or lost transport.  No function of the program writes it: a
    transport changes under the program, as a step of its environment. *)
Inductive send_failure : Set :=
| FailConnection
| FailRuntime.

Record State : Type := mkState {
  browser_clients : gset client;
  phone_connected : gmap string bool;
  control_ws : option websocket;
  _mc : option Z;
  send_fault : client -> option send_failure;
  trace : list io_event;
  log : list log_record
}.

Definition with_browser_clients (s : gset client) (st : State) : State :=
  mkState s (phone_connected st) (control_ws st) (_mc st) (send_fault st) (trace st) (log st).
Definition with_phone_connected (m : gmap string bool) (st : State) : State :=
  mkState (browser_clients st) m (control_ws st) (_mc st) (send_fault st) (trace st) (log st).
Definition with_control_ws (w : option websocket) (st : State) : State :=
  mkState (browser_clients st) (phone_connected st) w (_mc st) (send_fault st) (trace st) (log st).
Definition with_mc (c : option Z) (st : State) : State :=
  mkState (browser_clients st) (phone_connected st) (control_ws st) c (send_fault st) (trace st) (log st).
Definition emit (ev : io_event) (st : State) : State :=
  mkState (browser_clients st) (phone_connected st) (control_ws st) (_mc st) (send_fault st)
    (trace st ++ [ev]) (log st).
Definition logged (r : log_record) (st : State) : State :=
  mkState (browser_clients st) (phone_connected st) (control_ws st) (_mc st) (send_fault st)
    (trace st) (log st ++ [r]).

(** Computations over the state that may raise; a raise keeps the state
    reached so far. *)
Definition M (A : Type) : Type := State -> result A * State.

Definition ret {A} (a : A) : M A := fun st => (Ok a, st).
Definition raise {A} (e : exn) : M A := fun st => (Raise e, st).
Definition bind {A B} (m : M A) (k : A -> M B) : M B :=
  fun st =>
    match m st with
    | (Ok a, st') => k a st'
    | (Raise e, st') => (Raise e, st')
    end.
Definition lift {A} (r : result A) : M A := fun st => (r, st).
Definition gets {A} (f : State -> A) : M A := fun st => (Ok (f st), st).
Definition modify (f : State -> State) : M unit := fun st => (Ok tt, f st).

(** [try: body  except <classes>: handler] *)
Definition try_except {A} (body : M A) (classes : exn -> bool) (handler : exn -> M A) : M A :=
  fun st =>
    match body st with
    | (Ok a, st') => (Ok a, st')
    | (Raise e, st') => if classes e then handler e st' else (Raise e, st')
    end.

Notation "x <- m ;; k" := (bind m (fun x => k))
  (at level 100, m at next level, right associativity).
Notation "m ;; k" := (bind m (fun _ => k))
  (at level 100, right associativity).

Definition exn_of_failure (f : send_failure) : exn :=
  match f with
  | FailConnection => ConnectionError
  | FailRuntime => RuntimeError
  end.

(** [await ws.send_str(message)] *)
Definition send_str (ws : client) (message : string) : M unit :=
  fun st =>
    match send_fault st ws with
    | None => (Ok tt, emit (EvSendStr ws message None) st)
    | Some f =>
        let e := exn_of_failure f in
        (Raise e, emit (EvSendStr ws message (Some e)) st)
    end.

(** [await control_ws.send(text)] *)
Definition websocket_send (ws : websocket) (text : string) : M unit :=
  fun st =>
    match ws with
    | SocketOpen => (Ok tt, emit (EvControlSend text None) st)
    | SocketClosed => (Raise ConnectionClosed, emit (EvControlSend text (Some ConnectionClosed)) st)
    end.

(** [await asyncio.sleep(seconds)] in the task named [task].  The durations
    are the values of [backoff]: 5, products of such a value by 1.5 that stay
    below 30, and 30.  Each is a multiple of 1/32 below 64, which a double
    holds exactly and multiplies by 1.5 without rounding, so the rationals
    are these floats. *)
Definition sleep (task : string) (seconds : Q) : M unit :=
  modify (emit (EvSleep task seconds)).

(** ** Broadcast hub *)

(** [except (ConnectionError, RuntimeError)] *)
Definition is_connection_or_runtime (e : exn) : bool :=
  match e with
  | ConnectionError | RuntimeError => true
  | _ => false
  end.

(** *** The pass as one step

    [broadcast_to_browsers] as the functions of one task see it when no
    other task takes a step while the pass is suspended in a [send_str]: the
    set it iterates over is then the one it started with.  The pass among the
    other tasks follows. *)

(** The [for ws in browser_clients] loop, [todo] the clients still to visit
    and [stale] the local set. *)
Fixpoint broadcast_loop (message : string) (todo : list client) (stale : gset client)
  : M (gset client) :=
  match todo with
  | [] => ret stale
  | ws :: todo' =>
      stale' <- try_except (send_str ws message ;; ret stale)
                  is_connection_or_runtime
                  (fun _ => ret ({[ws]} ∪ stale)) ;;
      broadcast_loop message todo' stale'
  end.

Definition broadcast_to_browsers (message : string) : M unit :=
  clients <- gets browser_clients ;;
  if decide (clients = ∅) then ret tt
  else
    stale <- broadcast_loop message (elements clients) ∅ ;;
    modify (fun st => with_browser_clients (browser_clients st ∖ stale) st).

(** *** The pass among the other tasks *)

(** [broadcast_to_browsers] is suspended wherever an [await ws.send_str]
    waits for the transport, and the other tasks run meanwhile on the same
    module-level variables.  A step of theirs adds an observer or removes
    one ([ws_handler]), removes the clients another pass found stale, or
    writes the other variables and changes what the transports accept.  The
    traces record the I/O of the task that is followed, not theirs. *)
Inductive foreign_step : Type :=
| Joins (ws : client)              (* browser_clients.add(ws) *)
| Leaves (ws : client)             (* browser_clients.discard(ws) *)
| Purges (stale : gset client)     (* browser_clients.difference_update(stale) *)
| Elsewhere (g : State -> State).  (* the other variables; a transport closes *)

Definition foreign_clients (clients : gset client) (s : foreign_step) : gset client :=
  match s with
  | Joins ws => {[ws]} ∪ clients
  | Leaves ws => clients ∖ {[ws]}
  | Purges stale => clients ∖ stale
  | Elsewhere _ => clients
  end.

Definition foreign_apply (st : State) (s : foreign_step) : State :=
  match s with
  | Elsewhere g =>
      mkState (browser_clients st) (phone_connected (g st)) (control_ws (g st)) (_mc (g st))
        (send_fault (g st)) (trace st) (log st)
  | _ => with_browser_clients (foreign_clients (browser_clients st) s) st
  end.

(** Whether steps changed the members of the set.  Adding a member that is
    there, or removing one that is not, leaves the hash table as it is. *)
Fixpoint rearranged (steps : list foreign_step) (clients : gset client) : bool :=
  match steps with
  | [] => false
  | s :: steps' =>
      negb (bool_decide (foreign_clients clients s = clients))
      || rearranged steps' (foreign_clients clients s)
  end.

(** How a pass ends among other tasks.  [Unmodelled]: the other tasks
    changed members of the set during an [await] and left its size as it
    was.  The iterator then goes on without an exception over a hash table
    that was rearranged under it, and which clients it still yields depends
    on the layout of the table, which is not modelled. *)
Inductive outcome (A : Type) : Type :=
| Done (r : result A) (st : State)
| Unmodelled.
Arguments Done {A} r st.
Arguments Unmodelled {A}.

(** The [for ws in browser_clients] loop: the iterator keeps the size the set
    had when the loop started, and each step of it raises [RuntimeError]
    when the set has another size by then; that is raised by the [for]
    statement, outside the [try] of the loop body.  [todo] is what an
    iterator that is left alone still yields; [others] holds, for each
    [await] to come, the steps of the other tasks during it. *)
Fixpoint broadcast_loop_among (message : string) (used : nat) (todo : list client)
    (stale : gset client) (others : list (list foreign_step)) (st : State)
  : outcome (gset client) :=
  if bool_decide (size (browser_clients st) = used) then
    match todo with
    | [] => Done (Ok stale) st
    | ws :: todo' =>
        match try_except (send_str ws message ;; ret stale)
                is_connection_or_runtime
                (fun _ => ret ({[ws]} ∪ stale)) st with
        | (Raise e, st1) => Done (Raise e) st1
        | (Ok stale', st1) =>
            let steps := hd [] others in
            let st2 := foldl foreign_apply st1 steps in
            if rearranged steps (browser_clients st1)
               && bool_decide (size (browser_clients st2) = used)
            then Unmodelled
            else broadcast_loop_among message used todo' stale' (tl others) st2
        end
    end
  else Done (Raise RuntimeError) st.

(** [broadcast_to_browsers] among the other tasks.  With nothing in
    [others] it is the [broadcast_to_browsers] above. *)
Definition broadcast_to_browsers_among (message : string)
    (others : list (list foreign_step)) (st : State) : outcome unit :=
  let clients := browser_clients st in
  if decide (clients = ∅) then Done (Ok tt) st
  else
    match broadcast_loop_among message (size clients) (elements clients) ∅ others st with
    | Done (Ok stale) st1 =>
        Done (Ok tt) (with_browser_clients (browser_clients st1 ∖ stale) st1)
    | Done (Raise e) st1 => Done (Raise e) st1
    | Unmodelled => Unmodelled
    end.

Definition ENDPOINTS : list string := ["arduino"; "lidar"; "camera"; "flir"; "imu"].

Definition status_json (connected : gmap string bool) : json :=
  JObject [("type", JString "status");
           ("connections",
            JObject (map (fun ep => (ep, JBool (default false (connected !! ep))))
                       (ENDPOINTS ++ ["control"])))].

Definition broadcast_status : M unit :=
  connected <- gets phone_connected ;;
  broadcast_to_browsers (json_dumps (status_json connected)).

(** ** Command channel *)

Definition send_control (payload : json) : M unit :=
  ws <- gets control_ws ;;
  match ws with
  | None => modify (logged (LogDropped payload))
  | Some ws =>
      try_except (websocket_send ws (json_dumps payload))
        (fun _ => true)
        (fun _ => modify (logged LogSendFailed))
  end.

(** ** Handlers and the connection loop *)

Definition flir_json (f : flir_frame) : json :=
  JObject [("type", JString "flir");
           ("width", JInt (f_width f));
           ("height", JInt (f_height f));
           ("minVal", JInt (f_minVal f));
           ("maxVal", JInt (f_maxVal f));
           ("pixels", JArray (map JInt (f_pixels f)))].

Definition point_json (p : lidar_point) : json :=
  JObject [("a", JFloat (repr_tenths (p_a p)));
           ("d", JFloat (repr_tenths (p_d p)));
           ("q", JInt (p_q p))].

Definition handle_phone_binary (endpoint : string) (data : bytes) : M unit :=
  if String.eqb endpoint "camera" then
    let b64 := b64encode data in
    broadcast_to_browsers (json_dumps (JObject [("type", JString "camera"); ("jpeg", JString b64)]))
  else if String.eqb endpoint "flir" then
    frame <- lift (flir_decode data) ;;
    match frame with
    | Some f => broadcast_to_browsers (json_dumps (flir_json f))
    | None => ret tt
    end
  else if String.eqb endpoint "lidar" then
    points <- lift (lidar_decode data) ;;
    match points with
    | [] => ret tt
    | _ :: _ =>
        broadcast_to_browsers
          (json_dumps (JObject [("type", JString "lidar");
                                ("points", JArray (map point_json points))]))
    end
  else ret tt.

(** A message received on a websocket. *)
Inductive ws_message : Set :=
| TextMessage (data : string)
| BinaryMessage (data : bytes).

(** What happens to one connection attempt: [websockets.connect] raises, or
    the link is established, delivers [inbound] and then ends, with an
    exception or by a close handshake that just stops the iteration. *)
Inductive attempt : Set :=
| ConnectFails (e : exn)
| Connected (inbound : list ws_message) (closing : option exn).

(** [except (websockets.ConnectionClosed, OSError)]; [ConnectionError] is a
    subclass of [OSError]. *)
Definition is_closed_or_oserror (e : exn) : bool :=
  match e with
  | ConnectionClosed | OSError | ConnectionError => true
  | _ => false
  end.

(** [phone_connected[endpoint] = b] *)
Definition set_connected (endpoint : string) (b : bool) : M unit :=
  modify (fun st => with_phone_connected (<[endpoint := b]> (phone_connected st)) st).

(** The two [except] clauses of the loop: both only log. *)
Definition log_link_failure (endpoint : string) (e : exn) : M unit :=
  if is_closed_or_oserror e then modify (logged (LogDisconnected endpoint e))
  else modify (logged (LogConnectionFailed endpoint e)).

Section Relay.

(** [json.loads]: the value of a text, or the exception it raises on it.
    That is [JSONDecodeError] on a text that is not JSON, the only one the
    handlers catch; [json.loads] also raises [ValueError] on an integer
    literal over the digit limit and [RecursionError] on deep nesting. *)
Variable json_loads : string -> result json.

Definition handle_phone_text (endpoint : string) (data : string) : M unit :=
  if bool_decide (endpoint ∈ ["arduino"; "imu"]) then
    match json_loads data with
    | Raise JSONDecodeError => ret tt
    | Raise e => raise e
    | Ok parsed =>
        broadcast_to_browsers
          (json_dumps (JObject [("type", JString endpoint); ("data", parsed)]))
    end
  else ret tt.

(** The [log.info] of the motor branch formats [left] and [right] with
    [%d] when the line is emitted.  Where that raises, the logging handler
    catches it, reports it on stderr and writes no line. *)
Definition handle_browser_message (data : string) : M unit :=
  match json_loads data with
  | Raise JSONDecodeError => ret tt
  | Raise e => raise e
  | Ok msg =>
      type <- lift (py_get msg "type" JNull) ;;
      if json_eq_str type "motor" then
        left <- lift (py_get msg "left" (JInt 0)) ;;
        right <- lift (py_get msg "right" (JInt 0)) ;;
        let cmd := json_dumps (JObject [("N", JInt 7); ("D1", left); ("D2", right)]) in
        mc <- gets (fun st => default 0 (_mc st) + 1) ;;
        modify (with_mc (Some mc)) ;;
        (if mc mod 20 =? 1 then
           if percent_d left && percent_d right
           then modify (logged (LogMotor left right mc))
           else ret tt
         else ret tt) ;;
        send_control (JObject [("target", JString "arduino"); ("cmd", JString cmd)])
      else
        type <- lift (py_get msg "type" JNull) ;;
        if json_eq_str type "stop" then
          let cmd := json_dumps (JObject [("N", JInt 6)]) in
          send_control (JObject [("target", JString "arduino"); ("cmd", JString cmd)])
        else
          type <- lift (py_get msg "type" JNull) ;;
          if json_eq_str type "control" then
            payload <- lift (py_get msg "payload" (JObject [])) ;;
            send_control payload
          else ret tt
  end.

(** [async for message in ws: ...] over the messages the link delivers. *)
Fixpoint receive_loop (endpoint : string) (inbound : list ws_message) : M unit :=
  match inbound with
  | [] => ret tt
  | TextMessage data :: inbound' =>
      handle_phone_text endpoint data ;; receive_loop endpoint inbound'
  | BinaryMessage data :: inbound' =>
      handle_phone_binary endpoint data ;; receive_loop endpoint inbound'
  end.

(** The [try] statement of the loop body, from the value of the local
    [backoff] to its value after the statement.  Every exception of the
    body is caught by one of the two clauses, so control always reaches the
    statements after it; the assignment [backoff = 5] precedes everything
    that can raise once the link is up, so it is kept when a later
    statement of the body raises. *)
Definition connect_phone_endpoint_try (endpoint : string) (a : attempt) (backoff : Q)
  : M Q :=
  try_except
    (modify (logged (LogConnecting endpoint)) ;;
     match a with
     | ConnectFails e => raise e
     | Connected inbound closing =>
         set_connected endpoint true ;;
         let backoff := 5%Q in
         try_except
           (modify (logged (LogConnected endpoint)) ;;
            broadcast_status ;;
            receive_loop endpoint inbound ;;
            match closing with
            | Some e => raise e
            | None => ret tt
            end)
           (fun _ => true)
           (log_link_failure endpoint) ;;
         ret backoff
     end)
    (fun _ => true)
    (fun e => log_link_failure endpoint e ;; ret backoff).

(** One turn of the [while True] loop of [connect_phone_endpoint]: the
    [try] statement, then the statements after it. *)
Definition connect_phone_endpoint_turn (endpoint : string) (a : attempt) (backoff : Q)
  : M Q :=
  backoff <- connect_phone_endpoint_try endpoint a backoff ;;
  set_connected endpoint false ;;
  broadcast_status ;;
  sleep endpoint backoff ;;
  ret (Qmin (backoff * 1.5) 30).

(** The loop over the attempts the environment answers; it has no exit of
    its own. *)
Fixpoint connect_phone_endpoint_loop (endpoint : string) (script : list attempt)
    (backoff : Q) : M Q :=
  match script with
  | [] => ret backoff
  | a :: script' =>
      backoff <- connect_phone_endpoint_turn endpoint a backoff ;;
      connect_phone_endpoint_loop endpoint script' backoff
  end.

Definition connect_phone_endpoint (endpoint : string) (initial_delay : Q)
    (script : list attempt) : M Q :=
  let backoff := 5%Q in
  (if Qlt_le_dec 0 initial_delay then sleep endpoint initial_delay else ret tt) ;;
  connect_phone_endpoint_loop endpoint script backoff.

(** The endpoint tasks run side by side, each with its own local
    [backoff]: [locals] holds the local of every task, and a schedule
    names, turn by turn, the task that runs and what its attempt meets.  A
    turn is taken here as one step; what the steps of other tasks inside a
    turn do to a broadcast is in [broadcast_to_browsers_among]. *)
Fixpoint run_tasks (schedule : list (string * attempt)) (locals : string -> Q)
  : M (string -> Q) :=
  match schedule with
  | [] => ret locals
  | (endpoint, a) :: schedule' =>
      backoff <- connect_phone_endpoint_turn endpoint a (locals endpoint) ;;
      run_tasks schedule'
        (fun ep => if String.eqb ep endpoint then backoff else locals ep)
  end.

End Relay.

(** [connect_phone_control]: the same loop for the [/control] endpoint.  It
    publishes the connection in [control_ws] while the link is up and clears
    it after the [try]; what the link delivers is only logged at debug
    level, below the configured level, so nothing is recorded for it. *)
Fixpoint control_receive_loop (inbound : list ws_message) : M unit :=
  match inbound with
  | [] => ret tt
  | _ :: inbound' => control_receive_loop inbound'
  end.

Definition connect_phone_control_try (a : attempt) (backoff : Q) : M Q :=
  try_except
    (modify (logged (LogConnecting "control")) ;;
     match a with
     | ConnectFails e => raise e
     | Connected inbound closing =>
         modify (with_control_ws (Some SocketOpen)) ;;
         set_connected "control" true ;;
         let backoff := 5%Q in
         try_except
           (modify (logged (LogConnected "control")) ;;
            broadcast_status ;;
            control_receive_loop inbound ;;
            match closing with
            | Some e => raise e
            | None => ret tt
            end)
           (fun _ => true)
           (log_link_failure "control") ;;
         ret backoff
     end)
    (fun _ => true)
    (fun e => log_link_failure "control" e ;; ret backoff).

Definition connect_phone_control_turn (a : attempt) (backoff : Q) : M Q :=
  backoff <- connect_phone_control_try a backoff ;;
  modify (with_control_ws None) ;;
  set_connected "control" false ;;
  broadcast_status ;;
  sleep "control" backoff ;;
  ret (Qmin (backoff * 1.5) 30).

Fixpoint connect_phone_control_loop (script : list attempt) (backoff : Q) : M Q :=
  match script with
  | [] => ret backoff
  | a :: script' =>
      backoff <- connect_phone_control_turn a backoff ;;
      connect_phone_control_loop script' backoff
  end.

Definition connect_phone_control (initial_delay : Q) (script : list attempt) : M Q :=
  let backoff := 5%Q in
  (if Qlt_le_dec 0 initial_delay then sleep "control" initial_delay else ret tt) ;;
  connect_phone_control_loop script backoff.

(** ** Vocabulary of the statements *)

(** The unsigned little-endian values stored at an offset of a buffer. *)
Definition u16_at (data : bytes) (off : nat) : Z :=
  Z.lor (byte_val (nth off data x00)) (Z.shiftl (byte_val (nth (off + 1) data x00)) 8).

Definition u32_at (data : bytes) (off : nat) : Z :=
  Z.lor (byte_val (nth off data x00))
    (Z.lor (Z.shiftl (byte_val (nth (off + 1) data x00)) 8)
       (Z.lor (Z.shiftl (byte_val (nth (off + 2) data x00)) 16)
          (Z.shiftl (byte_val (nth (off + 3) data x00)) 24))).

(** The [i]-th little-endian 16-bit sample of a frame body. *)
Definition sample_at (body : bytes) (i : nat) : Z := u16_at body (2 * i).

(** The frame decoded from a payload that holds a whole header. *)
Definition flir_frame_of (data : bytes) : flir_frame :=
  let min_val := u32_at data 4 in
  let max_val := u32_at data 8 in
  let body := drop 12 data in
  FlirFrame (u16_at data 0) (u16_at data 2) min_val max_val
    (map (fun k => flir_pixel min_val (Z.max (max_val - min_val) 1) (sample_at body k))
       (seq 0 (length body / 2))).

(** The nearest integer to [a / b] for [b > 0], ties to even: what [round]
    gives. *)
Definition round_div (a b : Z) : Z :=
  let fl := a / b in
  let r2 := 2 * (a mod b) in
  if r2 <? b then fl
  else if b <? r2 then fl + 1
  else if Z.even fl then fl else fl + 1.

(** The pixel formula as the specification words it, with [round]. *)
Definition spec_flir_pixel (min_val max_val raw : Z) : Z :=
  let range := Z.max (max_val - min_val) 1 in
  Z.max 0 (Z.min 255 (round_div ((raw - min_val) * 255) range)).

(** The [n] low bytes of [v], least significant first. *)
Definition le_bytes (n : nat) (v : Z) : bytes :=
  map (fun k => default x00 (Byte.of_N (Z.to_N (Z.land (Z.shiftr v (8 * Z.of_nat k)) 255))))
    (seq 0 n).

(** A thermal payload: the 12-byte header, then the samples. *)
Definition flir_payload (width height min_val max_val : Z) (samples : list Z) : bytes :=
  le_bytes 2 width ++ le_bytes 2 height ++ le_bytes 4 min_val ++ le_bytes 4 max_val
  ++ flat_map (le_bytes 2) samples.

(** Test frames: one sample of 1 between [minVal = 0] and [maxVal = 4]; a
    flat header with one sample above it; the flat frame of two samples. *)
Definition frame_quarter : bytes := flir_payload 1 1 0 4 [1].
Definition frame_flat_above : bytes := flir_payload 1 1 100 100 [101].
Definition frame_flat : bytes := flir_payload 2 1 100 100 [100; 100].

(** A five-byte range-scan record, its bytes, and its fields. *)
Abbreviation scan_record := (byte * byte * byte * byte * byte)%type.

Definition record_bytes (r : scan_record) : bytes :=
  let '(b0, b1, b2, b3, b4) := r in [b0; b1; b2; b3; b4].

Definition record_quality (r : scan_record) : Z :=
  let '(b0, _, _, _, _) := r in Z.shiftr (byte_val b0) 2.

Definition record_angle_raw (r : scan_record) : Z :=
  let '(_, b1, b2, _, _) := r in Z.lor (Z.shiftr (byte_val b1) 1) (Z.shiftl (byte_val b2) 7).

Definition record_distance_raw (r : scan_record) : Z :=
  let '(_, _, _, b3, b4) := r in Z.lor (byte_val b3) (Z.shiftl (byte_val b4) 8).

Definition record_angle (r : scan_record) : Q := Qmake (record_angle_raw r) 64.

Definition record_distance (r : scan_record) : Q := Qmake (record_distance_raw r) 4.

Definition record_point (r : scan_record) : lidar_point :=
  LidarPoint (py_round1 (record_angle r)) (py_round1 (record_distance r)) (record_quality r).

(** Test records: quality 1, angle 90 degrees, distance 25 mm; quality 2,
    angle 180.5 degrees, distance 0.25 mm; and a record with quality 0 whose
    other bytes are all ones. *)
Definition rec_a : scan_record := (x04, x00, x2d, x64, x00).
Definition rec_b : scan_record := (x08, x40, x5a, x01, x00).
Definition rec_q0 : scan_record := (x03, xff, xff, xff, xff).

(** The records of a buffer taken five bytes at a time, the points list
    threaded through them; a tail shorter than a record is left over. *)
Fixpoint lidar_records (data : bytes) (points : list lidar_point) : list lidar_point :=
  match data with
  | b0 :: b1 :: b2 :: b3 :: b4 :: rest =>
      lidar_records rest (lidar_record b0 b1 b2 b3 b4 points)
  | _ => points
  end.

(** The frames the control link accepted, oldest first. *)
Definition upstream_frames (tr : list io_event) : list string :=
  omap (fun ev => match ev with
                  | EvControlSend text None => Some text
                  | _ => None
                  end) tr.

(** The frames an observer accepted. *)
Definition received_by (ws : client) (tr : list io_event) : list string :=
  omap (fun ev => match ev with
                  | EvSendStr ws' message None =>
                      if decide (ws' = ws) then Some message else None
                  | _ => None
                  end) tr.

(** The durations a task slept. *)
Definition sleeps_of (task : string) (tr : list io_event) : list Q :=
  omap (fun ev => match ev with
                  | EvSleep task' seconds =>
                      if String.eqb task' task then Some seconds else None
                  | _ => None
                  end) tr.

(** The state after the events [evs]. *)
Definition emit_all (evs : list io_event) (st : State) : State :=
  mkState (browser_clients st) (phone_connected st) (control_ws st) (_mc st) (send_fault st)
    (trace st ++ evs) (log st).

(** The record of one [send_str] of a broadcast pass, and the clients of a
    list whose [send_str] raises. *)
Definition send_event (st : State) (message : string) (ws : client) : io_event :=
  EvSendStr ws message (exn_of_failure <$> send_fault st ws).

Fixpoint failed_of (st : State) (todo : list client) : gset client :=
  match todo with
  | [] => ∅
  | ws :: todo' =>
      match send_fault st ws with
      | Some _ => {[ws]} ∪ failed_of st todo'
      | None => failed_of st todo'
      end
  end.

(** The delay slept at the end of a turn that started with [backoff]. *)
Definition turn_delay (a : attempt) (backoff : Q) : Q :=
  match a with
  | ConnectFails _ => backoff
  | Connected _ _ => 5%Q
  end.

(** The payload the router hands to [send_control] for a command text. *)
Definition arduino_command (cmd : string) : json :=
  JObject [("target", JString "arduino"); ("cmd", JString cmd)].

Definition stop_cmd : string := json_dumps (JObject [("N", JInt 6)]).

Definition motor_cmd (left right : json) : string :=
  json_dumps (JObject [("N", JInt 7); ("D1", left); ("D2", right)]).

(** The state once a motor message has been counted and, for the first of
    every twenty, logged where [%d] formats both speeds. *)
Definition motor_counted (left right : json) (st : State) : State :=
  let mc := default 0 (_mc st) + 1 in
  let st1 := with_mc (Some mc) st in
  if mc mod 20 =? 1 then
    if percent_d left && percent_d right then logged (LogMotor left right mc) st1 else st1
  else st1.

(** A computation that adds nothing to a view of the trace, whether it
    returns or raises. *)
Definition keeps {A B} (view : list io_event -> list B) (m : M A) : Prop :=
  forall st : State, view (trace (m st).2) = view (trace st).

(** The delays a task sleeps over a script of attempts, and the value of its
    local [backoff] at the end, read off the attempts alone. *)
Fixpoint delays (script : list attempt) (backoff : Q) : list Q :=
  match script with
  | [] => []
  | a :: script' =>
      turn_delay a backoff :: delays script' (Qmin (turn_delay a backoff * 1.5) 30)
  end.

Fixpoint final_backoff (script : list attempt) (backoff : Q) : Q :=
  match script with
  | [] => backoff
  | a :: script' => final_backoff script' (Qmin (turn_delay a backoff * 1.5) 30)
  end.

(** The attempts of one endpoint in a schedule, in order. *)
Definition attempts_of (endpoint : string) (schedule : list (string * attempt))
  : list attempt :=
  map snd (filter (fun p => String.eqb (fst p) endpoint = true) schedule).

(** The sequence of delays as the specification lists it. *)
Definition spec_backoffs : list Q := [5; 7.5; 11.25; 16.875; 25; 30; 30]%Q.

(** The state of a fresh process with the given observers and control link. *)
Definition initial_state (clients : gset client) (fault : client -> option send_failure)
    (link : option websocket) : State :=
  mkState clients ∅ link None fault [] [].

(** Test states: no observer; three observers of which the second has lost
    its transport, with an open control link; the same without a link. *)
Definition hub_idle : State := initial_state ∅ (fun _ => None) None.

Definition hub_three : State :=
  initial_state {[1%nat; 2%nat; 3%nat]}
    (fun ws => if (ws =? 2)%nat then Some FailConnection else None)
    (Some SocketOpen).

Definition hub_unlinked : State :=
  initial_state {[1%nat; 2%nat; 3%nat]}
    (fun ws => if (ws =? 2)%nat then Some FailConnection else None)
    None.

(** Observer messages, and a [json.loads] that reads back the texts of the
    given values and raises on every other text. *)
Definition stop_message : json := JObject [("type", JString "stop")].

Definition bare_motor_message : json := JObject [("type", JString "motor")].

Definition loads_of (known : list json) (data : string) : result json :=
  match List.find (fun v => String.eqb (json_dumps v) data) known with
  | Some v => Ok v
  | None => Raise JSONDecodeError
  end.

Definition loads_known : string -> result json :=
  loads_of [stop_message; bare_motor_message].

(** ** Observer connections: [ws_handler] *)

(** A message of the observer's websocket, by [msg.type]. *)
Inductive browser_frame : Set :=
| FrameText (data : string)   (* WSMsgType.TEXT *)
| FrameClosed                 (* WSMsgType.CLOSED *)
| FrameError                  (* WSMsgType.ERROR *)
| FrameOther.                 (* any other type *)

(** The two info lines of [ws_handler], each with [len(browser_clients)].
    They are kept in a list of their own beside the state. *)
Inductive access_record : Set :=
| LogBrowserConnected (total : nat)
| LogBrowserDisconnected (total : nat).

Definition Hub : Type := State * list access_record.

Definition H (A : Type) : Type := Hub -> result A * Hub.

Definition hub_ret {A} (a : A) : H A := fun h => (Ok a, h).

Definition hub_bind {A B} (m : H A) (k : A -> H B) : H B :=
  fun h =>
    match m h with
    | (Ok a, h') => k a h'
    | (Raise e, h') => (Raise e, h')
    end.

Definition hub_lift {A} (m : M A) : H A :=
  fun h => let '(r, st') := m h.1 in (r, (st', h.2)).

Definition log_info (line : State -> access_record) : H unit :=
  fun h => (Ok tt, (h.1, h.2 ++ [line h.1])).

(** [try: body  finally: final]: [final] runs however [body] ends, and the
    outcome is that of [body] unless [final] raises. *)
Definition try_finally {A} (body : H A) (final : H unit) : H A :=
  fun h =>
    let '(r, h') := body h in
    match final h' with
    | (Ok _, h'') => (r, h'')
    | (Raise e, h'') => (Raise e, h'')
    end.

Notation "m ;;; k" := (hub_bind m (fun _ => k))
  (at level 100, right associativity).

Section Observers.

Variable json_loads : string -> result json.

(** [async for msg in ws: ...], with its [break]. *)
Fixpoint browser_receive_loop (inbound : list browser_frame) : M unit :=
  match inbound with
  | [] => ret tt
  | FrameText data :: inbound' =>
      handle_browser_message json_loads data ;; browser_receive_loop inbound'
  | FrameClosed :: _ => ret tt
  | FrameError :: _ => ret tt
  | FrameOther :: inbound' => browser_receive_loop inbound'
  end.

(** [ws_handler] for the response object [ws]; [handshake] is the exception
    [ws.prepare(request)] raises, if it does. *)
Definition ws_handler (ws : client) (handshake : option exn)
    (inbound : list browser_frame) : H client :=
  match handshake with
  | Some e => hub_lift (raise e)
  | None =>
      hub_lift (modify (fun st => with_browser_clients ({[ws]} ∪ browser_clients st) st)) ;;;
      log_info (fun st => LogBrowserConnected (size (browser_clients st))) ;;;
      hub_lift (connected <- gets phone_connected ;;
                send_str ws (json_dumps (status_json connected))) ;;;
      try_finally
        (hub_lift (browser_receive_loop inbound))
        (hub_lift (modify (fun st =>
                     with_browser_clients (browser_clients st ∖ {[ws]}) st)) ;;;
         log_info (fun st => LogBrowserDisconnected (size (browser_clients st)))) ;;;
      hub_ret ws
  end.

End Observers.

(** ** Vocabulary of the further statements *)

(** A registered observer whose transport accepts frames. *)
Definition healthy (c : client) (st : State) : Prop :=
  c ∈ browser_clients st /\ send_fault st c = None.

(** A computation under which the observation [f] of the state can only
    move along [R], whether it returns or raises. *)
Definition stays {A X} (R : X -> X -> Prop) (f : State -> X) (m : M A) : Prop :=
  forall st : State, R (f (m st).2) (f st).

(** The status frame for a connectivity map. *)
Definition status_text (connected : gmap string bool) : string :=
  json_dumps (status_json connected).

(** The frame a message of the phone is relayed as, if it is relayed, or
    the exception its handler raises before any broadcast. *)
Definition relay_text (json_loads : string -> result json) (endpoint : string)
    (m : ws_message) : result (option string) :=
  match m with
  | TextMessage data =>
      if bool_decide (endpoint ∈ ["arduino"; "imu"]) then
        match json_loads data with
        | Ok parsed =>
            Ok (Some (json_dumps (JObject [("type", JString endpoint); ("data", parsed)])))
        | Raise JSONDecodeError => Ok None
        | Raise e => Raise e
        end
      else Ok None
  | BinaryMessage data =>
      if String.eqb endpoint "camera" then
        Ok (Some (json_dumps (JObject [("type", JString "camera");
                                       ("jpeg", JString (b64encode data))])))
      else if String.eqb endpoint "flir" then
        if (12 <=? length data)%nat
        then Ok (Some (json_dumps (flir_json (flir_frame_of data))))
        else Ok None
      else if String.eqb endpoint "lidar" then
        match lidar_records data [] with
        | [] => Ok None
        | points =>
            Ok (Some (json_dumps (JObject [("type", JString "lidar");
                                           ("points", JArray (map point_json points))])))
        end
      else Ok None
  end.

(** The frames the messages of a link are relayed as, in order, up to the
    first message whose handler raises, and that exception. *)
Fixpoint relay_plan (json_loads : string -> result json) (endpoint : string)
    (inbound : list ws_message) : list string * option exn :=
  match inbound with
  | [] => ([], None)
  | m :: inbound' =>
      match relay_text json_loads endpoint m with
      | Raise e => ([], Some e)
      | Ok frame =>
          let plan := relay_plan json_loads endpoint inbound' in
          (match frame with
           | Some text => text :: plan.1
           | None => plan.1
           end, plan.2)
      end
  end.

(** Byte [k] of [v], counted from the least significant. *)
Definition le_byte (v : Z) (k : nat) : byte :=
  default x00 (Byte.of_N (Z.to_N (Z.land (Z.shiftr v (8 * Z.of_nat k)) 255))).

(** One record applied to the points list. *)
Definition lidar_step (points : list lidar_point) (r : scan_record) : list lidar_point :=
  let '(b0, b1, b2, b3, b4) := r in lidar_record b0 b1 b2 b3 b4 points.

(** The ranges the fields of a decoded point stay in. *)
Definition point_in_bounds (p : lidar_point) : Prop :=
  1 <= p_q p <= 63
  /\ (0 <= p_a p)%Q /\ (p_a p <= 512)%Q
  /\ (0.2 <= p_d p)%Q /\ (p_d p <= 16383.8)%Q.

(** The broadcasts of a list of frames, one after the other. *)
Fixpoint broadcast_all (texts : list string) : M unit :=
  match texts with
  | [] => ret tt
  | text :: texts' => broadcast_to_browsers text ;; broadcast_all texts'
  end.

(** A [dict], the only value with a [get] method. *)
Definition is_object (v : json) : bool :=
  match v with
  | JObject _ => true
  | _ => false
  end.

(** A value of [type] that the router has a branch for. *)
Definition routed_type (v : json) : bool :=
  json_eq_str v "motor" || json_eq_str v "stop" || json_eq_str v "control".

(** A text frame that parses to a motor message, and one whose speeds [%d]
    formats. *)
Definition is_motor_frame (json_loads : string -> result json) (fr : browser_frame) : Prop :=
  exists data fields,
    fr = FrameText data
    /\ json_loads data = Ok (JObject fields)
    /\ dict_get fields "type" = Some (JString "motor").

Definition speeds_format (json_loads : string -> result json) (fr : browser_frame) : Prop :=
  forall data fields,
    fr = FrameText data ->
    json_loads data = Ok (JObject fields) ->
    percent_d (default (JInt 0) (dict_get fields "left")) = true
    /\ percent_d (default (JInt 0) (dict_get fields "right")) = true.

(** What makes the handler of observer messages raise [e] on a text:
    [json.loads] raises it and it is not the [JSONDecodeError] the handler
    catches, or it is the [AttributeError] of [msg.get] on a value that is
    not an object. *)
Definition raises_on (json_loads : string -> result json) (data : string) (e : exn) : Prop :=
  (json_loads data = Raise e /\ e <> JSONDecodeError)
  \/ (e = AttributeError /\ exists v, json_loads data = Ok v /\ is_object v = false).

(** A test schedule: the lidar task connects and loses the link, then the
    imu task fails to connect. *)
Definition schedule_two : list (string * attempt) :=
  [("lidar", Connected [] None); ("imu", ConnectFails OSError)].

(** The number of motor lines in a log. *)
Definition is_motor_line (r : log_record) : bool :=
  match r with
  | LogMotor _ _ _ => true
  | _ => false
  end.

Definition motor_log_lines (l : list log_record) : Z :=
  Z.of_nat (length (List.filter is_motor_line l)).

(** More observer messages and a [json.loads] that knows them. *)
Definition control_message (payload : json) : json :=
  JObject [("type", JString "control"); ("payload", payload)].

Definition bare_control_message : json := JObject [("type", JString "control")].

Definition loads_more : string -> result json :=
  loads_of [stop_message; bare_motor_message; bare_control_message;
            control_message (JArray [JInt 1; JInt 2]);
            JArray [JString "motor"];
            JObject [("type", JString "dance")];
            JObject [("reading", JInt 7)]].

(** A motor message whose left speed is a string. *)
Definition worded_motor_message : json :=
  JObject [("type", JString "motor"); ("left", JString "fast")].

(** An integer literal of 4301 digits, over the limit of 4300 that the
    conversion to [int] accepts, and a [json.loads] that raises on it as
    Python does. *)
Definition long_integer : string := string_of_list_ascii (repeat "9"%char 4301).

Definition loads_limited (data : string) : result json :=
  if String.eqb data long_integer then Raise ValueError
  else loads_of [stop_message; bare_motor_message; worded_motor_message] data.



(** A thermal frame of three samples: below the range, inside it, above. *)
Definition frame_three : bytes := flir_payload 3 1 1000 3000 [500; 2000; 3500].

(** * Properties *)

(** ** Slices, ranges and unpacking *)

Lemma drop_nth_cons {A} (l : list A) (n : nat) (d : A) :
  (n < length l)%nat -> drop n l = nth n l d :: drop (S n) l.
Proof.
  revert n; induction l as [|x l IH]; intros [|n] Hn; simpl in *; try lia.
  - reflexivity.
  - apply IH. lia.
Qed.

Lemma py_slice_at {A} (data : list A) (off len : nat) :
  py_slice data (Z.of_nat off) (Z.of_nat off + Z.of_nat len) = take len (drop off data).
Proof.
  unfold py_slice.
  replace (Z.of_nat off + Z.of_nat len - Z.of_nat off) with (Z.of_nat len) by lia.
  now rewrite !Nat2Z.id.
Qed.

Lemma unpack_from_H_ok (data : bytes) (off : nat) :
  (off + 2 <= length data)%nat ->
  unpack_from_H data (Z.of_nat off) = Ok (u16_at data off).
Proof.
  intros Hlen. unfold unpack_from_H, u16_at.
  change 2 with (Z.of_nat 2). rewrite py_slice_at.
  rewrite (drop_nth_cons data off x00) by lia.
  rewrite (drop_nth_cons data (S off) x00) by lia.
  replace (off + 1)%nat with (S off) by lia. reflexivity.
Qed.

Lemma unpack_from_I_ok (data : bytes) (off : nat) :
  (off + 4 <= length data)%nat ->
  unpack_from_I data (Z.of_nat off) = Ok (u32_at data off).
Proof.
  intros Hlen. unfold unpack_from_I, u32_at.
  change 4 with (Z.of_nat 4). rewrite py_slice_at.
  rewrite (drop_nth_cons data off x00) by lia.
  rewrite (drop_nth_cons data (S off) x00) by lia.
  rewrite (drop_nth_cons data (S (S off)) x00) by lia.
  rewrite (drop_nth_cons data (S (S (S off))) x00) by lia.
  replace (off + 1)%nat with (S off) by lia.
  replace (off + 2)%nat with (S (S off)) by lia.
  replace (off + 3)%nat with (S (S (S off))) by lia.
  reflexivity.
Qed.

Lemma unpack_from_HHII_ok (data : bytes) :
  (12 <= length data)%nat ->
  unpack_from_HHII data
  = Ok (u16_at data 0, u16_at data 2, u32_at data 4, u32_at data 8).
Proof.
  intros Hlen. unfold unpack_from_HHII.
  destruct (Z.ltb_spec (Z.of_nat (length data)) 12) as [H|_]; [lia|].
  assert (H0 : unpack_from_H data 0 = Ok (u16_at data 0))
    by (apply (unpack_from_H_ok data 0); lia).
  assert (H2 : unpack_from_H data 2 = Ok (u16_at data 2))
    by (apply (unpack_from_H_ok data 2); lia).
  assert (H4 : unpack_from_I data 4 = Ok (u32_at data 4))
    by (apply (unpack_from_I_ok data 4); lia).
  assert (H8 : unpack_from_I data 8 = Ok (u32_at data 8))
    by (apply (unpack_from_I_ok data 8); lia).
  rewrite H0, H2, H4, H8. reflexivity.
Qed.

(** [range(0, n - step + 1, step)] visits the starts of the [n / step] whole
    blocks of [step] items. *)
Lemma py_range_blocks (n step : nat) :
  (0 < step)%nat ->
  py_range 0 (Z.of_nat n - (Z.of_nat step - 1)) (Z.of_nat step)
  = map (fun k => 0 + Z.of_nat k * Z.of_nat step) (seq 0 (n / step)).
Proof.
  intros Hstep. unfold py_range.
  destruct (Z.leb_spec (Z.of_nat n - (Z.of_nat step - 1)) 0) as [Hle|Hgt].
  - rewrite Nat.div_small by lia. reflexivity.
  - f_equal. f_equal.
    replace (Z.of_nat n - (Z.of_nat step - 1) - 0 + Z.of_nat step - 1)
      with (Z.of_nat n) by lia.
    rewrite <- Nat2Z.inj_div. apply Nat2Z.id.
Qed.

(** ** The thermal decoder *)

Lemma flir_loop_map (body : bytes) (min_val val_range : Z) (ks : list nat) (acc : list Z) :
  (forall k, In k ks -> (2 * k + 2 <= length body)%nat) ->
  flir_loop body min_val val_range (map (fun k => 0 + Z.of_nat k * Z.of_nat 2) ks) acc
  = Ok (acc ++ map (fun k => flir_pixel min_val val_range (sample_at body k)) ks).
Proof.
  revert acc. induction ks as [|k ks IH]; intros acc Hks; simpl.
  - now rewrite app_nil_r.
  - replace (0 + Z.of_nat k * Z.of_nat 2) with (Z.of_nat (2 * k)) by lia.
    rewrite unpack_from_H_ok by (apply Hks; now left). simpl.
    rewrite IH by (intros k' Hk'; apply Hks; now right).
    now rewrite <- app_assoc.
Qed.

Lemma flir_decode_ok (data : bytes) :
  (12 <= length data)%nat -> flir_decode data = Ok (Some (flir_frame_of data)).
Proof.
  intros Hlen. unfold flir_decode.
  destruct (Z.leb_spec 12 (Z.of_nat (length data))) as [_|H]; [|lia].
  rewrite unpack_from_HHII_ok by assumption. simpl rbind.
  pose proof (py_range_blocks (length (drop 12 data)) 2 ltac:(lia)) as Hr.
  change (Z.of_nat 2 - 1) with 1 in Hr. change (Z.of_nat 2) with 2 in Hr at 1.
  rewrite Hr. rewrite flir_loop_map.
  - reflexivity.
  - intros k Hk. apply in_seq in Hk.
    pose proof (Nat.Div0.mul_div_le (length (drop 12 data)) 2). lia.
Qed.

Lemma flir_decode_short (data : bytes) :
  (length data < 12)%nat -> flir_decode data = Ok None.
Proof.
  intros Hlen. unfold flir_decode.
  destruct (Z.leb_spec 12 (Z.of_nat (length data))) as [H|_]; [lia|reflexivity].
Qed.

Lemma flir_frame_of_pixels_length (data : bytes) :
  length (f_pixels (flir_frame_of data)) = ((length data - 12) / 2)%nat.
Proof.
  unfold flir_frame_of; cbn [f_pixels]. now rewrite length_map, length_seq, length_drop.
Qed.

Lemma flir_frame_of_pixel (data : bytes) (i : nat) :
  (2 * i + 2 <= length data - 12)%nat ->
  f_pixels (flir_frame_of data) !! i
  = Some (flir_pixel (u32_at data 4) (Z.max (u32_at data 8 - u32_at data 4) 1)
            (sample_at (drop 12 data) i)).
Proof.
  intros Hi. unfold flir_frame_of; cbn [f_pixels].
  rewrite list_lookup_fmap.
  rewrite lookup_seq_lt; [reflexivity|].
  rewrite length_drop.
  apply Nat.div_le_lower_bound; lia.
Qed.

Lemma flir_frame_of_lookup (data : bytes) (i : nat) (px : Z) :
  f_pixels (flir_frame_of data) !! i = Some px ->
  (2 * i + 2 <= length data - 12)%nat
  /\ px = flir_pixel (u32_at data 4) (Z.max (u32_at data 8 - u32_at data 4) 1)
            (sample_at (drop 12 data) i).
Proof.
  intros Hpx.
  assert (Hi : (i < length (f_pixels (flir_frame_of data)))%nat)
    by (apply lookup_lt_Some with px; exact Hpx).
  rewrite flir_frame_of_pixels_length in Hi.
  assert (Hle : (2 * i + 2 <= length data - 12)%nat).
  { pose proof (Nat.Div0.mul_div_le (length data - 12) 2). lia. }
  split; [exact Hle|].
  rewrite flir_frame_of_pixel in Hpx by exact Hle. now injection Hpx as <-.
Qed.

(** C1, as amended.  Every payload of at least 12 bytes decodes to a frame
    whose [minVal] and [maxVal] are the two 32-bit header words, with one
    pixel for each whole 16-bit body sample, and every pixel of the frame is
    its little-endian body sample [raw] taken through
    [clamp(trunc((raw - minVal) * 255 / range), 0, 255)], with
    [range = max(maxVal - minVal, 1)] and the quotient truncated towards
    zero. *)
Theorem flir_pixels_truncated (data : bytes) :
  (12 <= length data)%nat ->
  exists f,
    flir_decode data = Ok (Some f)
    /\ f_minVal f = u32_at data 4
    /\ f_maxVal f = u32_at data 8
    /\ (forall i, (2 * i + 2 <= length data - 12)%nat -> is_Some (f_pixels f !! i))
    /\ forall i px,
         f_pixels f !! i = Some px ->
         px = Z.max 0 (Z.min 255
                (Z.quot ((sample_at (drop 12 data) i - f_minVal f) * 255)
                   (Z.max (f_maxVal f - f_minVal f) 1))).
Proof.
  intros Hlen. exists (flir_frame_of data).
  split; [now apply flir_decode_ok|].
  split; [reflexivity|]. split; [reflexivity|]. split.
  - intros i Hi. rewrite flir_frame_of_pixel by exact Hi. now eexists.
  - intros i px Hpx. now apply flir_frame_of_lookup in Hpx as [_ ->].
Qed.

Lemma flir_pixels_truncated_witness :
  (12 <= length frame_quarter)%nat
  /\ exists f,
       flir_decode frame_quarter = Ok (Some f)
       /\ f_minVal f = 0 /\ f_maxVal f = 4 /\ f_pixels f !! 0%nat = Some 63.
Proof.
  split; [vm_compute; lia|].
  destruct (flir_pixels_truncated frame_quarter)
    as (f & Hf & Hmin & Hmax & Hsome & Hpx); [vm_compute; lia|].
  exists f. split; [exact Hf|]. split; [exact Hmin|]. split; [exact Hmax|].
  destruct (Hsome 0%nat) as [px Hpx0]; [vm_compute; lia|].
  rewrite Hpx0. f_equal. rewrite (Hpx 0%nat px Hpx0), Hmin, Hmax. reflexivity.
Defined.

(** C1, as stated, fails: with [minVal = 0], [maxVal = 4] and one sample of 1
    the exact quotient is 63.75, which rounds to 64, and the decoded pixel
    is 63. *)
Lemma flir_pixels_not_rounded :
  ~ (forall data : bytes,
        (12 <= length data)%nat ->
        forall f, flir_decode data = Ok (Some f) ->
        forall i px,
          f_pixels f !! i = Some px ->
          px = spec_flir_pixel (f_minVal f) (f_maxVal f) (sample_at (drop 12 data) i)).
Proof.
  intros H.
  specialize (H frame_quarter ltac:(vm_compute; lia)
                (FlirFrame 1 1 0 4 [63]) ltac:(vm_compute; reflexivity)
                0%nat 63 eq_refl).
  vm_compute in H. discriminate H.
Qed.

Lemma flir_pixel_flat (min_val raw : Z) :
  flir_pixel min_val (Z.max (min_val - min_val) 1) raw
  = if raw <=? min_val then 0 else 255.
Proof.
  unfold flir_pixel, py_int_truediv.
  replace (Z.max (min_val - min_val) 1) with 1 by lia.
  rewrite Z.quot_1_r.
  destruct (Z.leb_spec raw min_val); lia.
Qed.

(** C4, as amended.  In a payload of at least 12 bytes whose header has
    [minVal = maxVal], every pixel is 0 where its raw sample is at most
    [minVal] and 255 where it is above; so all pixels are 0 when no sample
    exceeds [minVal], and the header width=2, height=1, minVal=100,
    maxVal=100 with two samples of 100 decodes to the pixels [0, 0]. *)
Theorem flir_flat_scene :
  (forall data : bytes,
      (12 <= length data)%nat ->
      exists f,
        flir_decode data = Ok (Some f)
        /\ (f_minVal f = f_maxVal f ->
            forall i px,
              f_pixels f !! i = Some px ->
              px = if sample_at (drop 12 data) i <=? f_minVal f then 0 else 255))
  /\ flir_decode frame_flat = Ok (Some (FlirFrame 2 1 100 100 [0; 0])).
Proof.
  split; [|vm_compute; reflexivity].
  intros data Hlen. exists (flir_frame_of data).
  split; [now apply flir_decode_ok|].
  intros Heq i px Hpx. apply flir_frame_of_lookup in Hpx as [_ ->].
  cbn [f_minVal f_maxVal flir_frame_of] in Heq |- *.
  rewrite <- Heq. now rewrite flir_pixel_flat.
Qed.

Lemma flir_flat_scene_witness :
  (12 <= length frame_flat_above)%nat
  /\ exists f,
       flir_decode frame_flat_above = Ok (Some f)
       /\ f_minVal f = f_maxVal f
       /\ f_pixels f = [255].
Proof.
  split; [vm_compute; lia|].
  destruct (proj1 flir_flat_scene frame_flat_above) as (f & Hf & Hpx);
    [vm_compute; lia|].
  exists f. split; [exact Hf|].
  assert (Hd : flir_decode frame_flat_above = Ok (Some (FlirFrame 1 1 100 100 [255])))
    by (vm_compute; reflexivity).
  rewrite Hd in Hf. injection Hf as Hf.
  assert (Hmm : f_minVal f = f_maxVal f) by (now rewrite <- Hf).
  split; [exact Hmm|].
  assert (H0 : f_pixels f !! 0%nat = Some 255) by (now rewrite <- Hf).
  pose proof (Hpx Hmm 0%nat 255 H0) as Hval.
  now rewrite <- Hf.
Defined.

(** C4, as stated, fails: a header with [minVal = maxVal = 100] followed by
    one sample of 101 decodes to the pixel 255. *)
Lemma flir_flat_scene_not_all_zero :
  ~ (forall data : bytes,
        (12 <= length data)%nat ->
        forall f, flir_decode data = Ok (Some f) ->
        f_minVal f = f_maxVal f ->
        forall px, In px (f_pixels f) -> px = 0).
Proof.
  intros H.
  specialize (H frame_flat_above ltac:(vm_compute; lia)
                (FlirFrame 1 1 100 100 [255]) ltac:(vm_compute; reflexivity)
                eq_refl 255 ltac:(now left)).
  discriminate H.
Qed.

(** ** The range-scan decoder *)

Lemma lidar_loop_shift (pre rest : bytes) (j : nat) (ks : list nat)
    (acc : list lidar_point) :
  length pre = (5 * j)%nat ->
  lidar_loop (pre ++ rest)
    (map (fun k => 0 + Z.of_nat k * Z.of_nat 5) (map (Nat.add j) ks)) acc
  = lidar_loop rest (map (fun k => 0 + Z.of_nat k * Z.of_nat 5) ks) acc.
Proof.
  intros Hpre. revert acc. induction ks as [|k ks IH]; intros acc; [reflexivity|].
  cbn [map lidar_loop].
  replace (0 + Z.of_nat (j + k) * Z.of_nat 5) with (Z.of_nat (5 * j + 5 * k)) by lia.
  replace (0 + Z.of_nat k * Z.of_nat 5) with (Z.of_nat (5 * k)) by lia.
  change 5 with (Z.of_nat 5). rewrite !py_slice_at.
  rewrite <- Hpre, drop_app_add.
  destruct (take 5 (drop (5 * k) rest)) as [|? [|? [|? [|? [|? [|? ?]]]]]];
    try reflexivity.
  apply IH.
Qed.

Lemma lidar_records_short (data : bytes) (acc : list lidar_point) :
  (length data < 5)%nat -> lidar_records data acc = acc.
Proof.
  destruct data as [|? [|? [|? [|? [|? ?]]]]]; simpl; intros; try reflexivity; lia.
Qed.

Lemma lidar_loop_records (n : nat) :
  forall (data : bytes) (acc : list lidar_point),
    (length data < n)%nat ->
    lidar_loop data (map (fun k => 0 + Z.of_nat k * Z.of_nat 5) (seq 0 (length data / 5))) acc
    = Ok (lidar_records data acc).
Proof.
  induction n as [|n IH]; intros data acc Hn; [lia|].
  destruct (Nat.lt_ge_cases (length data) 5) as [Hshort|Hlong].
  - rewrite Nat.div_small by assumption. simpl.
    now rewrite lidar_records_short.
  - destruct data as [|b0 [|b1 [|b2 [|b3 [|b4 rest]]]]]; simpl in Hlong; try lia.
    change (b0 :: b1 :: b2 :: b3 :: b4 :: rest) with ([b0; b1; b2; b3; b4] ++ rest).
    replace (length ([b0; b1; b2; b3; b4] ++ rest) / 5)%nat with (S (length rest / 5)).
    2:{ rewrite length_app. change (length [b0; b1; b2; b3; b4]) with (1 * 5)%nat.
        rewrite Nat.add_comm, Nat.div_add by lia. lia. }
    rewrite <- cons_seq, <- fmap_S_seq.
    cbn [map lidar_loop].
    change (py_slice ([b0; b1; b2; b3; b4] ++ rest) (0 + Z.of_nat 0 * Z.of_nat 5)
              (0 + Z.of_nat 0 * Z.of_nat 5 + 5)) with [b0; b1; b2; b3; b4].
    cbv iota.
    change (fmap S (seq 0 (length rest / 5))) with (map (Nat.add 1) (seq 0 (length rest / 5))).
    rewrite (lidar_loop_shift [b0; b1; b2; b3; b4] rest 1) by reflexivity.
    rewrite IH by (simpl in Hn; lia).
    reflexivity.
Qed.

(** The index loop of the source visits the records five bytes at a time. *)
Lemma lidar_decode_records (data : bytes) :
  lidar_decode data = Ok (lidar_records data []).
Proof.
  unfold lidar_decode.
  pose proof (py_range_blocks (length data) 5 ltac:(lia)) as Hr.
  change (Z.of_nat 5 - 1) with 4 in Hr. change (Z.of_nat 5) with 5 in Hr at 1.
  rewrite Hr. apply (lidar_loop_records (S (length data))). lia.
Qed.

Lemma lidar_records_blocks (rs : list scan_record) (rest : bytes)
    (acc : list lidar_point) :
  lidar_records (flat_map record_bytes rs ++ rest) acc
  = lidar_records rest
      (fold_left (fun pts r => let '(b0, b1, b2, b3, b4) := r in
                               lidar_record b0 b1 b2 b3 b4 pts) rs acc).
Proof.
  revert acc. induction rs as [|[[[[b0 b1] b2] b3] b4] rs IH]; intros acc; [reflexivity|].
  cbn [flat_map record_bytes fold_left]. simpl. apply IH.
Qed.

(** A buffer of [5 * k] bytes is [k] records. *)
Lemma blocks_of_length (k : nat) :
  forall data : bytes,
    length data = (5 * k)%nat ->
    exists rs : list scan_record, data = flat_map record_bytes rs /\ length rs = k.
Proof.
  induction k as [|k IH]; intros data Hlen.
  - exists []. destruct data; [now split|discriminate].
  - destruct data as [|b0 [|b1 [|b2 [|b3 [|b4 rest]]]]]; simpl in Hlen; try lia.
    destruct (IH rest ltac:(lia)) as (rs & -> & Hrs).
    exists ((b0, b1, b2, b3, b4) :: rs). split; [reflexivity|]. simpl; lia.
Qed.

Lemma lidar_record_valid (r : scan_record) (acc : list lidar_point) :
  0 < record_quality r -> (0 < record_distance r)%Q ->
  (let '(b0, b1, b2, b3, b4) := r in lidar_record b0 b1 b2 b3 b4 acc)
  = acc ++ [record_point r].
Proof.
  destruct r as [[[[b0 b1] b2] b3] b4].
  unfold record_quality, record_distance, record_distance_raw.
  intros Hq Hd. unfold lidar_record.
  destruct (Z.eqb_spec (Z.shiftr (byte_val b0) 2) 0) as [H0|_]; [lia|].
  destruct (Qlt_le_dec 0 _) as [_|Hle]; [reflexivity|].
  exfalso. apply (Qlt_not_le _ _ Hd Hle).
Qed.

Lemma lidar_record_no_quality (r : scan_record) (acc : list lidar_point) :
  record_quality r = 0 ->
  (let '(b0, b1, b2, b3, b4) := r in lidar_record b0 b1 b2 b3 b4 acc) = acc.
Proof.
  destruct r as [[[[b0 b1] b2] b3] b4]. unfold record_quality, lidar_record.
  intros ->. reflexivity.
Qed.

Lemma lidar_fold_valid (rs : list scan_record) (acc : list lidar_point) :
  (forall r, In r rs -> 0 < record_quality r /\ (0 < record_distance r)%Q) ->
  fold_left (fun pts r => let '(b0, b1, b2, b3, b4) := r in
                          lidar_record b0 b1 b2 b3 b4 pts) rs acc
  = acc ++ map record_point rs.
Proof.
  revert acc. induction rs as [|r rs IH]; intros acc Hrs; simpl.
  - now rewrite app_nil_r.
  - pose proof (lidar_record_valid r acc) as Hr.
    destruct (Hrs r ltac:(now left)) as [Hq Hd]. specialize (Hr Hq Hd).
    destruct r as [[[[b0 b1] b2] b3] b4]. rewrite Hr.
    rewrite IH by (intros r' Hr'; apply Hrs; now right).
    now rewrite <- app_assoc.
Qed.

(** C5.  A buffer made of [k] records that all have quality above 0 and a
    decoded distance above 0 is [5 * k] bytes long and decodes to exactly [k]
    points, the point of each record in the order of the records; and up to
    four bytes after whole records are ignored: a buffer of [5 * k + r]
    bytes, [0 < r < 5], decodes as its first [5 * k] bytes do. *)
Theorem lidar_decode_whole_records :
  (forall rs : list scan_record,
      (forall r, In r rs -> 0 < record_quality r /\ (0 < record_distance r)%Q) ->
      length (flat_map record_bytes rs) = (5 * length rs)%nat
      /\ exists points,
           lidar_decode (flat_map record_bytes rs) = Ok points
           /\ length points = length rs
           /\ points = map record_point rs)
  /\ (forall (data tail : bytes) (k : nat),
        length data = (5 * k)%nat ->
        (0 < length tail < 5)%nat ->
        lidar_decode (data ++ tail) = lidar_decode data).
Proof.
  split.
  - intros rs Hrs. split.
    + induction rs as [|[[[[b0 b1] b2] b3] b4] rs IH]; [reflexivity|].
      cbn [flat_map record_bytes]. rewrite length_app, IH.
      * simpl; lia.
      * intros r Hr. apply Hrs. now right.
    + exists (map record_point rs).
      split; [|split; [apply length_map|reflexivity]].
      rewrite lidar_decode_records.
      rewrite <- (app_nil_r (flat_map record_bytes rs)).
      rewrite lidar_records_blocks, lidar_fold_valid by assumption.
      reflexivity.
  - intros data tail k Hlen Htail.
    destruct (blocks_of_length k data Hlen) as (rs & -> & _).
    rewrite !lidar_decode_records.
    rewrite lidar_records_blocks.
    rewrite <- (app_nil_r (flat_map record_bytes rs)).
    rewrite lidar_records_blocks.
    f_equal. apply lidar_records_short. lia.
Qed.

Lemma lidar_decode_whole_records_witness :
  (forall r, In r [rec_a; rec_b] -> 0 < record_quality r /\ (0 < record_distance r)%Q)
  /\ lidar_decode (flat_map record_bytes [rec_a; rec_b])
     = Ok [LidarPoint (Qmake 900 10) (Qmake 250 10) 1; LidarPoint (Qmake 1805 10) (Qmake 2 10) 2]
  /\ lidar_decode (flat_map record_bytes [rec_a; rec_b] ++ [xff; xff; xff])
     = lidar_decode (flat_map record_bytes [rec_a; rec_b]).
Proof.
  assert (Hv : forall r, In r [rec_a; rec_b] ->
                 0 < record_quality r /\ (0 < record_distance r)%Q).
  { intros r [<-|[<-|[]]]; split; reflexivity. }
  split; [exact Hv|]. split.
  - destruct (proj1 lidar_decode_whole_records [rec_a; rec_b] Hv)
      as (_ & points & Hdec & _ & Hpts).
    rewrite Hdec, Hpts. reflexivity.
  - apply (proj2 lidar_decode_whole_records _ _ 2%nat); [reflexivity|simpl; lia].
Defined.

(** C7.  A five-byte record whose quality bits are 0 contributes nothing,
    whatever its angle and distance bytes: the buffer with the record at a
    record boundary decodes as the buffer without it. *)
Theorem lidar_zero_quality_dropped (pre post : bytes) (r : scan_record) (k : nat) :
  length pre = (5 * k)%nat ->
  record_quality r = 0 ->
  lidar_decode (pre ++ record_bytes r ++ post) = lidar_decode (pre ++ post).
Proof.
  intros Hpre Hq.
  destruct (blocks_of_length k pre Hpre) as (rs & -> & _).
  rewrite !lidar_decode_records, !lidar_records_blocks.
  replace (record_bytes r ++ post) with (flat_map record_bytes [r] ++ post)
    by (simpl; now rewrite app_nil_r).
  rewrite lidar_records_blocks. cbn [fold_left].
  now rewrite lidar_record_no_quality.
Qed.

Lemma lidar_zero_quality_dropped_witness :
  record_quality rec_q0 = 0
  /\ lidar_decode (record_bytes rec_a ++ record_bytes rec_q0 ++ record_bytes rec_b)
     = lidar_decode (record_bytes rec_a ++ record_bytes rec_b).
Proof.
  split; [reflexivity|].
  apply (lidar_zero_quality_dropped (record_bytes rec_a) (record_bytes rec_b) rec_q0 1);
    reflexivity.
Defined.

(** ** The broadcast hub *)

Lemma emit_emit_all (ev : io_event) (evs : list io_event) (st : State) :
  emit_all evs (emit ev st) = emit_all (ev :: evs) st.
Proof. unfold emit_all, emit; simpl. now rewrite <- app_assoc. Qed.

Lemma emit_all_nil (st : State) : emit_all [] st = st.
Proof. destruct st. unfold emit_all; simpl. now rewrite app_nil_r. Qed.

Lemma failed_of_emit (ev : io_event) (st : State) (todo : list client) :
  failed_of (emit ev st) todo = failed_of st todo.
Proof. induction todo as [|ws todo IH]; simpl; [reflexivity|]. now rewrite IH. Qed.

Lemma elem_of_failed_of (st : State) (todo : list client) (ws : client) :
  ws ∈ failed_of st todo <-> ws ∈ todo /\ is_Some (send_fault st ws).
Proof.
  induction todo as [|c todo IH]; simpl.
  - split; [set_solver|]. intros [H _]. inversion H.
  - destruct (send_fault st c) as [f|] eqn:Hc.
    + rewrite elem_of_union, elem_of_singleton, IH, elem_of_cons.
      split.
      * intros [->|[H1 H2]]; [split; [now left|now rewrite Hc]|split; [now right|exact H2]].
      * intros [[->|H1] H2]; [now left|right; now split].
    + rewrite IH, elem_of_cons. split.
      * intros [H1 H2]. split; [now right|exact H2].
      * intros [[->|H1] H2]; [rewrite Hc in H2; destruct H2; discriminate|now split].
Qed.

(** The whole pass over [todo]: every client of the list is sent the message
    once, in order, and the clients whose send raised join [stale]; nothing
    else of the state changes. *)
Lemma broadcast_loop_run (message : string) (todo : list client) :
  forall (stale : gset client) (st : State),
    broadcast_loop message todo stale st
    = (Ok (failed_of st todo ∪ stale), emit_all (map (send_event st message) todo) st).
Proof.
  induction todo as [|ws todo IH]; intros stale st.
  - simpl. unfold ret. rewrite emit_all_nil. f_equal. f_equal. set_solver.
  - cbn [broadcast_loop map failed_of].
    unfold bind at 1. unfold try_except, bind, send_str, send_event at 1.
    destruct (send_fault st ws) as [f|] eqn:Hf; simpl.
    + replace (is_connection_or_runtime (exn_of_failure f)) with true by now destruct f.
      unfold ret. rewrite IH, emit_emit_all, failed_of_emit.
      f_equal. f_equal. set_solver.
    + rewrite IH, emit_emit_all, failed_of_emit. reflexivity.
Qed.

Lemma broadcast_to_browsers_run (message : string) (st : State) :
  broadcast_to_browsers message st
  = if decide (browser_clients st = ∅) then (Ok tt, st)
    else (Ok tt,
          with_browser_clients
            (browser_clients st ∖ failed_of st (elements (browser_clients st)))
            (emit_all (map (send_event st message) (elements (browser_clients st))) st)).
Proof.
  unfold broadcast_to_browsers, bind, gets.
  destruct (decide (browser_clients st = ∅)) as [He|Hne]; [reflexivity|].
  rewrite broadcast_loop_run. unfold modify. f_equal.
  unfold with_browser_clients, emit_all; simpl. f_equal. f_equal. set_solver.
Qed.

Lemma broadcast_loop_app (message : string) (done rest : list client)
    (stale : gset client) (st : State) :
  broadcast_loop message (done ++ rest) stale st
  = (stale' <- broadcast_loop message done stale ;; broadcast_loop message rest stale') st.
Proof.
  revert stale st. induction done as [|ws done IH]; intros stale st; [reflexivity|].
  cbn [app broadcast_loop]. unfold bind at 1 3 4.
  destruct (try_except _ _ _ st) as [[stale1|e] st1]; [|reflexivity].
  apply IH.
Qed.

Lemma received_by_app (ws : client) (tr1 tr2 : list io_event) :
  received_by ws (tr1 ++ tr2) = received_by ws tr1 ++ received_by ws tr2.
Proof. apply omap_app. Qed.

Lemma received_by_pass_other (st : State) (message : string) (ws : client)
    (order : list client) :
  ws ∉ order -> received_by ws (map (send_event st message) order) = [].
Proof.
  induction order as [|c order IH]; intros Hnot; [reflexivity|].
  apply not_elem_of_cons in Hnot as [Hne Hnot].
  simpl. unfold send_event at 1.
  destruct (send_fault st c); simpl.
  - now apply IH.
  - case_decide; [congruence|]. now apply IH.
Qed.

Lemma received_by_pass (st : State) (message : string) (ws : client)
    (order : list client) :
  NoDup order -> ws ∈ order -> send_fault st ws = None ->
  received_by ws (map (send_event st message) order) = [message].
Proof.
  intros Hnd Hin Hok. induction Hnd as [|c order Hc Hnd IH]; [inversion Hin|].
  simpl. unfold send_event at 1.
  destruct (decide (c = ws)) as [->|Hne].
  - rewrite Hok. simpl. f_equal.
    exact (received_by_pass_other st message ws order Hc).
  - apply elem_of_cons in Hin as [->|Hin]; [contradiction|].
    destruct (send_fault st c); simpl; exact (IH Hin).
Qed.

(** *** The pass among the other tasks *)

Lemma send_attempt (message : string) (ws : client) (stale : gset client) (st : State) :
  try_except (send_str ws message ;; ret stale)
    is_connection_or_runtime
    (fun _ => ret ({[ws]} ∪ stale)) st
  = (Ok (match send_fault st ws with
         | Some _ => {[ws]} ∪ stale
         | None => stale
         end),
     emit (send_event st message ws) st).
Proof.
  unfold try_except, bind, send_str, send_event, ret.
  destruct (send_fault st ws) as [[]|]; reflexivity.
Qed.

Lemma foreign_trace (steps : list foreign_step) :
  forall st, trace (foldl foreign_apply st steps) = trace st.
Proof.
  induction steps as [|s steps IH]; intros st; [reflexivity|].
  cbn [foldl]. rewrite IH. now destruct s.
Qed.

Lemma foreign_browser_clients (steps : list foreign_step) :
  forall st,
    browser_clients (foldl foreign_apply st steps)
    = foldl foreign_clients (browser_clients st) steps.
Proof.
  induction steps as [|s steps IH]; intros st; [reflexivity|].
  cbn [foldl]. rewrite IH. now destruct s.
Qed.


Lemma broadcast_loop_among_resized (message : string) (used : nat) (todo : list client)
    (stale : gset client) (others : list (list foreign_step)) (st : State) :
  size (browser_clients st) <> used ->
  broadcast_loop_among message used todo stale others st = Done (Raise RuntimeError) st.
Proof.
  intros Hne. destruct todo; cbn [broadcast_loop_among];
    now rewrite bool_decide_eq_false_2.
Qed.

(** The part of a pass during which no other task takes a step is the loop
    of [broadcast_loop]. *)
Lemma broadcast_loop_among_alone (message : string) (used : nat) (before : list client) :
  forall (rest : list client) (stale : gset client) (others : list (list foreign_step))
         (st : State),
    size (browser_clients st) = used ->
    Forall (fun steps => steps = []) (take (length before) others) ->
    broadcast_loop_among message used (before ++ rest) stale others st
    = broadcast_loop_among message used rest (failed_of st before ∪ stale)
        (drop (length before) others)
        (emit_all (map (send_event st message) before) st).
Proof.
  induction before as [|ws before IH]; intros rest stale others st Hsize Hquiet.
  - cbn [app length drop map failed_of]. rewrite emit_all_nil.
    now rewrite (left_id_L ∅ (∪)).
  - cbn [app length broadcast_loop_among].
    rewrite bool_decide_eq_true_2 by exact Hsize. rewrite send_attempt.
    assert (Hhd : hd [] others = []
                  /\ Forall (fun steps => steps = []) (take (length before) (tl others))
                  /\ drop (S (length before)) others = drop (length before) (tl others)).
    { destruct others as [|steps others]; cbn.
      - split; [reflexivity|]. split; [now rewrite take_nil|now rewrite drop_nil].
      - cbn in Hquiet. apply Forall_cons in Hquiet as [-> Hquiet]. now repeat split. }
    destruct Hhd as (-> & Hquiet' & ->).
    cbn [foldl rearranged andb].
    rewrite IH by assumption.
    rewrite failed_of_emit, emit_emit_all. cbn [map failed_of].
    f_equal. destruct (send_fault st ws); set_solver.
Qed.






(** C9, where the code departs from it.  The claim has every registered
    client tried and the clients whose send failed removed after the pass.
    But the pass is suspended at an [await ws.send_str] while it iterates
    over the very set that the other tasks write.  When an observer joins or
    leaves meanwhile, so that the set has another size when the loop goes on,
    the [for] statement raises [RuntimeError] outside the [try] of the loop
    body: the pass ends with this exception, the clients the iterator had not
    reached are not sent the message, and the set is left as the other tasks
    made it, with no client removed that the pass had found stale. *)
Theorem broadcast_aborts_on_resize (message : string) (st : State)
    (before after : list client) (ws : client) (steps : list foreign_step)
    (others : list (list foreign_step)) :
  elements (browser_clients st) = before ++ ws :: after ->
  Forall (fun steps => steps = []) (take (length before) others) ->
  others !! length before = Some steps ->
  size (foldl foreign_clients (browser_clients st) steps) <> size (browser_clients st) ->
  exists st',
    broadcast_to_browsers_among message others st = Done (Raise RuntimeError) st'
    /\ trace st' = trace st ++ map (send_event st message) (before ++ [ws])
    /\ browser_clients st' = foldl foreign_clients (browser_clients st) steps
    /\ (forall c, c ∈ after -> received_by c (trace st') = received_by c (trace st)).
Proof.
  intros Horder Hquiet Hsteps Hsize.
  assert (Hne : browser_clients st <> ∅).
  { intros He. rewrite He, elements_empty in Horder. now destruct before. }
  unfold broadcast_to_browsers_among. cbv zeta. rewrite decide_False by exact Hne.
  rewrite Horder.
  rewrite (broadcast_loop_among_alone message _ before) by (reflexivity || exact Hquiet).
  rewrite (drop_S _ _ _ Hsteps).
  set (st1 := emit_all (map (send_event st message) before) st).
  cbn [broadcast_loop_among].
  rewrite bool_decide_eq_true_2 by reflexivity. rewrite send_attempt.
  cbv zeta. cbn [hd tl].
  set (st2 := foldl foreign_apply (emit (send_event st1 message ws) st1) steps).
  assert (Hset : browser_clients st2 = foldl foreign_clients (browser_clients st) steps).
  { subst st2. now rewrite foreign_browser_clients. }
  rewrite (bool_decide_eq_false_2 (size (browser_clients st2) = _))
    by (rewrite Hset; exact Hsize).
  rewrite andb_false_r.
  rewrite broadcast_loop_among_resized by (rewrite Hset; exact Hsize).
  exists st2. split; [reflexivity|].
  assert (Htr : trace st2 = trace st ++ map (send_event st message) (before ++ [ws])).
  { subst st2. rewrite foreign_trace. subst st1. cbn [trace emit emit_all].
    now rewrite map_app, app_assoc. }
  split; [exact Htr|]. split; [exact Hset|].
  intros c Hin. rewrite Htr, received_by_app.
  rewrite received_by_pass_other; [apply app_nil_r|].
  pose proof (NoDup_elements (browser_clients st)) as Hnd. rewrite Horder in Hnd.
  apply NoDup_app in Hnd as (_ & Hdisj & Hnd).
  apply NoDup_cons in Hnd as [Hws _].
  rewrite elem_of_app, list_elem_of_singleton. intros [Hb | ->].
  - apply (Hdisj c Hb). now right.
  - contradiction.
Qed.

Lemma broadcast_aborts_on_resize_witness :
  elements (browser_clients hub_three) = [2%nat; 3%nat; 1%nat]
  /\ (exists st',
        broadcast_to_browsers_among "ping" [[]; []; [Joins 4%nat]] hub_three
        = Done (Raise RuntimeError) st'
        /\ send_fault hub_three 2%nat = Some FailConnection
        /\ 2%nat ∈ browser_clients st')
  /\ (exists st',
        broadcast_to_browsers_among "ping" [[]; [Joins 4%nat]] hub_three
        = Done (Raise RuntimeError) st'
        /\ 1%nat ∈ browser_clients st'
        /\ received_by 1%nat (trace st') = []).
Proof.
  assert (Horder : elements (browser_clients hub_three) = [2%nat; 3%nat; 1%nat])
    by (vm_compute; reflexivity).
  split; [exact Horder|]. split.
  - destruct (broadcast_aborts_on_resize "ping" hub_three [2%nat; 3%nat] [] 1%nat
                [Joins 4%nat] [[]; []; [Joins 4%nat]]) as (st' & Hrun & _ & Hset & _).
    + exact Horder.
    + repeat constructor.
    + reflexivity.
    + vm_compute. discriminate.
    + exists st'. split; [exact Hrun|]. split; [reflexivity|].
      rewrite Hset. cbn. set_solver.
  - destruct (broadcast_aborts_on_resize "ping" hub_three [2%nat] [1%nat] 3%nat
                [Joins 4%nat] [[]; [Joins 4%nat]]) as (st' & Hrun & _ & Hset & Hrest).
    + exact Horder.
    + repeat constructor.
    + reflexivity.
    + vm_compute. discriminate.
    + exists st'. split; [exact Hrun|]. split.
      * rewrite Hset. cbn. set_solver.
      * rewrite Hrest by (now left). reflexivity.
Defined.

(** X10.  With no step of another task during its suspensions, the pass
    among the other tasks is [broadcast_to_browsers]: the checks of the
    iterator all pass, and the outcome and the state are the same. *)
Theorem broadcast_alone (message : string) (others : list (list foreign_step))
    (st : State) :
  Forall (fun steps => steps = []) (take (size (browser_clients st)) others) ->
  broadcast_to_browsers_among message others st
  = Done (broadcast_to_browsers message st).1 (broadcast_to_browsers message st).2.
Proof.
  intros Hquiet. rewrite broadcast_to_browsers_run.
  unfold broadcast_to_browsers_among. cbv zeta.
  destruct (decide (browser_clients st = ∅)) as [He|Hne]; [reflexivity|].
  pose proof (broadcast_loop_among_alone message (size (browser_clients st))
                (elements (browser_clients st)) [] ∅ others st eq_refl Hquiet) as Hrun.
  rewrite app_nil_r in Hrun. rewrite Hrun.
  cbn [broadcast_loop_among browser_clients emit_all].
  rewrite bool_decide_eq_true_2 by reflexivity.
  cbn [fst snd browser_clients emit_all]. do 2 f_equal. set_solver.
Qed.

Lemma broadcast_alone_witness :
  broadcast_to_browsers_among "ping" [] hub_three
  = Done (Ok tt) (broadcast_to_browsers "ping" hub_three).2.
Proof. apply (broadcast_alone "ping" [] hub_three). rewrite take_nil. constructor. Defined.



(** ** The command channel and the router *)

Lemma upstream_frames_app (tr1 tr2 : list io_event) :
  upstream_frames (tr1 ++ tr2) = upstream_frames tr1 ++ upstream_frames tr2.
Proof. apply omap_app. Qed.

Lemma send_control_open (payload : json) (st : State) :
  control_ws st = Some SocketOpen ->
  send_control payload st = (Ok tt, emit (EvControlSend (json_dumps payload) None) st).
Proof. intros H. unfold send_control, bind, gets. rewrite H. reflexivity. Qed.

Lemma send_control_none (payload : json) (st : State) :
  control_ws st = None ->
  send_control payload st = (Ok tt, logged (LogDropped payload) st).
Proof. intros H. unfold send_control, bind, gets. rewrite H. reflexivity. Qed.

Lemma send_control_closed (payload : json) (st : State) :
  control_ws st = Some SocketClosed ->
  send_control payload st
  = (Ok tt, logged LogSendFailed
              (emit (EvControlSend (json_dumps payload) (Some ConnectionClosed)) st)).
Proof. intros H. unfold send_control, bind, gets. rewrite H. reflexivity. Qed.

Lemma handle_browser_message_motor (json_loads : string -> result json) (data : string)
    (fields : list (string * json)) (st : State) :
  json_loads data = Ok (JObject fields) ->
  dict_get fields "type" = Some (JString "motor") ->
  handle_browser_message json_loads data st
  = send_control
      (arduino_command (motor_cmd (default (JInt 0) (dict_get fields "left"))
                          (default (JInt 0) (dict_get fields "right"))))
      (motor_counted (default (JInt 0) (dict_get fields "left"))
         (default (JInt 0) (dict_get fields "right")) st).
Proof.
  intros Hloads Htype. unfold handle_browser_message. rewrite Hloads.
  unfold bind, lift, gets, modify, ret, py_get. rewrite Htype.
  unfold motor_counted, arduino_command, motor_cmd.
  change (default JNull (Some (JString "motor"))) with (JString "motor").
  change (json_eq_str (JString "motor") "motor") with true. cbv beta iota zeta.
  destruct (_ mod 20 =? 1); [|reflexivity].
  destruct (percent_d _ && percent_d _); reflexivity.
Qed.

Lemma handle_browser_message_stop (json_loads : string -> result json) (data : string)
    (fields : list (string * json)) (st : State) :
  json_loads data = Ok (JObject fields) ->
  dict_get fields "type" = Some (JString "stop") ->
  handle_browser_message json_loads data st = send_control (arduino_command stop_cmd) st.
Proof.
  intros Hloads Htype. unfold handle_browser_message. rewrite Hloads.
  unfold bind, lift, py_get. rewrite Htype.
  change (default JNull (Some (JString "stop"))) with (JString "stop").
  change (json_eq_str (JString "stop") "motor") with false.
  change (json_eq_str (JString "stop") "stop") with true. reflexivity.
Qed.

Lemma motor_counted_frame (left right : json) (st : State) :
  trace (motor_counted left right st) = trace st
  /\ control_ws (motor_counted left right st) = control_ws st.
Proof.
  unfold motor_counted. destruct (_ mod 20 =? 1); [|split; reflexivity].
  destruct (percent_d _ && percent_d _); split; reflexivity.
Qed.

(** C2, as amended.  When an observer message parses to an object whose
    [type] is ["stop"] and [control_ws] holds an open connection, the handler
    returns normally and exactly one frame is written on the control link:
    the JSON text of the object with [target] ["arduino"] and with [cmd] the
    string that is the JSON text of [{"N": 6}]. *)
Theorem stop_sends_one_wrapped_command (json_loads : string -> result json)
    (data : string) (fields : list (string * json)) (st : State) :
  json_loads data = Ok (JObject fields) ->
  dict_get fields "type" = Some (JString "stop") ->
  control_ws st = Some SocketOpen ->
  exists st',
    handle_browser_message json_loads data st = (Ok tt, st')
    /\ trace st'
       = trace st
         ++ [EvControlSend
               (json_dumps
                  (JObject [("target", JString "arduino");
                            ("cmd", JString (json_dumps (JObject [("N", JInt 6)])))]))
               None]
    /\ upstream_frames (trace st')
       = upstream_frames (trace st)
         ++ [json_dumps
               (JObject [("target", JString "arduino");
                         ("cmd", JString (json_dumps (JObject [("N", JInt 6)])))])]
    /\ json_dumps (JObject [("N", JInt 6)]) = "{" +:+ dquote +:+ "N" +:+ dquote +:+ ": 6}".
Proof.
  intros Hloads Htype Hlink.
  rewrite (handle_browser_message_stop _ _ _ _ Hloads Htype).
  rewrite send_control_open by assumption.
  eexists. split; [reflexivity|]. split; [reflexivity|]. split; [|reflexivity].
  cbn [trace emit]. now rewrite upstream_frames_app.
Qed.

Lemma stop_sends_one_wrapped_command_witness :
  control_ws hub_three = Some SocketOpen
  /\ exists st',
       handle_browser_message loads_known (json_dumps stop_message) hub_three = (Ok tt, st')
       /\ upstream_frames (trace st') = [json_dumps (arduino_command stop_cmd)].
Proof.
  split; [reflexivity|].
  destruct (stop_sends_one_wrapped_command loads_known (json_dumps stop_message)
              [("type", JString "stop")] hub_three eq_refl eq_refl eq_refl)
    as (st' & Hrun & _ & Hup & _).
  exists st'. split; [exact Hrun|exact Hup].
Defined.

(** C2, as stated, fails: the one frame written on the control link is the
    wrapping object, not the text of [{"N": 6}]. *)
Lemma stop_frame_is_not_bare_command :
  ~ (forall (json_loads : string -> result json) (data : string)
            (fields : list (string * json)) (st : State),
        json_loads data = Ok (JObject fields) ->
        dict_get fields "type" = Some (JString "stop") ->
        control_ws st = Some SocketOpen ->
        exists st',
          handle_browser_message json_loads data st = (Ok tt, st')
          /\ upstream_frames (trace st')
             = upstream_frames (trace st) ++ [json_dumps (JObject [("N", JInt 6)])]).
Proof.
  intros H.
  destruct (H loads_known (json_dumps stop_message) [("type", JString "stop")] hub_three
              eq_refl eq_refl eq_refl) as (st' & Hrun & Hup).
  vm_compute in Hrun. injection Hrun as <-.
  vm_compute in Hup. discriminate Hup.
Qed.

(** C10.  An observer message that parses to an object whose [type] is
    ["motor"] is handled as a motor command whether or not it has [left] and
    [right]: the command built is [{"N": 7, "D1": left, "D2": right}] with 0
    standing for each field that is absent, so [{"N": 7, "D1": 0, "D2": 0}]
    when both are; it goes to [send_control] wrapped for the arduino target
    and, with an open control link, is the one frame written on it. *)
Theorem motor_missing_fields_default_to_zero (json_loads : string -> result json)
    (data : string) (fields : list (string * json)) (st : State) :
  json_loads data = Ok (JObject fields) ->
  dict_get fields "type" = Some (JString "motor") ->
  exists left right : json,
    (left = match dict_get fields "left" with Some v => v | None => JInt 0 end)
    /\ (right = match dict_get fields "right" with Some v => v | None => JInt 0 end)
    /\ (exists st1,
          handle_browser_message json_loads data st
          = send_control
              (JObject [("target", JString "arduino");
                        ("cmd", JString (json_dumps (JObject [("N", JInt 7);
                                                              ("D1", left);
                                                              ("D2", right)])))]) st1
          /\ trace st1 = trace st /\ control_ws st1 = control_ws st)
    /\ (control_ws st = Some SocketOpen ->
        exists st',
          handle_browser_message json_loads data st = (Ok tt, st')
          /\ upstream_frames (trace st')
             = upstream_frames (trace st)
               ++ [json_dumps
                     (JObject [("target", JString "arduino");
                               ("cmd", JString (json_dumps (JObject [("N", JInt 7);
                                                                     ("D1", left);
                                                                     ("D2", right)])))])])
    /\ (dict_get fields "left" = None -> dict_get fields "right" = None ->
        json_dumps (JObject [("N", JInt 7); ("D1", left); ("D2", right)])
        = json_dumps (JObject [("N", JInt 7); ("D1", JInt 0); ("D2", JInt 0)])).
Proof.
  intros Hloads Htype.
  exists (default (JInt 0) (dict_get fields "left")),
         (default (JInt 0) (dict_get fields "right")).
  split; [now destruct (dict_get fields "left")|].
  split; [now destruct (dict_get fields "right")|].
  rewrite (handle_browser_message_motor _ _ _ _ Hloads Htype).
  destruct (motor_counted_frame (default (JInt 0) (dict_get fields "left"))
              (default (JInt 0) (dict_get fields "right")) st) as [Htr Hws].
  split; [|split].
  - eexists. split; [reflexivity|]. split; assumption.
  - intros Hopen. rewrite send_control_open by now rewrite Hws.
    eexists. split; [reflexivity|].
    cbn [trace emit]. now rewrite upstream_frames_app, Htr.
  - intros -> ->. reflexivity.
Qed.

Lemma motor_missing_fields_default_to_zero_witness :
  exists st',
    handle_browser_message loads_known (json_dumps bare_motor_message) hub_three
    = (Ok tt, st')
    /\ upstream_frames (trace st')
       = [json_dumps (arduino_command (motor_cmd (JInt 0) (JInt 0)))].
Proof.
  destruct (motor_missing_fields_default_to_zero loads_known
              (json_dumps bare_motor_message)
              [("type", JString "motor")] hub_three eq_refl eq_refl)
    as (left & right & Hl & Hr & _ & Hopen & _).
  destruct (Hopen eq_refl) as (st' & Hrun & Hup).
  exists st'. split; [exact Hrun|]. rewrite Hup, Hl, Hr. reflexivity.
Defined.

(** ** The thermal branch of the binary handler *)

Lemma handle_phone_binary_flir (data : bytes) (st : State) :
  handle_phone_binary "flir" data st
  = match flir_decode data with
    | Ok (Some f) => broadcast_to_browsers (json_dumps (flir_json f)) st
    | Ok None => (Ok tt, st)
    | Raise e => (Raise e, st)
    end.
Proof.
  unfold handle_phone_binary.
  change (String.eqb "flir" "camera") with false.
  change (String.eqb "flir" "flir") with true. cbv iota.
  unfold bind, lift. destruct (flir_decode data) as [[f|]|e]; reflexivity.
Qed.

Lemma u16_at_app (data tail : bytes) (off : nat) :
  (off + 2 <= length data)%nat -> u16_at (data ++ tail) off = u16_at data off.
Proof. intros H. unfold u16_at. now rewrite !app_nth1 by lia. Qed.

Lemma u32_at_app (data tail : bytes) (off : nat) :
  (off + 4 <= length data)%nat -> u32_at (data ++ tail) off = u32_at data off.
Proof. intros H. unfold u32_at. now rewrite !app_nth1 by lia. Qed.

Lemma flir_frame_of_dangling (data : bytes) (b : byte) :
  (12 <= length data)%nat -> Nat.Even (length data - 12) ->
  flir_frame_of (data ++ [b]) = flir_frame_of data.
Proof.
  intros Hlen [h Hh]. unfold flir_frame_of.
  rewrite !u16_at_app, !u32_at_app by lia.
  rewrite drop_app_le by lia.
  f_equal.
  rewrite length_app, length_drop, Hh. cbn [length].
  replace ((2 * h + 1) / 2)%nat with h
    by (apply Nat.div_unique with 1%nat; lia).
  replace (2 * h / 2)%nat with h
    by (apply Nat.div_unique with 0%nat; lia).
  apply map_ext_in. intros k Hk. apply in_seq in Hk.
  f_equal. unfold sample_at. apply u16_at_app. rewrite length_drop. lia.
Qed.

(** C6.  A payload shorter than 12 bytes produces nothing: the decoder
    returns normally without a frame and the handler leaves the state as it
    was.  A payload of [n >= 12] bytes produces a frame, which the handler
    broadcasts, with [floor((n - 12) / 2)] pixels; so one byte after an even
    number of body bytes changes nothing of the frame. *)
Theorem flir_decode_length (data : bytes) :
  ((length data < 12)%nat ->
   flir_decode data = Ok None
   /\ forall st, handle_phone_binary "flir" data st = (Ok tt, st))
  /\ ((12 <= length data)%nat ->
      exists f,
        flir_decode data = Ok (Some f)
        /\ Z.of_nat (length (f_pixels f)) = (Z.of_nat (length data) - 12) / 2
        /\ (forall st,
              handle_phone_binary "flir" data st
              = broadcast_to_browsers (json_dumps (flir_json f)) st)
        /\ (Nat.Even (length data - 12) ->
            forall b, flir_decode (data ++ [b]) = Ok (Some f))).
Proof.
  split.
  - intros Hshort. pose proof (flir_decode_short data Hshort) as Hd.
    split; [exact Hd|]. intros st. now rewrite handle_phone_binary_flir, Hd.
  - intros Hlen. pose proof (flir_decode_ok data Hlen) as Hd.
    exists (flir_frame_of data). split; [exact Hd|]. split; [|split].
    + rewrite flir_frame_of_pixels_length, Nat2Z.inj_div, Nat2Z.inj_sub by lia.
      reflexivity.
    + intros st. now rewrite handle_phone_binary_flir, Hd.
    + intros Heven b. rewrite flir_decode_ok by (rewrite length_app; lia).
      now rewrite flir_frame_of_dangling.
Qed.

Lemma flir_decode_length_witness :
  ((length (take 11 frame_flat) < 12)%nat
   /\ flir_decode (take 11 frame_flat) = Ok None)
  /\ ((12 <= length frame_flat)%nat
      /\ Nat.Even (length frame_flat - 12)
      /\ exists f,
           flir_decode frame_flat = Ok (Some f)
           /\ Z.of_nat (length (f_pixels f)) = 2
           /\ flir_decode (frame_flat ++ [xff]) = Ok (Some f)).
Proof.
  split.
  - split; [vm_compute; lia|].
    apply (proj1 (flir_decode_length (take 11 frame_flat))). vm_compute; lia.
  - split; [vm_compute; lia|].
    assert (Heven : Nat.Even (length frame_flat - 12)) by (exists 2%nat; reflexivity).
    split; [exact Heven|].
    destruct (proj2 (flir_decode_length frame_flat)) as (f & Hd & Hn & _ & Hdang);
      [vm_compute; lia|].
    exists f. split; [exact Hd|]. split; [rewrite Hn; reflexivity|].
    apply Hdang. exact Heven.
Defined.

(** ** Reconnection and backoff *)

Lemma bind_ok {A B} (m : M A) (k : A -> M B) (st : State) (a : A) :
  (m st).1 = Ok a -> bind m k st = k a (m st).2.
Proof.
  unfold bind. destruct (m st) as [[a'|e] st']; simpl; intros H.
  - now injection H as ->.
  - discriminate H.
Qed.

Lemma broadcast_status_ok (st : State) : (broadcast_status st).1 = Ok tt.
Proof.
  unfold broadcast_status, bind, gets. rewrite broadcast_to_browsers_run.
  destruct (decide _); reflexivity.
Qed.

Lemma broadcast_status_control_ws (st : State) :
  control_ws (broadcast_status st).2 = control_ws st.
Proof.
  unfold broadcast_status, bind, gets. rewrite broadcast_to_browsers_run.
  destruct (decide _); reflexivity.
Qed.

Lemma log_link_failure_ok (endpoint : string) (e : exn) (st : State) :
  (log_link_failure endpoint e st).1 = Ok tt.
Proof. unfold log_link_failure. destruct (is_closed_or_oserror e); reflexivity. Qed.

(** A [try] whose clauses catch everything and return normally returns
    normally. *)
Lemma try_except_all_ok (body : M unit) (handler : exn -> M unit) (st : State) :
  (forall e s, (handler e s).1 = Ok tt) ->
  (try_except body (fun _ => true) handler st).1 = Ok tt.
Proof.
  intros Hh. unfold try_except. destruct (body st) as [[[]|e] st1]; [reflexivity|apply Hh].
Qed.

Lemma connect_phone_endpoint_try_ok (json_loads : string -> result json)
    (endpoint : string) (a : attempt) (backoff : Q) (st : State) :
  (connect_phone_endpoint_try json_loads endpoint a backoff st).1
  = Ok (turn_delay a backoff).
Proof.
  destruct a as [e|inbound closing].
  - unfold connect_phone_endpoint_try, try_except, bind, modify, raise, log_link_failure, ret.
    cbn. destruct (is_closed_or_oserror e); reflexivity.
  - unfold connect_phone_endpoint_try.
    match goal with
    | |- context [try_except ?body ?classes (log_link_failure endpoint)] =>
        pose proof (fun s => try_except_all_ok body (log_link_failure endpoint) s
                               (log_link_failure_ok endpoint)) as HT;
        set (T := try_except body classes (log_link_failure endpoint)) in *
    end.
    unfold try_except, bind, modify, set_connected, modify, ret.
    match goal with
    | |- context [T ?s] => specialize (HT s); destruct (T s) as [[[]|e] s1]
    end; [reflexivity|discriminate HT].
Qed.

Lemma connect_phone_control_try_ok (a : attempt) (backoff : Q) (st : State) :
  (connect_phone_control_try a backoff st).1 = Ok (turn_delay a backoff).
Proof.
  destruct a as [e|inbound closing].
  - unfold connect_phone_control_try, try_except, bind, modify, raise, log_link_failure, ret.
    cbn. destruct (is_closed_or_oserror e); reflexivity.
  - unfold connect_phone_control_try.
    match goal with
    | |- context [try_except ?body ?classes (log_link_failure "control")] =>
        pose proof (fun s => try_except_all_ok body (log_link_failure "control") s
                               (log_link_failure_ok "control")) as HT;
        set (T := try_except body classes (log_link_failure "control")) in *
    end.
    unfold try_except, bind, modify, set_connected, modify, ret.
    match goal with
    | |- context [T ?s] => specialize (HT s); destruct (T s) as [[[]|e] s1]
    end; [reflexivity|discriminate HT].
Qed.

(** A turn returns normally with the next backoff; its last effect is the
    sleep. *)
Lemma connect_phone_endpoint_turn_eq (json_loads : string -> result json)
    (endpoint : string) (a : attempt) (backoff : Q) (st : State) :
  connect_phone_endpoint_turn json_loads endpoint a backoff st
  = (Ok (Qmin (turn_delay a backoff * 1.5) 30),
     emit (EvSleep endpoint (turn_delay a backoff))
       (broadcast_status
          (set_connected endpoint false
             (connect_phone_endpoint_try json_loads endpoint a backoff st).2).2).2).
Proof.
  unfold connect_phone_endpoint_turn.
  rewrite (bind_ok _ _ _ _ (connect_phone_endpoint_try_ok json_loads endpoint a backoff st)).
  rewrite (bind_ok (set_connected endpoint false) _ _ tt eq_refl).
  rewrite (bind_ok broadcast_status _ _ tt (broadcast_status_ok _)).
  reflexivity.
Qed.

Lemma connect_phone_control_turn_eq (a : attempt) (backoff : Q) (st : State) :
  connect_phone_control_turn a backoff st
  = (Ok (Qmin (turn_delay a backoff * 1.5) 30),
     emit (EvSleep "control" (turn_delay a backoff))
       (broadcast_status
          (set_connected "control" false
             (with_control_ws None (connect_phone_control_try a backoff st).2)).2).2).
Proof.
  unfold connect_phone_control_turn.
  rewrite (bind_ok _ _ _ _ (connect_phone_control_try_ok a backoff st)).
  rewrite (bind_ok (modify (with_control_ws None)) _ _ tt eq_refl).
  rewrite (bind_ok (set_connected "control" false) _ _ tt eq_refl).
  rewrite (bind_ok broadcast_status _ _ tt (broadcast_status_ok _)).
  reflexivity.
Qed.

(** *** Views of the trace that the broadcasts do not show in *)

Section TraceView.

Context {B : Type}.
Variable view : list io_event -> list B.
Hypothesis view_app : forall tr1 tr2, view (tr1 ++ tr2) = view tr1 ++ view tr2.
Hypothesis view_send_str : forall ws message err, view [EvSendStr ws message err] = [].

Lemma view_nil : view [] = [].
Proof.
  pose proof (view_app [] []) as H. simpl in H.
  destruct (view []) as [|x l]; [reflexivity|].
  apply (f_equal length) in H. rewrite length_app in H. simpl in H. lia.
Qed.

Lemma view_send_events (st : State) (message : string) (order : list client) :
  view (map (send_event st message) order) = [].
Proof.
  induction order as [|ws order IH]; [apply view_nil|].
  cbn [map]. change (?x :: ?l) with ([x] ++ l).
  rewrite view_app, IH. unfold send_event. now rewrite view_send_str.
Qed.

Lemma keeps_ret {A} (a : A) : keeps view (ret a).
Proof. intros st. reflexivity. Qed.

Lemma keeps_raise {A} (e : exn) : keeps view (@raise A e).
Proof. intros st. reflexivity. Qed.

Lemma keeps_lift {A} (r : result A) : keeps view (lift r).
Proof. intros st. reflexivity. Qed.

Lemma keeps_gets {A} (f : State -> A) : keeps view (gets f).
Proof. intros st. reflexivity. Qed.

Lemma keeps_modify (f : State -> State) :
  (forall st, trace (f st) = trace st) -> keeps view (modify f).
Proof. intros Hf st. unfold modify; simpl. now rewrite Hf. Qed.

Lemma keeps_bind {A C} (m : M A) (k : A -> M C) :
  keeps view m -> (forall a, keeps view (k a)) -> keeps view (bind m k).
Proof.
  intros Hm Hk st. unfold bind.
  specialize (Hm st). destruct (m st) as [[a|e] st1]; simpl in *.
  - now rewrite Hk.
  - exact Hm.
Qed.

Lemma keeps_try_except {A} (body : M A) (classes : exn -> bool)
    (handler : exn -> M A) :
  keeps view body -> (forall e, keeps view (handler e)) ->
  keeps view (try_except body classes handler).
Proof.
  intros Hb Hh st. unfold try_except.
  specialize (Hb st). destruct (body st) as [[a|e] st1]; simpl in *.
  - exact Hb.
  - destruct (classes e); [now rewrite Hh|exact Hb].
Qed.

Lemma keeps_broadcast (message : string) :
  keeps view (broadcast_to_browsers message).
Proof.
  intros st. rewrite broadcast_to_browsers_run.
  destruct (decide (browser_clients st = ∅)); [reflexivity|].
  cbn [snd trace with_browser_clients emit_all].
  now rewrite view_app, view_send_events, app_nil_r.
Qed.

Ltac quiet :=
  repeat first
    [ apply keeps_broadcast
    | assumption
    | match goal with
      | H : forall _, keeps _ _ |- keeps _ _ => apply H
      end
    | apply keeps_ret
    | apply keeps_raise
    | apply keeps_lift
    | apply keeps_gets
    | apply keeps_modify; intros ?; reflexivity
    | match goal with
      | |- keeps _ (bind _ _) => apply keeps_bind; [|intros ?]
      | |- keeps _ (try_except _ _ _) => apply keeps_try_except; [|intros ?]
      end
    | match goal with
      | |- keeps _ (match ?x with _ => _ end) => destruct x
      | |- keeps _ (if ?x then _ else _) => destruct x
      end ].

Lemma keeps_broadcast_status : keeps view broadcast_status.
Proof. unfold broadcast_status. quiet. Qed.

Lemma keeps_handle_phone_binary (endpoint : string) (data : bytes) :
  keeps view (handle_phone_binary endpoint data).
Proof. unfold handle_phone_binary. quiet. Qed.

Lemma keeps_handle_phone_text (json_loads : string -> result json)
    (endpoint data : string) :
  keeps view (handle_phone_text json_loads endpoint data).
Proof. unfold handle_phone_text. quiet. Qed.

Lemma keeps_receive_loop (json_loads : string -> result json)
    (endpoint : string) (inbound : list ws_message) :
  keeps view (receive_loop json_loads endpoint inbound).
Proof.
  induction inbound as [|[data|data] inbound IH]; simpl.
  - apply keeps_ret.
  - apply keeps_bind; [apply keeps_handle_phone_text|intros _; exact IH].
  - apply keeps_bind; [apply keeps_handle_phone_binary|intros _; exact IH].
Qed.

Lemma keeps_control_receive_loop (inbound : list ws_message) :
  keeps view (control_receive_loop inbound).
Proof. induction inbound as [|m inbound IH]; [apply keeps_ret|exact IH]. Qed.

Lemma keeps_log_link_failure (endpoint : string) (e : exn) :
  keeps view (log_link_failure endpoint e).
Proof. unfold log_link_failure. quiet. Qed.

Lemma keeps_connect_phone_endpoint_try (json_loads : string -> result json)
    (endpoint : string) (a : attempt) (backoff : Q) :
  keeps view (connect_phone_endpoint_try json_loads endpoint a backoff).
Proof.
  pose proof keeps_broadcast_status.
  pose proof (keeps_receive_loop json_loads endpoint).
  pose proof (keeps_log_link_failure endpoint).
  unfold connect_phone_endpoint_try, set_connected. quiet.
Qed.

Lemma keeps_connect_phone_control_try (a : attempt) (backoff : Q) :
  keeps view (connect_phone_control_try a backoff).
Proof.
  pose proof keeps_broadcast_status.
  pose proof keeps_control_receive_loop.
  pose proof (keeps_log_link_failure "control").
  unfold connect_phone_control_try, set_connected. quiet.
Qed.

(** Of a turn, a view shows the sleep at most. *)
Lemma connect_phone_endpoint_turn_view (json_loads : string -> result json)
    (endpoint : string) (a : attempt) (backoff : Q) (st : State) :
  view (trace (connect_phone_endpoint_turn json_loads endpoint a backoff st).2)
  = view (trace st) ++ view [EvSleep endpoint (turn_delay a backoff)].
Proof.
  rewrite connect_phone_endpoint_turn_eq. cbn [snd trace emit].
  rewrite view_app, keeps_broadcast_status. f_equal.
  apply keeps_connect_phone_endpoint_try.
Qed.

Lemma connect_phone_control_turn_view (a : attempt) (backoff : Q) (st : State) :
  view (trace (connect_phone_control_turn a backoff st).2)
  = view (trace st) ++ view [EvSleep "control" (turn_delay a backoff)].
Proof.
  rewrite connect_phone_control_turn_eq. cbn [snd trace emit].
  rewrite view_app, keeps_broadcast_status. f_equal.
  apply keeps_connect_phone_control_try.
Qed.

Lemma connect_phone_endpoint_loop_view (json_loads : string -> result json)
    (endpoint : string) (script : list attempt) :
  forall (backoff : Q) (st : State),
    (connect_phone_endpoint_loop json_loads endpoint script backoff st).1
    = Ok (final_backoff script backoff)
    /\ view (trace (connect_phone_endpoint_loop json_loads endpoint script backoff st).2)
       = view (trace st) ++ view (map (EvSleep endpoint) (delays script backoff)).
Proof.
  induction script as [|a script IH]; intros backoff st.
  - split; [reflexivity|]. cbn. now rewrite view_nil, app_nil_r.
  - cbn [connect_phone_endpoint_loop final_backoff delays map].
    pose proof (connect_phone_endpoint_turn_view json_loads endpoint a backoff st) as Hv.
    pose proof (connect_phone_endpoint_turn_eq json_loads endpoint a backoff st) as He.
    rewrite (bind_ok _ _ _ (Qmin (turn_delay a backoff * 1.5) 30))
      by (rewrite He; reflexivity).
    destruct (IH (Qmin (turn_delay a backoff * 1.5) 30)
                (connect_phone_endpoint_turn json_loads endpoint a backoff st).2)
      as [Hr Hs].
    split; [exact Hr|]. rewrite Hs, Hv, <- app_assoc, <- view_app. reflexivity.
Qed.

Lemma connect_phone_control_loop_view (script : list attempt) :
  forall (backoff : Q) (st : State),
    (connect_phone_control_loop script backoff st).1 = Ok (final_backoff script backoff)
    /\ view (trace (connect_phone_control_loop script backoff st).2)
       = view (trace st) ++ view (map (EvSleep "control") (delays script backoff)).
Proof.
  induction script as [|a script IH]; intros backoff st.
  - split; [reflexivity|]. cbn. now rewrite view_nil, app_nil_r.
  - cbn [connect_phone_control_loop final_backoff delays map].
    pose proof (connect_phone_control_turn_view a backoff st) as Hv.
    pose proof (connect_phone_control_turn_eq a backoff st) as He.
    rewrite (bind_ok _ _ _ (Qmin (turn_delay a backoff * 1.5) 30))
      by (rewrite He; reflexivity).
    destruct (IH (Qmin (turn_delay a backoff * 1.5) 30)
                (connect_phone_control_turn a backoff st).2) as [Hr Hs].
    split; [exact Hr|]. rewrite Hs, Hv, <- app_assoc, <- view_app. reflexivity.
Qed.

End TraceView.

(** *** The sleeps of a task and the frames of the control link *)

Lemma sleeps_of_app (task : string) (tr1 tr2 : list io_event) :
  sleeps_of task (tr1 ++ tr2) = sleeps_of task tr1 ++ sleeps_of task tr2.
Proof. apply omap_app. Qed.

Lemma sleeps_of_send_str (task : string) (ws : client) (message : string)
    (err : option exn) :
  sleeps_of task [EvSendStr ws message err] = [].
Proof. reflexivity. Qed.

Lemma upstream_frames_send_str (ws : client) (message : string) (err : option exn) :
  upstream_frames [EvSendStr ws message err] = [].
Proof. reflexivity. Qed.

Lemma sleeps_of_sleeps (task endpoint : string) (ds : list Q) :
  sleeps_of task (map (EvSleep endpoint) ds)
  = if String.eqb endpoint task then ds else [].
Proof.
  induction ds as [|d ds IH]; [now destruct (String.eqb endpoint task)|].
  cbn [map]. change (?x :: ?l) with ([x] ++ l) at 1.
  rewrite sleeps_of_app, IH. unfold sleeps_of at 1. cbn [omap list_omap].
  destruct (String.eqb endpoint task); reflexivity.
Qed.

Lemma upstream_frames_sleeps (endpoint : string) (ds : list Q) :
  upstream_frames (map (EvSleep endpoint) ds) = [].
Proof. induction ds as [|d ds IH]; [reflexivity|exact IH]. Qed.

Lemma connect_phone_endpoint_turn_run (json_loads : string -> result json)
    (endpoint : string) (a : attempt) (backoff : Q) (st : State) :
  exists st',
    connect_phone_endpoint_turn json_loads endpoint a backoff st
    = (Ok (Qmin (turn_delay a backoff * 1.5) 30), st')
    /\ forall task,
         sleeps_of task (trace st')
         = sleeps_of task (trace st)
           ++ (if String.eqb endpoint task then [turn_delay a backoff] else []).
Proof.
  eexists. split; [apply connect_phone_endpoint_turn_eq|]. intros task.
  pose proof (connect_phone_endpoint_turn_view (sleeps_of task) (sleeps_of_app task)
                (sleeps_of_send_str task) json_loads endpoint a backoff st) as Hv.
  rewrite connect_phone_endpoint_turn_eq in Hv. cbn [snd] in Hv.
  rewrite Hv. f_equal. apply (sleeps_of_sleeps task endpoint [turn_delay a backoff]).
Qed.

Lemma connect_phone_endpoint_loop_run (json_loads : string -> result json)
    (endpoint : string) (script : list attempt) (backoff : Q) (st : State) :
  exists st',
    connect_phone_endpoint_loop json_loads endpoint script backoff st
    = (Ok (final_backoff script backoff), st')
    /\ forall task,
         sleeps_of task (trace st')
         = sleeps_of task (trace st)
           ++ (if String.eqb endpoint task then delays script backoff else []).
Proof.
  exists (connect_phone_endpoint_loop json_loads endpoint script backoff st).2.
  split.
  - destruct (connect_phone_endpoint_loop_view upstream_frames upstream_frames_app
                upstream_frames_send_str json_loads endpoint script backoff st) as [Hr _].
    destruct (connect_phone_endpoint_loop _ _ _ _ _) as [r st']. simpl in *. now rewrite Hr.
  - intros task.
    destruct (connect_phone_endpoint_loop_view (sleeps_of task) (sleeps_of_app task)
                (sleeps_of_send_str task) json_loads endpoint script backoff st) as [_ Hs].
    now rewrite Hs, sleeps_of_sleeps.
Qed.

Lemma connect_phone_control_loop_run (script : list attempt) (backoff : Q) (st : State) :
  exists st',
    connect_phone_control_loop script backoff st = (Ok (final_backoff script backoff), st')
    /\ sleeps_of "control" (trace st')
       = sleeps_of "control" (trace st) ++ delays script backoff
    /\ upstream_frames (trace st') = upstream_frames (trace st).
Proof.
  exists (connect_phone_control_loop script backoff st).2.
  destruct (connect_phone_control_loop_view upstream_frames upstream_frames_app
              upstream_frames_send_str script backoff st) as [Hr Hu].
  destruct (connect_phone_control_loop_view (sleeps_of "control") (sleeps_of_app "control")
              (sleeps_of_send_str "control") script backoff st) as [_ Hs].
  split; [|split].
  - destruct (connect_phone_control_loop _ _ _) as [r st']. simpl in *. now rewrite Hr.
  - now rewrite Hs, sleeps_of_sleeps.
  - now rewrite Hu, upstream_frames_sleeps, app_nil_r.
Qed.

(** C8.  While [control_ws] holds no open connection, [send_control] returns
    normally for every payload, no frame reaches the control link, and the
    command is kept nowhere for a later send: apart from the log line and the
    record of the send that raised, the state is the one before the call; the
    control task brings no frame with it when it reconnects afterwards, and
    the next command sent on an open link is the only frame written.  A
    [motor] message handled in such a state likewise returns normally with
    no frame on the control link. *)
Theorem send_control_drops_without_link :
  (forall (payload : json) (st : State),
      control_ws st <> Some SocketOpen ->
      exists st',
        send_control payload st = (Ok tt, st')
        /\ upstream_frames (trace st') = upstream_frames (trace st)
        /\ (control_ws st = None -> st' = logged (LogDropped payload) st)
        /\ browser_clients st' = browser_clients st
        /\ phone_connected st' = phone_connected st
        /\ control_ws st' = control_ws st
        /\ _mc st' = _mc st
        /\ send_fault st' = send_fault st
        /\ (forall (script : list attempt) (backoff : Q),
              upstream_frames (trace (connect_phone_control_loop script backoff st').2)
              = upstream_frames (trace st))
        /\ (forall next : json,
              upstream_frames
                (trace (send_control next (with_control_ws (Some SocketOpen) st')).2)
              = upstream_frames (trace st) ++ [json_dumps next]))
  /\ (forall (json_loads : string -> result json) (data : string)
             (fields : list (string * json)) (st : State),
        json_loads data = Ok (JObject fields) ->
        dict_get fields "type" = Some (JString "motor") ->
        control_ws st <> Some SocketOpen ->
        exists st',
          handle_browser_message json_loads data st = (Ok tt, st')
          /\ upstream_frames (trace st') = upstream_frames (trace st)).
Proof.
  assert (Hdrop : forall (payload : json) (st : State),
             control_ws st <> Some SocketOpen ->
             exists st',
               send_control payload st = (Ok tt, st')
               /\ upstream_frames (trace st') = upstream_frames (trace st)
               /\ (control_ws st = None -> st' = logged (LogDropped payload) st)
               /\ browser_clients st' = browser_clients st
               /\ phone_connected st' = phone_connected st
               /\ control_ws st' = control_ws st
               /\ _mc st' = _mc st
               /\ send_fault st' = send_fault st).
  { intros payload st Hlink.
    destruct (control_ws st) as [[|]|] eqn:Hws; [congruence| |].
    - eexists. split; [now apply send_control_closed|].
      cbn [trace logged emit]. rewrite upstream_frames_app, app_nil_r.
      repeat split; try reflexivity; try assumption. discriminate.
    - eexists. split; [now apply send_control_none|].
      repeat split; try reflexivity; try assumption. }
  split.
  - intros payload st Hlink.
    destruct (Hdrop payload st Hlink) as (st' & Hrun & Hup & Hnone & Hc & Hp & Hw & Hm & Hf).
    exists st'. repeat (split; [assumption|]). split.
    + intros script backoff.
      destruct (connect_phone_control_loop_run script backoff st') as (st2 & -> & _ & Hu).
      cbn [snd]. now rewrite Hu.
    + intros next. rewrite send_control_open by reflexivity.
      cbn [snd trace emit with_control_ws]. now rewrite upstream_frames_app, Hup.
  - intros json_loads data fields st Hloads Htype Hlink.
    rewrite (handle_browser_message_motor _ _ _ _ Hloads Htype).
    destruct (motor_counted_frame (default (JInt 0) (dict_get fields "left"))
                (default (JInt 0) (dict_get fields "right")) st) as [Htr Hws].
    match goal with
    | |- context [send_control ?p ?s] =>
        destruct (Hdrop p s) as (st' & Hrun & Hup & _); [now rewrite Hws|]
    end.
    exists st'. split; [exact Hrun|]. now rewrite Hup, Htr.
Qed.

Lemma send_control_drops_without_link_witness :
  control_ws hub_unlinked <> Some SocketOpen
  /\ (exists st',
        send_control (arduino_command stop_cmd) hub_unlinked = (Ok tt, st')
        /\ upstream_frames (trace st') = [])
  /\ (exists st',
        handle_browser_message loads_known (json_dumps bare_motor_message) hub_unlinked
        = (Ok tt, st')
        /\ upstream_frames (trace st') = []).
Proof.
  assert (Hlink : control_ws hub_unlinked <> Some SocketOpen) by discriminate.
  split; [exact Hlink|]. split.
  - destruct (proj1 send_control_drops_without_link (arduino_command stop_cmd)
                hub_unlinked Hlink) as (st' & Hrun & Hup & _).
    exists st'. split; [exact Hrun|exact Hup].
  - destruct (proj2 send_control_drops_without_link loads_known
                (json_dumps bare_motor_message)
                [("type", JString "motor")] hub_unlinked eq_refl eq_refl Hlink)
      as (st' & Hrun & Hup).
    exists st'. split; [exact Hrun|exact Hup].
Defined.

Lemma attempts_of_cons (endpoint ep : string) (a : attempt)
    (schedule : list (string * attempt)) :
  attempts_of endpoint ((ep, a) :: schedule)
  = if String.eqb ep endpoint then a :: attempts_of endpoint schedule
    else attempts_of endpoint schedule.
Proof.
  unfold attempts_of. rewrite filter_cons. cbn [fst].
  destruct (decide (String.eqb ep endpoint = true)) as [H|H].
  - rewrite H. reflexivity.
  - apply not_true_is_false in H. rewrite H. reflexivity.
Qed.

Lemma run_tasks_run (json_loads : string -> result json)
    (schedule : list (string * attempt)) :
  forall (locals : string -> Q) (st : State),
    exists locals' st',
      run_tasks json_loads schedule locals st = (Ok locals', st')
      /\ forall endpoint,
           locals' endpoint = final_backoff (attempts_of endpoint schedule) (locals endpoint)
           /\ sleeps_of endpoint (trace st')
              = sleeps_of endpoint (trace st)
                ++ delays (attempts_of endpoint schedule) (locals endpoint).
Proof.
  induction schedule as [|[ep a] schedule IH]; intros locals st.
  - exists locals, st. split; [reflexivity|]. intros endpoint.
    split; [reflexivity|]. cbn. now rewrite app_nil_r.
  - cbn [run_tasks]. unfold bind.
    destruct (connect_phone_endpoint_turn_run json_loads ep a (locals ep) st)
      as (st1 & -> & Hs1).
    match goal with
    | |- context [run_tasks _ _ ?l st1] =>
        destruct (IH l st1) as (locals' & st2 & -> & Hall)
    end.
    exists locals', st2. split; [reflexivity|]. intros endpoint.
    destruct (Hall endpoint) as [Hl Hs]. rewrite Hl, Hs, Hs1, attempts_of_cons.
    rewrite (String.eqb_sym endpoint ep).
    destruct (String.eqb_spec ep endpoint) as [->|Hne].
    + cbn [final_backoff delays]. split; [reflexivity|]. now rewrite <- app_assoc.
    + split; [reflexivity|]. now rewrite app_nil_r.
Qed.

Lemma delays_fail_30 (errors : list exn) :
  delays (map ConnectFails errors) 30 = repeat 30%Q (length errors).
Proof.
  induction errors as [|e errors IH]; [reflexivity|].
  cbn [map delays turn_delay length repeat]. f_equal. exact IH.
Qed.

Lemma delays_fail_5 (errors : list exn) :
  delays (map ConnectFails errors) 5
  = take (length errors)
      ([5; 7.5; 11.25; 16.875; 25.3125]%Q ++ repeat 30%Q (length errors - 5)).
Proof.
  destruct errors as [|e1 [|e2 [|e3 [|e4 [|e5 rest]]]]]; try reflexivity.
  change (delays (map ConnectFails (e1 :: e2 :: e3 :: e4 :: e5 :: rest)) 5)
    with ([5; 7.5; 11.25; 16.875; 25.3125]%Q ++ delays (map ConnectFails rest) 30).
  rewrite delays_fail_30.
  cbn [length]. replace (S (S (S (S (S (length rest))))) - 5)%nat with (length rest) by lia.
  cbn [app take]. do 5 f_equal.
  rewrite firstn_all2; [reflexivity|]. now rewrite repeat_length.
Qed.

(** C3, as amended.  After consecutive connection failures an endpoint task
    sleeps 5, 7.5, 11.25, 16.875, 25.3125, 30, 30, ... seconds: each delay
    1.5 times the one before, starting from 5 and capped at 30; so does the
    task of the control link.  The delays of one endpoint are those it would
    sleep running alone on its own attempts, whatever turns the other
    endpoint tasks take in between.  An attempt that connects resets the
    backoff: the delay after the link is lost is 5 and the next backoff 7.5,
    whatever the backoff was. *)
Theorem backoff_sequence (json_loads : string -> result json) :
  (forall (endpoint : string) (initial_delay : Q) (errors : list exn) (st : State),
      exists st' b,
        connect_phone_endpoint json_loads endpoint initial_delay
          (map ConnectFails errors) st = (Ok b, st')
        /\ sleeps_of endpoint (trace st')
           = sleeps_of endpoint (trace st)
             ++ (if Qlt_le_dec 0 initial_delay then [initial_delay] else [])
             ++ take (length errors)
                  ([5; 7.5; 11.25; 16.875; 25.3125]%Q
                   ++ repeat 30%Q (length errors - 5)))
  /\ (forall (schedule : list (string * attempt)) (locals : string -> Q)
            (st : State) (endpoint : string) (st_alone : State),
        exists locals' st' b st_alone' slept,
          run_tasks json_loads schedule locals st = (Ok locals', st')
          /\ connect_phone_endpoint_loop json_loads endpoint
               (attempts_of endpoint schedule) (locals endpoint) st_alone
             = (Ok b, st_alone')
          /\ locals' endpoint = b
          /\ sleeps_of endpoint (trace st') = sleeps_of endpoint (trace st) ++ slept
          /\ sleeps_of endpoint (trace st_alone')
             = sleeps_of endpoint (trace st_alone) ++ slept)
  /\ (forall (endpoint : string) (inbound : list ws_message) (closing : option exn)
            (backoff : Q) (st : State),
        exists st',
          connect_phone_endpoint_turn json_loads endpoint (Connected inbound closing)
            backoff st = (Ok 7.5%Q, st')
          /\ sleeps_of endpoint (trace st') = sleeps_of endpoint (trace st) ++ [5%Q])
  /\ (forall (initial_delay : Q) (errors : list exn) (st : State),
        exists st' b,
          connect_phone_control initial_delay (map ConnectFails errors) st = (Ok b, st')
          /\ sleeps_of "control" (trace st')
             = sleeps_of "control" (trace st)
               ++ (if Qlt_le_dec 0 initial_delay then [initial_delay] else [])
               ++ take (length errors)
                    ([5; 7.5; 11.25; 16.875; 25.3125]%Q
                     ++ repeat 30%Q (length errors - 5))).
Proof.
  split; [|split; [|split]].
  - intros endpoint initial_delay errors st.
    unfold connect_phone_endpoint, bind.
    destruct (Qlt_le_dec 0 initial_delay) as [Hpos|Hle].
    + unfold sleep, modify.
      destruct (connect_phone_endpoint_loop_run json_loads endpoint
                  (map ConnectFails errors) 5 (emit (EvSleep endpoint initial_delay) st))
        as (st' & -> & Hs).
      exists st', (final_backoff (map ConnectFails errors) 5).
      split; [reflexivity|].
      rewrite Hs, String.eqb_refl, delays_fail_5. cbn [trace emit].
      rewrite sleeps_of_app, <- app_assoc. f_equal. f_equal.
      unfold sleeps_of. cbn [omap list_omap]. now rewrite String.eqb_refl.
    + unfold ret.
      destruct (connect_phone_endpoint_loop_run json_loads endpoint
                  (map ConnectFails errors) 5 st) as (st' & -> & Hs).
      exists st', (final_backoff (map ConnectFails errors) 5).
      split; [reflexivity|].
      now rewrite Hs, String.eqb_refl, delays_fail_5.
  - intros schedule locals st endpoint st_alone.
    destruct (run_tasks_run json_loads schedule locals st) as (locals' & st' & Hrun & Hall).
    destruct (Hall endpoint) as [Hl Hs].
    destruct (connect_phone_endpoint_loop_run json_loads endpoint
                (attempts_of endpoint schedule) (locals endpoint) st_alone)
      as (st_alone' & Halone & Hsa).
    exists locals', st', (final_backoff (attempts_of endpoint schedule) (locals endpoint)),
      st_alone', (delays (attempts_of endpoint schedule) (locals endpoint)).
    split; [exact Hrun|]. split; [exact Halone|]. split; [exact Hl|].
    split; [exact Hs|]. now rewrite Hsa, String.eqb_refl.
  - intros endpoint inbound closing backoff st.
    destruct (connect_phone_endpoint_turn_run json_loads endpoint
                (Connected inbound closing) backoff st) as (st' & Hrun & Hs).
    exists st'. split; [exact Hrun|].
    now rewrite Hs, String.eqb_refl.
  - intros initial_delay errors st.
    unfold connect_phone_control, bind.
    destruct (Qlt_le_dec 0 initial_delay) as [Hpos|Hle].
    + unfold sleep, modify.
      destruct (connect_phone_control_loop_run (map ConnectFails errors) 5
                  (emit (EvSleep "control" initial_delay) st)) as (st' & -> & Hs & _).
      exists st', (final_backoff (map ConnectFails errors) 5).
      split; [reflexivity|].
      rewrite Hs, delays_fail_5. cbn [trace emit].
      rewrite sleeps_of_app, <- app_assoc. reflexivity.
    + unfold ret.
      destruct (connect_phone_control_loop_run (map ConnectFails errors) 5 st)
        as (st' & -> & Hs & _).
      exists st', (final_backoff (map ConnectFails errors) 5).
      split; [reflexivity|].
      now rewrite Hs, delays_fail_5.
Qed.

(** C3, as stated, fails: after seven failures in a row the delays slept are
    not 5, 7.5, 11.25, 16.875, 25, 30, 30; the fifth is 25.3125. *)
Lemma backoff_fifth_delay_is_not_25 :
  ~ (forall (json_loads : string -> result json) (endpoint : string)
            (errors : list exn) (st : State),
        length errors = 7%nat ->
        exists st' b,
          connect_phone_endpoint json_loads endpoint 0 (map ConnectFails errors) st
          = (Ok b, st')
          /\ exists slept,
               sleeps_of endpoint (trace st') = sleeps_of endpoint (trace st) ++ slept
               /\ Forall2 Qeq slept spec_backoffs).
Proof.
  intros H.
  destruct (H loads_known "lidar" (repeat OSError 7) hub_idle eq_refl)
    as (st' & b & Hrun & slept & Hs & Hspec).
  vm_compute in Hrun. injection Hrun as _ <-.
  cbn [trace hub_idle initial_state] in Hs.
  vm_compute in Hs. subst slept.
  do 4 (apply Forall2_cons_1 in Hspec as [_ Hspec]).
  apply Forall2_cons_1 in Hspec as [Hfifth _].
  vm_compute in Hfifth. discriminate Hfifth.
Qed.

(** * Further properties *)

(** ** Thermal frames *)

Lemma flir_decode_inv (data : bytes) (f : flir_frame) :
  flir_decode data = Ok (Some f) ->
  (12 <= length data)%nat /\ f = flir_frame_of data.
Proof.
  intros Hd. destruct (Nat.lt_ge_cases (length data) 12) as [Hshort|Hlen].
  - rewrite flir_decode_short in Hd by exact Hshort. discriminate Hd.
  - rewrite flir_decode_ok in Hd by exact Hlen. split; [exact Hlen|congruence].
Qed.

Lemma flir_pixel_range (min_val val_range raw : Z) :
  0 <= flir_pixel min_val val_range raw <= 255.
Proof. unfold flir_pixel. lia. Qed.

Lemma flir_pixel_mono (min_val val_range raw raw' : Z) :
  0 < val_range -> raw <= raw' ->
  flir_pixel min_val val_range raw <= flir_pixel min_val val_range raw'.
Proof.
  intros Hr Hle. unfold flir_pixel, py_int_truediv.
  assert (Hq : Z.quot ((raw - min_val) * 255) val_range
               <= Z.quot ((raw' - min_val) * 255) val_range)
    by (apply Z.quot_le_mono; lia).
  lia.
Qed.

Lemma flir_pixel_low (min_val val_range raw : Z) :
  0 < val_range -> raw <= min_val -> flir_pixel min_val val_range raw = 0.
Proof.
  intros Hr Hle. unfold flir_pixel, py_int_truediv.
  assert (Hq : Z.quot ((raw - min_val) * 255) val_range <= Z.quot 0 val_range)
    by (apply Z.quot_le_mono; lia).
  rewrite Z.quot_0_l in Hq by lia. lia.
Qed.

Lemma flir_pixel_high (min_val max_val raw : Z) :
  min_val < max_val -> max_val <= raw ->
  flir_pixel min_val (Z.max (max_val - min_val) 1) raw = 255.
Proof.
  intros Hlt Hle. unfold flir_pixel, py_int_truediv.
  replace (Z.max (max_val - min_val) 1) with (max_val - min_val) by lia.
  assert (Hq : Z.quot (255 * (max_val - min_val)) (max_val - min_val)
               <= Z.quot ((raw - min_val) * 255) (max_val - min_val))
    by (apply Z.quot_le_mono; nia).
  rewrite Z.quot_mul in Hq by lia. lia.
Qed.

(** X1.  Whatever the header and the samples, every pixel of a decoded
    thermal frame lies between 0 and 255. *)
Theorem flir_pixels_in_range (data : bytes) (f : flir_frame) :
  flir_decode data = Ok (Some f) ->
  forall px, In px (f_pixels f) -> 0 <= px <= 255.
Proof.
  intros Hd px Hpx. apply flir_decode_inv in Hd as [_ ->].
  unfold flir_frame_of in Hpx. cbn [f_pixels] in Hpx.
  apply in_map_iff in Hpx as (k & <- & _). apply flir_pixel_range.
Qed.

Lemma flir_pixels_in_range_witness :
  flir_decode frame_flat_above = Ok (Some (FlirFrame 1 1 100 100 [255]))
  /\ 0 <= 255 <= 255.
Proof.
  assert (Hd : flir_decode frame_flat_above = Ok (Some (FlirFrame 1 1 100 100 [255])))
    by (vm_compute; reflexivity).
  split; [exact Hd|].
  apply (flir_pixels_in_range frame_flat_above _ Hd). now left.
Defined.

(** X2.  Within one frame the normalisation keeps the order of the samples:
    a sample that is not smaller never gets a smaller pixel.  A sample at or
    below [minVal] gets 0, and when [maxVal] is above [minVal] a sample at or
    above [maxVal] gets 255. *)
Theorem flir_pixels_monotone (data : bytes) (f : flir_frame) :
  flir_decode data = Ok (Some f) ->
  (forall i j pi pj,
      f_pixels f !! i = Some pi -> f_pixels f !! j = Some pj ->
      sample_at (drop 12 data) i <= sample_at (drop 12 data) j ->
      pi <= pj)
  /\ (forall i px,
        f_pixels f !! i = Some px ->
        (sample_at (drop 12 data) i <= f_minVal f -> px = 0)
        /\ (f_minVal f < f_maxVal f -> f_maxVal f <= sample_at (drop 12 data) i ->
            px = 255)).
Proof.
  intros Hd. apply flir_decode_inv in Hd as [_ ->]. split.
  - intros i j pi pj Hi Hj Hle.
    apply flir_frame_of_lookup in Hi as [_ ->].
    apply flir_frame_of_lookup in Hj as [_ ->].
    apply flir_pixel_mono; lia.
  - intros i px Hi. apply flir_frame_of_lookup in Hi as [_ ->].
    cbn [f_minVal f_maxVal flir_frame_of]. split.
    + intros Hle. apply flir_pixel_low; lia.
    + intros Hlt Hle. now apply flir_pixel_high.
Qed.

Lemma flir_pixels_monotone_witness :
  flir_decode frame_three = Ok (Some (FlirFrame 3 1 1000 3000 [0; 127; 255]))
  /\ (sample_at (drop 12 frame_three) 0 <= sample_at (drop 12 frame_three) 1
      /\ forall pi pj,
           [0; 127; 255] !! 0%nat = Some pi -> [0; 127; 255] !! 1%nat = Some pj -> pi <= pj)
  /\ (sample_at (drop 12 frame_three) 1 <= sample_at (drop 12 frame_three) 2
      /\ forall pi pj,
           [0; 127; 255] !! 1%nat = Some pi -> [0; 127; 255] !! 2%nat = Some pj -> pi <= pj)
  /\ (sample_at (drop 12 frame_three) 0 <= 1000
      /\ forall px, [0; 127; 255] !! 0%nat = Some px -> px = 0)
  /\ (1000 < 3000 /\ 3000 <= sample_at (drop 12 frame_three) 2
      /\ forall px, [0; 127; 255] !! 2%nat = Some px -> px = 255).
Proof.
  assert (Hd : flir_decode frame_three = Ok (Some (FlirFrame 3 1 1000 3000 [0; 127; 255])))
    by (vm_compute; reflexivity).
  assert (H01 : sample_at (drop 12 frame_three) 0 <= sample_at (drop 12 frame_three) 1)
    by (vm_compute; discriminate).
  assert (H12 : sample_at (drop 12 frame_three) 1 <= sample_at (drop 12 frame_three) 2)
    by (vm_compute; discriminate).
  assert (Hlow : sample_at (drop 12 frame_three) 0 <= 1000) by (vm_compute; discriminate).
  assert (Hhigh : 3000 <= sample_at (drop 12 frame_three) 2) by (vm_compute; discriminate).
  destruct (flir_pixels_monotone frame_three _ Hd) as [Hmono Hends].
  split; [exact Hd|].
  split; [split; [exact H01|]|split; [split; [exact H12|]|split; [split; [exact Hlow|]|]]].
  - intros pi pj Hi Hj. exact (Hmono 0%nat 1%nat pi pj Hi Hj H01).
  - intros pi pj Hi Hj. exact (Hmono 1%nat 2%nat pi pj Hi Hj H12).
  - intros px Hpx. exact (proj1 (Hends 0%nat px Hpx) Hlow).
  - split; [lia|]. split; [exact Hhigh|].
    intros px Hpx. apply (proj2 (Hends 2%nat px Hpx)); [cbn; lia|exact Hhigh].
Defined.

Lemma byte_val_range (b : byte) : 0 <= byte_val b < 256.
Proof. unfold byte_val. pose proof (Byte.to_N_bounded b). lia. Qed.

Lemma byte_val_le_byte (v : Z) (k : nat) :
  byte_val (le_byte v k) = (v / 2 ^ (8 * Z.of_nat k)) mod 256.
Proof.
  unfold le_byte, byte_val.
  change 255 with (Z.ones 8). rewrite Z.land_ones by lia.
  rewrite Z.shiftr_div_pow2 by lia. change (2 ^ 8) with 256.
  set (x := (v / 2 ^ (8 * Z.of_nat k)) mod 256).
  assert (Hx : 0 <= x < 256) by (apply Z.mod_pos_bound; lia).
  destruct (Byte.of_N (Z.to_N x)) as [b|] eqn:Hb.
  - apply Byte.to_of_N in Hb. simpl. rewrite Hb. lia.
  - apply Byte.of_N_None_iff in Hb. lia.
Qed.

Lemma lor_shifted (a b n : Z) :
  0 <= n -> 0 <= a < 2 ^ n -> 0 <= b -> Z.lor a (b * 2 ^ n) = a + b * 2 ^ n.
Proof.
  intros Hn Ha Hb. rewrite <- Z.add_lor_land.
  assert (Hland : Z.land a (b * 2 ^ n) = 0).
  { apply Z.bits_inj'. intros k Hk. rewrite Z.land_spec, Z.bits_0.
    destruct (Z.lt_ge_cases k n) as [Hlt|Hge].
    - rewrite <- Z.shiftl_mul_pow2 by lia. rewrite Z.shiftl_spec_low by lia.
      apply andb_false_r.
    - destruct (Z.eq_dec a 0) as [->|Hne]; [now rewrite Z.bits_0|].
      rewrite (Z.bits_above_log2 a k); [reflexivity|lia|].
      apply Z.lt_le_trans with n; [|exact Hge]. apply Z.log2_lt_pow2; lia. }
  rewrite Hland. lia.
Qed.

Lemma u16_of_le_bytes (v : Z) (rest : bytes) :
  0 <= v < 65536 -> u16_at (le_byte v 0 :: le_byte v 1 :: rest) 0 = v.
Proof.
  intros Hv. unfold u16_at. cbn [nth Nat.add]. rewrite !byte_val_le_byte.
  change (8 * Z.of_nat 0) with 0. change (8 * Z.of_nat 1) with 8.
  rewrite Z.shiftl_mul_pow2 by lia.
  change (2 ^ 0) with 1. change (2 ^ 8) with 256. rewrite Z.div_1_r.
  pose proof (lor_shifted (v mod 256) (v / 256 mod 256) 8) as Hl.
  change (2 ^ 8) with 256 in Hl. rewrite Hl.
  - pose proof (Z.div_mod v 256). pose proof (Z.mod_pos_bound v 256).
    rewrite (Z.mod_small (v / 256) 256); [lia|].
    split; [apply Z.div_pos; lia|apply Z.div_lt_upper_bound; lia].
  - lia.
  - apply Z.mod_pos_bound; lia.
  - apply Z.mod_pos_bound; lia.
Qed.

Lemma u32_of_le_bytes (v : Z) (rest : bytes) :
  0 <= v < 4294967296 ->
  u32_at (le_byte v 0 :: le_byte v 1 :: le_byte v 2 :: le_byte v 3 :: rest) 0 = v.
Proof.
  intros Hv. unfold u32_at. cbn [nth Nat.add]. rewrite !byte_val_le_byte.
  change (8 * Z.of_nat 0) with 0. change (8 * Z.of_nat 1) with 8.
  change (8 * Z.of_nat 2) with 16. change (8 * Z.of_nat 3) with 24.
  rewrite !Z.shiftl_mul_pow2 by lia.
  change (2 ^ 0) with 1. change (2 ^ 8) with 256.
  change (2 ^ 16) with 65536. change (2 ^ 24) with 16777216. rewrite Z.div_1_r.
  set (b0 := v mod 256). set (b1 := v / 256 mod 256).
  set (b2 := v / 65536 mod 256). set (b3 := v / 16777216 mod 256).
  assert (H0 : 0 <= b0 < 256) by (apply Z.mod_pos_bound; lia).
  assert (H1 : 0 <= b1 < 256) by (apply Z.mod_pos_bound; lia).
  assert (H2 : 0 <= b2 < 256) by (apply Z.mod_pos_bound; lia).
  assert (H3 : 0 <= b3 < 256) by (apply Z.mod_pos_bound; lia).
  pose proof (lor_shifted (b2 * 65536) b3 24 ltac:(lia)) as L3.
  change (2 ^ 24) with 16777216 in L3. rewrite L3 by lia.
  pose proof (lor_shifted (b1 * 256) (b2 + b3 * 256) 16 ltac:(lia)) as L2.
  change (2 ^ 16) with 65536 in L2.
  replace (b2 * 65536 + b3 * 16777216) with ((b2 + b3 * 256) * 65536) by lia.
  rewrite L2 by lia.
  pose proof (lor_shifted b0 (b1 + (b2 + b3 * 256) * 256) 8 ltac:(lia)) as L1.
  change (2 ^ 8) with 256 in L1.
  replace (b1 * 256 + (b2 + b3 * 256) * 65536)
    with ((b1 + (b2 + b3 * 256) * 256) * 256) by lia.
  rewrite L1 by lia.
  subst b0 b1 b2 b3. clear -Hv.
  Z.div_mod_to_equations. lia.
Qed.

Lemma le_bytes_2 (v : Z) : le_bytes 2 v = [le_byte v 0; le_byte v 1].
Proof. reflexivity. Qed.

Lemma le_bytes_4 (v : Z) :
  le_bytes 4 v = [le_byte v 0; le_byte v 1; le_byte v 2; le_byte v 3].
Proof. reflexivity. Qed.

Lemma u16_at_skip (b : byte) (data : bytes) (off : nat) :
  u16_at (b :: data) (S off) = u16_at data off.
Proof. reflexivity. Qed.

Lemma u32_at_skip (b : byte) (data : bytes) (off : nat) :
  u32_at (b :: data) (S off) = u32_at data off.
Proof. reflexivity. Qed.

Lemma sample_at_cons (b0 b1 : byte) (rest : bytes) (k : nat) :
  sample_at (b0 :: b1 :: rest) (S k) = sample_at rest k.
Proof.
  unfold sample_at, u16_at.
  replace (2 * S k)%nat with (S (S (2 * k))) by lia.
  replace (S (S (2 * k)) + 1)%nat with (S (S (2 * k + 1))) by lia.
  reflexivity.
Qed.

Lemma samples_of_body (samples : list Z) :
  Forall (fun s => 0 <= s < 65536) samples ->
  map (sample_at (flat_map (le_bytes 2) samples)) (seq 0 (length samples)) = samples.
Proof.
  induction 1 as [|s samples Hs _ IH]; [reflexivity|].
  cbn [length flat_map]. rewrite le_bytes_2. cbn [app].
  rewrite <- cons_seq, <- fmap_S_seq. cbn [map]. f_equal.
  - unfold sample_at. change (2 * 0)%nat with 0%nat.
    apply u16_of_le_bytes. exact Hs.
  - change (fmap S (seq 0 (length samples))) with (map S (seq 0 (length samples))).
    rewrite map_map. rewrite <- IH at 2. apply map_ext. intros k.
    apply sample_at_cons.
Qed.

Lemma flat_map_le_bytes_length (samples : list Z) :
  length (flat_map (le_bytes 2) samples) = (2 * length samples)%nat.
Proof.
  induction samples as [|s samples IH]; [reflexivity|].
  cbn [flat_map length]. rewrite length_app, IH. simpl. lia.
Qed.

(** X3.  The decoder reads the wire layout back: for a 16-bit width and
    height, 32-bit [minVal] and [maxVal] and 16-bit samples, the payload made
    of the four header fields in little-endian order followed by the
    little-endian samples decodes to a frame with these four fields and one
    pixel per sample, in order.  The width and height are taken as they are,
    whatever the number of samples. *)
Theorem flir_decode_of_payload (width height min_val max_val : Z) (samples : list Z) :
  0 <= width < 65536 -> 0 <= height < 65536 ->
  0 <= min_val < 4294967296 -> 0 <= max_val < 4294967296 ->
  Forall (fun s => 0 <= s < 65536) samples ->
  flir_decode (flir_payload width height min_val max_val samples)
  = Ok (Some (FlirFrame width height min_val max_val
                (map (fun raw =>
                        Z.max 0 (Z.min 255
                          (Z.quot ((raw - min_val) * 255) (Z.max (max_val - min_val) 1))))
                   samples))).
Proof.
  intros Hw Hh Hmin Hmax Hs.
  assert (Hpay : flir_payload width height min_val max_val samples
                 = le_byte width 0 :: le_byte width 1
                   :: le_byte height 0 :: le_byte height 1
                   :: le_byte min_val 0 :: le_byte min_val 1
                   :: le_byte min_val 2 :: le_byte min_val 3
                   :: le_byte max_val 0 :: le_byte max_val 1
                   :: le_byte max_val 2 :: le_byte max_val 3
                   :: flat_map (le_bytes 2) samples) by reflexivity.
  rewrite flir_decode_ok by (rewrite Hpay; simpl; lia).
  unfold flir_frame_of.
  assert (Hwidth : u16_at (flir_payload width height min_val max_val samples) 0 = width)
    by (rewrite Hpay; now apply u16_of_le_bytes).
  assert (Hheight : u16_at (flir_payload width height min_val max_val samples) 2 = height)
    by (rewrite Hpay, !u16_at_skip; now apply u16_of_le_bytes).
  assert (Hminv : u32_at (flir_payload width height min_val max_val samples) 4 = min_val)
    by (rewrite Hpay, !u32_at_skip; now apply u32_of_le_bytes).
  assert (Hmaxv : u32_at (flir_payload width height min_val max_val samples) 8 = max_val)
    by (rewrite Hpay, !u32_at_skip; now apply u32_of_le_bytes).
  rewrite Hwidth, Hheight, Hminv, Hmaxv.
  assert (Hbody : drop 12 (flir_payload width height min_val max_val samples)
                  = flat_map (le_bytes 2) samples) by (rewrite Hpay; reflexivity).
  rewrite Hbody, flat_map_le_bytes_length.
  replace (2 * length samples / 2)%nat with (length samples)
    by (rewrite Nat.mul_comm, Nat.div_mul; lia).
  do 3 f_equal.
  rewrite <- (samples_of_body samples Hs) at 2.
  rewrite map_map. reflexivity.
Qed.

Lemma flir_decode_of_payload_witness :
  flir_decode (flir_payload 3 1 1000 3000 [1000; 2000; 3000])
  = Ok (Some (FlirFrame 3 1 1000 3000 [0; 127; 255])).
Proof.
  rewrite (flir_decode_of_payload 3 1 1000 3000 [1000; 2000; 3000]);
    [reflexivity|lia|lia|lia|lia|].
  repeat constructor; lia.
Defined.

(** ** Range scans *)

(** Every buffer is whole records followed by fewer than five bytes. *)
Lemma lidar_records_fold (data : bytes) :
  exists (rs : list scan_record) (tail : bytes),
    data = flat_map record_bytes rs ++ tail
    /\ (length tail < 5)%nat
    /\ length rs = (length data / 5)%nat
    /\ forall acc, lidar_records data acc = fold_left lidar_step rs acc.
Proof.
  set (k := (length data / 5)%nat).
  assert (Hk : (5 * k <= length data)%nat) by (apply Nat.Div0.mul_div_le).
  assert (Hm : (length data < 5 * k + 5)%nat).
  { pose proof (Nat.div_mod_eq (length data) 5) as Hd.
    pose proof (Nat.mod_upper_bound (length data) 5 ltac:(lia)). fold k in Hd. lia. }
  destruct (blocks_of_length k (take (5 * k) data)) as (rs & Hrs & Hlen).
  { rewrite length_take. lia. }
  exists rs, (drop (5 * k) data).
  split; [now rewrite <- Hrs, take_drop|].
  split; [rewrite length_drop; lia|].
  split; [exact Hlen|].
  intros acc. rewrite <- (take_drop (5 * k) data) at 1. rewrite Hrs.
  rewrite lidar_records_blocks. apply lidar_records_short.
  rewrite length_drop. lia.
Qed.

Lemma py_round1_between (n : Z) (d : positive) :
  Qden (py_round1 (Qmake n d)) = 10%positive
  /\ n * 10 / Z.pos d <= Qnum (py_round1 (Qmake n d)) <= n * 10 / Z.pos d + 1.
Proof.
  unfold py_round1. cbn [Qnum Qden]. split; [reflexivity|].
  destruct (_ <? _); [lia|]. destruct (_ <? _); [lia|]. destruct (Z.even _); lia.
Qed.

Lemma record_fields_range (r : scan_record) :
  0 <= record_quality r <= 63
  /\ 0 <= record_angle_raw r <= 32767
  /\ 0 <= record_distance_raw r <= 65535.
Proof.
  destruct r as [[[[b0 b1] b2] b3] b4].
  unfold record_quality, record_angle_raw, record_distance_raw.
  pose proof (byte_val_range b0). pose proof (byte_val_range b1).
  pose proof (byte_val_range b2). pose proof (byte_val_range b3).
  pose proof (byte_val_range b4).
  rewrite !Z.shiftr_div_pow2, !Z.shiftl_mul_pow2 by lia.
  change (2 ^ 2) with 4. change (2 ^ 1) with 2.
  assert (Hq : 0 <= byte_val b0 / 4 <= 63) by (Z.div_mod_to_equations; lia).
  assert (Ha : 0 <= byte_val b1 / 2 <= 127) by (Z.div_mod_to_equations; lia).
  pose proof (lor_shifted (byte_val b1 / 2) (byte_val b2) 7 ltac:(lia)) as La.
  pose proof (lor_shifted (byte_val b3) (byte_val b4) 8 ltac:(lia)) as Ld.
  change (2 ^ 7) with 128 in *. change (2 ^ 8) with 256 in *.
  rewrite La, Ld by lia.
  lia.
Qed.

Lemma record_point_in_bounds (r : scan_record) :
  0 < record_quality r -> 0 < record_distance_raw r -> point_in_bounds (record_point r).
Proof.
  intros Hq Hd. destruct (record_fields_range r) as (Hqr & Har & Hdr).
  unfold point_in_bounds, record_point, record_angle, record_distance.
  cbn [p_q p_a p_d].
  destruct (py_round1_between (record_angle_raw r) 64) as [Hda Hna].
  destruct (py_round1_between (record_distance_raw r) 4) as [Hdd Hnd].
  assert (Hfa : 0 <= record_angle_raw r * 10 / 64 <= 5119)
    by (Z.div_mod_to_equations; lia).
  assert (Hfd : 2 <= record_distance_raw r * 10 / 4 <= 163837)
    by (Z.div_mod_to_equations; lia).
  unfold Qle. rewrite Hda, Hdd. cbn [Qnum Qden].
  repeat split; lia.
Qed.

Lemma lidar_step_cases (acc : list lidar_point) (r : scan_record) :
  (lidar_step acc r = acc /\ (record_quality r = 0 \/ record_distance_raw r <= 0))
  \/ (lidar_step acc r = acc ++ [record_point r]
      /\ 0 < record_quality r /\ 0 < record_distance_raw r).
Proof.
  destruct (record_fields_range r) as (Hqr & _ & _).
  destruct r as [[[[b0 b1] b2] b3] b4].
  unfold lidar_step, lidar_record, record_quality, record_distance_raw in *.
  destruct (Z.eqb_spec (Z.shiftr (byte_val b0) 2) 0) as [Hq|Hq].
  - left. split; [reflexivity|now left].
  - destruct (Qlt_le_dec 0 _) as [Hd|Hd].
    + right. split; [reflexivity|]. split; [lia|].
      unfold Qlt in Hd. cbn [Qnum Qden] in Hd. lia.
    + left. split; [reflexivity|]. right.
      unfold Qle in Hd. cbn [Qnum Qden] in Hd. lia.
Qed.

Lemma lidar_fold_app (rs : list scan_record) (acc : list lidar_point) :
  fold_left lidar_step rs acc = acc ++ fold_left lidar_step rs [].
Proof.
  revert acc. induction rs as [|r rs IH]; intros acc; cbn [fold_left].
  - now rewrite app_nil_r.
  - rewrite (IH (lidar_step acc r)), (IH (lidar_step [] r)).
    destruct (lidar_step_cases acc r) as [[-> H0]|[-> [Hq Hd]]];
      destruct (lidar_step_cases [] r) as [[-> H1]|[-> [Hq1 Hd1]]].
    + reflexivity.
    + exfalso. lia.
    + exfalso. lia.
    + now rewrite <- app_assoc.
Qed.

Lemma lidar_fold_bounds (rs : list scan_record) (acc : list lidar_point) :
  Forall point_in_bounds acc ->
  Forall point_in_bounds (fold_left lidar_step rs acc)
  /\ (length (fold_left lidar_step rs acc) <= length acc + length rs)%nat.
Proof.
  revert acc. induction rs as [|r rs IH]; intros acc Hacc; cbn [fold_left length].
  - split; [exact Hacc|lia].
  - destruct (lidar_step_cases acc r) as [[Hs _]|[Hs [Hq Hd]]]; rewrite Hs.
    + destruct (IH acc Hacc). split; [assumption|lia].
    + destruct (IH (acc ++ [record_point r])) as [HF HL].
      { apply Forall_app. split; [exact Hacc|].
        constructor; [now apply record_point_in_bounds|constructor]. }
      split; [exact HF|]. rewrite length_app in HL. simpl in HL. lia.
Qed.

(** X4.  Every point of a decoded scan has a quality between 1 and 63, an
    angle between 0 and 512 degrees and a distance between 0.2 and 16383.8
    millimetres: a point is never reported with a zero quality or a zero
    distance, and its angle is not held below 360.  A scan has at most one
    point per whole five-byte record. *)
Theorem lidar_points_in_bounds (data : bytes) (points : list lidar_point) :
  lidar_decode data = Ok points ->
  Forall point_in_bounds points
  /\ (length points <= length data / 5)%nat.
Proof.
  rewrite lidar_decode_records. intros Hd. injection Hd as <-.
  destruct (lidar_records_fold data) as (rs & tail & _ & _ & Hlen & Hfold).
  rewrite Hfold, <- Hlen.
  destruct (lidar_fold_bounds rs [] ltac:(constructor)) as [HF HL].
  split; [exact HF|exact HL].
Qed.

Lemma lidar_points_in_bounds_witness :
  lidar_decode (record_bytes rec_b)
  = Ok [LidarPoint (Qmake 1805 10) (Qmake 2 10) 2]
  /\ Forall point_in_bounds [LidarPoint (Qmake 1805 10) (Qmake 2 10) 2].
Proof.
  assert (Hd : lidar_decode (record_bytes rec_b)
               = Ok [LidarPoint (Qmake 1805 10) (Qmake 2 10) 2])
    by (vm_compute; reflexivity).
  split; [exact Hd|].
  exact (proj1 (lidar_points_in_bounds _ _ Hd)).
Defined.

(** X5.  A record whose distance bytes are both zero contributes no point,
    whatever its quality and angle: the buffer with the record at a record
    boundary decodes as the buffer without it. *)
Theorem lidar_zero_distance_dropped (pre post : bytes) (r : scan_record) (k : nat) :
  length pre = (5 * k)%nat ->
  record_distance_raw r = 0 ->
  lidar_decode (pre ++ record_bytes r ++ post) = lidar_decode (pre ++ post).
Proof.
  intros Hpre Hd.
  destruct (blocks_of_length k pre Hpre) as (rs & -> & _).
  rewrite !lidar_decode_records, !lidar_records_blocks.
  replace (record_bytes r ++ post) with (flat_map record_bytes [r] ++ post)
    by (simpl; now rewrite app_nil_r).
  rewrite lidar_records_blocks. cbn [fold_left].
  change (Ok (lidar_records post (lidar_step (fold_left lidar_step rs []) r))
          = Ok (lidar_records post (fold_left lidar_step rs []))).
  destruct (lidar_step_cases (fold_left lidar_step rs []) r) as [[Hs _]|[_ [_ Hpos]]];
    [|lia].
  now rewrite Hs.
Qed.

Lemma lidar_zero_distance_dropped_witness :
  record_distance_raw (xfc, x10, x20, x00, x00) = 0
  /\ lidar_decode (record_bytes rec_a ++ record_bytes (xfc, x10, x20, x00, x00)
                   ++ record_bytes rec_b)
     = lidar_decode (record_bytes rec_a ++ record_bytes rec_b).
Proof.
  split; [reflexivity|].
  apply (lidar_zero_distance_dropped (record_bytes rec_a) (record_bytes rec_b)
           (xfc, x10, x20, x00, x00) 1); reflexivity.
Defined.

(** X6.  Decoding goes record by record: the points of a buffer that
    continues after whole records are the points of the records followed by
    the points of the continuation. *)
Theorem lidar_decode_app (front back : bytes) (k : nat) :
  length front = (5 * k)%nat ->
  exists pf pb,
    lidar_decode front = Ok pf
    /\ lidar_decode back = Ok pb
    /\ lidar_decode (front ++ back) = Ok (pf ++ pb).
Proof.
  intros Hfront.
  exists (lidar_records front []), (lidar_records back []).
  rewrite !lidar_decode_records. split; [reflexivity|]. split; [reflexivity|].
  f_equal.
  destruct (blocks_of_length k front Hfront) as (rs & -> & _).
  rewrite lidar_records_blocks.
  rewrite <- (app_nil_r (flat_map record_bytes rs)).
  rewrite lidar_records_blocks. cbn [lidar_records].
  destruct (lidar_records_fold back) as (rb & tail & _ & _ & _ & Hfold).
  rewrite !Hfold.
  change (fold_left lidar_step rb (fold_left lidar_step rs [])
          = fold_left lidar_step rs [] ++ fold_left lidar_step rb []).
  apply lidar_fold_app.
Qed.

Lemma lidar_decode_app_witness :
  lidar_decode (record_bytes rec_a ++ record_bytes rec_b)
  = Ok ([LidarPoint (Qmake 900 10) (Qmake 250 10) 1]
        ++ [LidarPoint (Qmake 1805 10) (Qmake 2 10) 2]).
Proof.
  destruct (lidar_decode_app (record_bytes rec_a) (record_bytes rec_b) 1 eq_refl)
    as (pf & pb & Hf & Hb & Hfb).
  rewrite Hfb. f_equal.
  assert (Hf' : lidar_decode (record_bytes rec_a)
                = Ok [LidarPoint (Qmake 900 10) (Qmake 250 10) 1])
    by (vm_compute; reflexivity).
  assert (Hb' : lidar_decode (record_bytes rec_b)
                = Ok [LidarPoint (Qmake 1805 10) (Qmake 2 10) 2])
    by (vm_compute; reflexivity).
  rewrite Hf' in Hf. rewrite Hb' in Hb.
  injection Hf as <-. injection Hb as <-. reflexivity.
Defined.

(** ** Relaying the messages of the phone *)

Lemma handle_phone_binary_relay (json_loads : string -> result json)
    (endpoint : string) (data : bytes) (st : State) :
  handle_phone_binary endpoint data st
  = match relay_text json_loads endpoint (BinaryMessage data) with
    | Ok (Some text) => broadcast_to_browsers text st
    | Ok None => (Ok tt, st)
    | Raise e => (Raise e, st)
    end.
Proof.
  unfold handle_phone_binary, relay_text.
  destruct (String.eqb endpoint "camera"); [reflexivity|].
  destruct (String.eqb endpoint "flir").
  - unfold bind, lift. destruct (Nat.leb_spec 12 (length data)) as [Hlen|Hshort].
    + now rewrite flir_decode_ok.
    + now rewrite flir_decode_short.
  - destruct (String.eqb endpoint "lidar"); [|reflexivity].
    unfold bind, lift. rewrite lidar_decode_records.
    destruct (lidar_records data []); reflexivity.
Qed.

Lemma handle_phone_text_relay (json_loads : string -> result json)
    (endpoint data : string) (st : State) :
  handle_phone_text json_loads endpoint data st
  = match relay_text json_loads endpoint (TextMessage data) with
    | Ok (Some text) => broadcast_to_browsers text st
    | Ok None => (Ok tt, st)
    | Raise e => (Raise e, st)
    end.
Proof.
  unfold handle_phone_text, relay_text.
  destruct (bool_decide _); [|reflexivity].
  destruct (json_loads data) as [parsed|[]]; reflexivity.
Qed.

Lemma broadcast_healthy (c : client) (message : string) (st : State) :
  healthy c st ->
  healthy c (broadcast_to_browsers message st).2
  /\ received_by c (trace (broadcast_to_browsers message st).2)
     = received_by c (trace st) ++ [message].
Proof.
  intros [Hin Hok]. rewrite broadcast_to_browsers_run.
  destruct (decide (browser_clients st = ∅)) as [He|Hne]; [set_solver|].
  cbn [snd]. split.
  - split; [|exact Hok]. cbn [browser_clients with_browser_clients].
    apply elem_of_difference. split; [exact Hin|].
    rewrite elem_of_failed_of. intros [_ [f Hf]]. congruence.
  - cbn [trace with_browser_clients emit_all]. rewrite received_by_app. f_equal.
    apply received_by_pass; [apply NoDup_elements|now apply elem_of_elements|exact Hok].
Qed.

(** X7.  The receive loop of a link does nothing but broadcast: one
    broadcast for each message that is relayed, in the order of receipt, of
    the frame that message decodes to, and nothing for the others.  It ends
    early at the first text on which [json.loads] raises something else than
    [JSONDecodeError], with that exception: the messages after it are not
    relayed. *)
Theorem receive_loop_relays_in_order (json_loads : string -> result json)
    (endpoint : string) (inbound : list ws_message) (st : State) :
  receive_loop json_loads endpoint inbound st
  = (broadcast_all (relay_plan json_loads endpoint inbound).1 ;;
     match (relay_plan json_loads endpoint inbound).2 with
     | Some e => raise e
     | None => ret tt
     end) st.
Proof.
  revert st. induction inbound as [|m inbound IH]; intros st; [reflexivity|].
  assert (Hstep : forall (h : M unit),
             h st = match relay_text json_loads endpoint m with
                    | Ok (Some text) => broadcast_to_browsers text st
                    | Ok None => (Ok tt, st)
                    | Raise e => (Raise e, st)
                    end ->
             bind h (fun _ => receive_loop json_loads endpoint inbound) st
             = (broadcast_all (relay_plan json_loads endpoint (m :: inbound)).1 ;;
                match (relay_plan json_loads endpoint (m :: inbound)).2 with
                | Some e => raise e
                | None => ret tt
                end) st).
  { intros h Hh. cbn [relay_plan].
    destruct (relay_text json_loads endpoint m) as [[text|]|e]; cbn [fst snd].
    - cbn [broadcast_all]. unfold bind at 1 2 3. rewrite Hh.
      destruct (broadcast_to_browsers text st) as [[[]|e] st1]; [apply IH|reflexivity].
    - unfold bind at 1. rewrite Hh. apply IH.
    - unfold bind at 1. rewrite Hh. reflexivity. }
  destruct m as [data|data]; cbn [receive_loop]; apply Hstep.
  - apply handle_phone_text_relay.
  - apply handle_phone_binary_relay.
Qed.

(** X8.  What is dropped without a message and without an exception: a
    binary message on an endpoint other than camera, flir and lidar; a scan
    with no valid record, as every buffer under five bytes is; a text message
    on an endpoint other than arduino and imu; and a text that is not
    JSON. *)
Theorem phone_messages_dropped (json_loads : string -> result json)
    (endpoint : string) (st : State) :
  (forall data : bytes,
      endpoint <> "camera" -> endpoint <> "flir" -> endpoint <> "lidar" ->
      handle_phone_binary endpoint data st = (Ok tt, st))
  /\ (forall data : bytes,
        lidar_decode data = Ok [] -> handle_phone_binary "lidar" data st = (Ok tt, st))
  /\ (forall data : bytes, (length data < 5)%nat -> lidar_decode data = Ok [])
  /\ (forall data : string,
        endpoint <> "arduino" -> endpoint <> "imu" ->
        handle_phone_text json_loads endpoint data st = (Ok tt, st))
  /\ (forall data : string,
        json_loads data = Raise JSONDecodeError ->
        handle_phone_text json_loads endpoint data st = (Ok tt, st)).
Proof.
  split; [|split; [|split; [|split]]].
  - intros data Hc Hf Hl. unfold handle_phone_binary.
    apply String.eqb_neq in Hc, Hf, Hl. now rewrite Hc, Hf, Hl.
  - intros data Hd. rewrite (handle_phone_binary_relay json_loads).
    rewrite lidar_decode_records in Hd. injection Hd as Hd.
    unfold relay_text. change (String.eqb "lidar" "camera") with false.
    change (String.eqb "lidar" "flir") with false.
    change (String.eqb "lidar" "lidar") with true. cbv iota. now rewrite Hd.
  - intros data Hlen. rewrite lidar_decode_records. f_equal.
    now apply lidar_records_short.
  - intros data Ha Hi. unfold handle_phone_text.
    rewrite bool_decide_eq_false_2; [reflexivity|].
    rewrite !elem_of_cons. intros [->|[->|H]]; [congruence|congruence|inversion H].
  - intros data Hnone. unfold handle_phone_text. rewrite Hnone.
    destruct (bool_decide _); reflexivity.
Qed.

Lemma phone_messages_dropped_witness :
  handle_phone_binary "imu" [x00; x01] hub_three = (Ok tt, hub_three)
  /\ lidar_decode (record_bytes rec_q0) = Ok []
  /\ handle_phone_binary "lidar" (record_bytes rec_q0) hub_three = (Ok tt, hub_three)
  /\ handle_phone_text loads_known "camera" (json_dumps stop_message) hub_three
     = (Ok tt, hub_three)
  /\ loads_known "{" = Raise JSONDecodeError
  /\ handle_phone_text loads_known "arduino" "{" hub_three = (Ok tt, hub_three).
Proof.
  destruct (phone_messages_dropped loads_known "imu" hub_three) as (Hb & Hl & _ & _ & _).
  destruct (phone_messages_dropped loads_known "camera" hub_three) as (_ & _ & _ & Ht & _).
  destruct (phone_messages_dropped loads_known "arduino" hub_three) as (_ & _ & _ & _ & Hn).
  assert (Hq : lidar_decode (record_bytes rec_q0) = Ok []) by (vm_compute; reflexivity).
  split; [apply Hb; discriminate|].
  split; [exact Hq|].
  split; [apply Hl; exact Hq|].
  split; [apply Ht; discriminate|].
  split; [reflexivity|].
  apply Hn. reflexivity.
Defined.

(** ** What the handlers and the loops leave alone *)

Section Frame.

Context {X : Type}.
Variable R : X -> X -> Prop.
Context `{!PreOrder R}.
Variable f : State -> X.

Lemma stays_ret {A} (a : A) : stays R f (ret a).
Proof. intros st. reflexivity. Qed.

Lemma stays_raise {A} (e : exn) : stays R f (@raise A e).
Proof. intros st. reflexivity. Qed.

Lemma stays_lift {A} (r : result A) : stays R f (lift r).
Proof. intros st. reflexivity. Qed.

Lemma stays_gets {A} (g : State -> A) : stays R f (gets g).
Proof. intros st. reflexivity. Qed.

Lemma stays_modify (g : State -> State) :
  (forall st, f (g st) = f st) -> stays R f (modify g).
Proof. intros Hg st. unfold modify; cbn. rewrite Hg. reflexivity. Qed.

Lemma stays_bind {A C} (m : M A) (k : A -> M C) :
  stays R f m -> (forall a, stays R f (k a)) -> stays R f (bind m k).
Proof.
  intros Hm Hk st. unfold bind.
  specialize (Hm st). destruct (m st) as [[a|e] st1]; cbn in *.
  - transitivity (f st1); [apply Hk|exact Hm].
  - exact Hm.
Qed.

Lemma stays_try_except {A} (body : M A) (classes : exn -> bool)
    (handler : exn -> M A) :
  stays R f body -> (forall e, stays R f (handler e)) ->
  stays R f (try_except body classes handler).
Proof.
  intros Hb Hh st. unfold try_except.
  specialize (Hb st). destruct (body st) as [[a|e] st1]; cbn in *.
  - exact Hb.
  - destruct (classes e); [|exact Hb].
    transitivity (f st1); [apply Hh|exact Hb].
Qed.

Lemma stays_websocket_send (ws : websocket) (text : string) :
  (forall text err st, f (emit (EvControlSend text err) st) = f st) ->
  stays R f (websocket_send ws text).
Proof. intros Hf st. destruct ws; cbn; rewrite Hf; reflexivity. Qed.

Ltac steady :=
  repeat first
    [ assumption
    | match goal with
      | H : forall _, stays _ _ _ |- stays _ _ _ => apply H
      | H : forall _ _, stays _ _ _ |- stays _ _ _ => apply H
      end
    | match goal with
      | |- stays _ _ (bind _ _) => apply stays_bind; [|intros ?]
      | |- stays _ _ (try_except _ _ _) => apply stays_try_except; [|intros ?]
      | |- stays _ _ (ret _) => apply stays_ret
      | |- stays _ _ (raise _) => apply stays_raise
      | |- stays _ _ (lift _) => apply stays_lift
      | |- stays _ _ (gets _) => apply stays_gets
      | |- stays _ _ (modify _) => apply stays_modify; intros ?; solve [auto]
      | |- stays _ _ (websocket_send _ _) => apply stays_websocket_send; solve [auto]
      end
    | match goal with
      | |- stays _ _ (match ?x with _ => _ end) => destruct x
      | |- stays _ _ (if ?x then _ else _) => destruct x
      end ].

Hypothesis f_logged : forall r st, f (logged r st) = f st.

Lemma stays_log_link_failure (endpoint : string) (e : exn) :
  stays R f (log_link_failure endpoint e).
Proof. unfold log_link_failure. steady. Qed.

Hypothesis f_control_send : forall text err st, f (emit (EvControlSend text err) st) = f st.

Lemma stays_send_control (payload : json) : stays R f (send_control payload).
Proof. unfold send_control. steady. Qed.

Hypothesis f_mc : forall c st, f (with_mc c st) = f st.

Lemma stays_handle_browser_message (json_loads : string -> result json) (data : string) :
  stays R f (handle_browser_message json_loads data).
Proof.
  pose proof stays_send_control. unfold handle_browser_message. steady.
Qed.

Lemma stays_browser_receive_loop (json_loads : string -> result json)
    (inbound : list browser_frame) :
  stays R f (browser_receive_loop json_loads inbound).
Proof.
  induction inbound as [|[data| | |] inbound IH]; cbn [browser_receive_loop].
  - apply stays_ret.
  - apply stays_bind; [apply stays_handle_browser_message|intros _; exact IH].
  - apply stays_ret.
  - apply stays_ret.
  - exact IH.
Qed.

End Frame.

Section FrameRelay.

Context {X : Type}.
Variable R : X -> X -> Prop.
Context `{!PreOrder R}.
Variable f : State -> X.
Hypothesis f_logged : forall r st, f (logged r st) = f st.
Hypothesis f_broadcast : forall message, stays R f (broadcast_to_browsers message).
Hypothesis f_sleep : forall task seconds st, f (emit (EvSleep task seconds) st) = f st.

Ltac steady :=
  repeat first
    [ assumption
    | match goal with
      | H : forall _, stays _ _ _ |- stays _ _ _ => apply H
      | H : forall _ _, stays _ _ _ |- stays _ _ _ => apply H
      end
    | match goal with
      | |- stays _ _ (bind _ _) => (apply stays_bind; try exact _); [|intros ?]
      | |- stays _ _ (try_except _ _ _) => (apply stays_try_except; try exact _); [|intros ?]
      | |- stays _ _ (ret _) => (apply stays_ret; try exact _)
      | |- stays _ _ (raise _) => (apply stays_raise; try exact _)
      | |- stays _ _ (lift _) => (apply stays_lift; try exact _)
      | |- stays _ _ (gets _) => (apply stays_gets; try exact _)
      | |- stays _ _ (broadcast_to_browsers _) => apply f_broadcast
      | |- stays _ _ (modify _) => (apply stays_modify; try exact _); intros ?; solve [auto]
      | |- stays _ _ (sleep _ _) => (apply stays_modify; try exact _); intros ?; solve [auto]
      | |- stays _ _ (set_connected _ _) => (apply stays_modify; try exact _); intros ?; solve [auto]
      | |- stays _ _ (log_link_failure _ _) => (apply stays_log_link_failure; try exact _); solve [auto]
      end
    | match goal with
      | |- stays _ _ (match ?x with _ => _ end) => destruct x
      | |- stays _ _ (if ?x then _ else _) => destruct x
      end ].

Lemma stays_broadcast_status : stays R f broadcast_status.
Proof. unfold broadcast_status. steady. Qed.

Lemma stays_handle_phone_binary (endpoint : string) (data : bytes) :
  stays R f (handle_phone_binary endpoint data).
Proof. unfold handle_phone_binary. steady. Qed.

Lemma stays_handle_phone_text (json_loads : string -> result json)
    (endpoint data : string) :
  stays R f (handle_phone_text json_loads endpoint data).
Proof. unfold handle_phone_text. steady. Qed.

Lemma stays_receive_loop (json_loads : string -> result json)
    (endpoint : string) (inbound : list ws_message) :
  stays R f (receive_loop json_loads endpoint inbound).
Proof.
  induction inbound as [|[data|data] inbound IH]; cbn [receive_loop].
  - now apply stays_ret.
  - apply stays_bind; [exact _|apply stays_handle_phone_text|intros _; exact IH].
  - apply stays_bind; [exact _|apply stays_handle_phone_binary|intros _; exact IH].
Qed.

Lemma stays_control_receive_loop (inbound : list ws_message) :
  stays R f (control_receive_loop inbound).
Proof. induction inbound as [|m inbound IH]; [now apply stays_ret|exact IH]. Qed.

Lemma stays_connect_phone_endpoint_turn (json_loads : string -> result json)
    (endpoint : string) (a : attempt) (backoff : Q) :
  (forall b st,
      f (with_phone_connected (<[endpoint := b]> (phone_connected st)) st) = f st) ->
  stays R f (connect_phone_endpoint_turn json_loads endpoint a backoff).
Proof.
  intros f_set.
  pose proof stays_broadcast_status.
  pose proof (stays_receive_loop json_loads endpoint).
  unfold connect_phone_endpoint_turn, connect_phone_endpoint_try. steady.
Qed.

Lemma stays_connect_phone_control_turn (a : attempt) (backoff : Q) :
  (forall b st,
      f (with_phone_connected (<["control" := b]> (phone_connected st)) st) = f st) ->
  (forall w st, f (with_control_ws w st) = f st) ->
  stays R f (connect_phone_control_turn a backoff).
Proof.
  intros f_set f_link.
  pose proof stays_broadcast_status.
  pose proof stays_control_receive_loop.
  unfold connect_phone_control_turn, connect_phone_control_try. steady.
Qed.

End FrameRelay.

Lemma broadcast_frame (message : string) (st : State) :
  phone_connected (broadcast_to_browsers message st).2 = phone_connected st
  /\ control_ws (broadcast_to_browsers message st).2 = control_ws st
  /\ _mc (broadcast_to_browsers message st).2 = _mc st
  /\ send_fault (broadcast_to_browsers message st).2 = send_fault st
  /\ log (broadcast_to_browsers message st).2 = log st
  /\ browser_clients (broadcast_to_browsers message st).2 ⊆ browser_clients st.
Proof.
  rewrite broadcast_to_browsers_run.
  destruct (decide (browser_clients st = ∅)); cbn [snd].
  - repeat split; reflexivity.
  - repeat split; try reflexivity.
    cbn [browser_clients with_browser_clients]. set_solver.
Qed.

Lemma broadcast_status_frame (st : State) :
  phone_connected (broadcast_status st).2 = phone_connected st
  /\ control_ws (broadcast_status st).2 = control_ws st
  /\ _mc (broadcast_status st).2 = _mc st
  /\ send_fault (broadcast_status st).2 = send_fault st
  /\ log (broadcast_status st).2 = log st
  /\ browser_clients (broadcast_status st).2 ⊆ browser_clients st.
Proof. apply (broadcast_frame (status_text (phone_connected st)) st). Qed.

Lemma flip_impl_preorder : PreOrder (flip impl).
Proof.
  split.
  - intros P HP. exact HP.
  - intros P Q T HQP HTQ HT. exact (HQP (HTQ HT)).
Qed.

Lemma stays_healthy_broadcast (c : client) (message : string) :
  stays (flip impl) (healthy c) (broadcast_to_browsers message).
Proof. intros st Hc. now apply broadcast_healthy. Qed.

(** X9.  What a turn of an endpoint task writes, whatever the attempt meets
    and whatever the link delivers, also a text on which [json.loads]
    raises: of the connectivity marks it writes its own only, and last it
    writes it as not connected; it does not write [control_ws] or the motor
    counter, writes nothing on the control link, adds no observer and
    removes none whose transport works. *)
Theorem connect_phone_endpoint_turn_frame (json_loads : string -> result json)
    (endpoint : string) (a : attempt) (backoff : Q) (st : State) :
  phone_connected (connect_phone_endpoint_turn json_loads endpoint a backoff st).2
  = <[endpoint := false]> (phone_connected st)
  /\ control_ws (connect_phone_endpoint_turn json_loads endpoint a backoff st).2
     = control_ws st
  /\ _mc (connect_phone_endpoint_turn json_loads endpoint a backoff st).2 = _mc st
  /\ browser_clients (connect_phone_endpoint_turn json_loads endpoint a backoff st).2
     ⊆ browser_clients st
  /\ (forall c,
        healthy c st ->
        healthy c (connect_phone_endpoint_turn json_loads endpoint a backoff st).2)
  /\ upstream_frames (trace (connect_phone_endpoint_turn json_loads endpoint a backoff st).2)
     = upstream_frames (trace st).
Proof.
  split; [|split; [|split; [|split; [|split]]]].
  - pose proof (stays_connect_phone_endpoint_turn eq
                  (fun s => <[endpoint := false]> (phone_connected s))
                  (fun _ _ => eq_refl)
                  (fun m s => f_equal _ (proj1 (broadcast_frame m s)))
                  (fun _ _ _ => eq_refl)
                  json_loads endpoint a backoff
                  (fun b s => insert_insert_eq (phone_connected s) endpoint false b) st) as Hkeep.
    cbv beta in Hkeep. rewrite <- Hkeep.
    rewrite connect_phone_endpoint_turn_eq. cbn [snd phone_connected emit].
    rewrite (proj1 (broadcast_status_frame _)).
    cbn [set_connected modify snd phone_connected with_phone_connected].
    now rewrite insert_insert_eq.
  - apply (stays_connect_phone_endpoint_turn eq control_ws
             (fun _ _ => eq_refl)
             (fun m s => proj1 (proj2 (broadcast_frame m s)))
             (fun _ _ _ => eq_refl)
             json_loads endpoint a backoff (fun _ _ => eq_refl) st).
  - apply (stays_connect_phone_endpoint_turn eq _mc
             (fun _ _ => eq_refl)
             (fun m s => proj1 (proj2 (proj2 (broadcast_frame m s))))
             (fun _ _ _ => eq_refl)
             json_loads endpoint a backoff (fun _ _ => eq_refl) st).
  - apply (stays_connect_phone_endpoint_turn (⊆) browser_clients
             (fun _ _ => eq_refl)
             (fun m s => proj2 (proj2 (proj2 (proj2 (proj2 (broadcast_frame m s))))))
             (fun _ _ _ => eq_refl)
             json_loads endpoint a backoff (fun _ _ => eq_refl) st).
  - intros c.
    exact (stays_connect_phone_endpoint_turn (flip impl) (PreOrder0 := flip_impl_preorder)
             (healthy c)
             (fun _ _ => eq_refl)
             (stays_healthy_broadcast c)
             (fun _ _ _ => eq_refl)
             json_loads endpoint a backoff (fun _ _ => eq_refl) st).
  - rewrite (connect_phone_endpoint_turn_view upstream_frames upstream_frames_app
               upstream_frames_send_str).
    apply app_nil_r.
Qed.

Lemma connect_phone_endpoint_turn_frame_witness :
  healthy 3%nat hub_three
  /\ healthy 3%nat
       (connect_phone_endpoint_turn loads_known "lidar"
          (Connected [BinaryMessage (record_bytes rec_a)] (Some OSError)) 30 hub_three).2.
Proof.
  assert (Hc : healthy 3%nat hub_three).
  { split; [|reflexivity]. vm_compute. set_solver. }
  split; [exact Hc|].
  destruct (connect_phone_endpoint_turn_frame loads_known "lidar"
              (Connected [BinaryMessage (record_bytes rec_a)] (Some OSError)) 30 hub_three)
    as (_ & _ & _ & _ & Hkept & _).
  exact (Hkept 3%nat Hc).
Defined.

(** X11.  What a turn of the control task writes, whatever the attempt
    met: last it leaves no connection in [control_ws] and the control
    endpoint marked as not connected, and it writes no other mark; it writes
    nothing on the control link, does not write the motor counter and removes
    no observer whose transport works.  A command sent in the state it
    leaves is dropped with a warning. *)
Theorem connect_phone_control_turn_frame (a : attempt) (backoff : Q) (st : State) :
  control_ws (connect_phone_control_turn a backoff st).2 = None
  /\ phone_connected (connect_phone_control_turn a backoff st).2
     = <["control" := false]> (phone_connected st)
  /\ _mc (connect_phone_control_turn a backoff st).2 = _mc st
  /\ (forall c, healthy c st -> healthy c (connect_phone_control_turn a backoff st).2)
  /\ upstream_frames (trace (connect_phone_control_turn a backoff st).2)
     = upstream_frames (trace st)
  /\ forall payload,
       send_control payload (connect_phone_control_turn a backoff st).2
       = (Ok tt, logged (LogDropped payload) (connect_phone_control_turn a backoff st).2).
Proof.
  assert (Hlink : control_ws (connect_phone_control_turn a backoff st).2 = None).
  { rewrite connect_phone_control_turn_eq. cbn [snd control_ws emit].
    now rewrite (proj1 (proj2 (broadcast_status_frame _))). }
  split; [exact Hlink|].
  split; [|split; [|split; [|split]]].
  - pose proof (stays_connect_phone_control_turn eq
                  (fun s => <["control" := false]> (phone_connected s))
                  (fun _ _ => eq_refl)
                  (fun m s => f_equal _ (proj1 (broadcast_frame m s)))
                  (fun _ _ _ => eq_refl)
                  a backoff
                  (fun b s => insert_insert_eq (phone_connected s) "control" false b)
                  (fun _ _ => eq_refl) st) as Hkeep.
    cbv beta in Hkeep. rewrite <- Hkeep.
    rewrite connect_phone_control_turn_eq. cbn [snd phone_connected emit].
    rewrite (proj1 (broadcast_status_frame _)).
    cbn [set_connected modify snd phone_connected with_phone_connected with_control_ws].
    now rewrite insert_insert_eq.
  - apply (stays_connect_phone_control_turn eq _mc
             (fun _ _ => eq_refl)
             (fun m s => proj1 (proj2 (proj2 (broadcast_frame m s))))
             (fun _ _ _ => eq_refl)
             a backoff (fun _ _ => eq_refl) (fun _ _ => eq_refl) st).
  - intros c.
    exact (stays_connect_phone_control_turn (flip impl) (PreOrder0 := flip_impl_preorder)
             (healthy c)
             (fun _ _ => eq_refl)
             (stays_healthy_broadcast c)
             (fun _ _ _ => eq_refl)
             a backoff (fun _ _ => eq_refl) (fun _ _ => eq_refl) st).
  - rewrite (connect_phone_control_turn_view upstream_frames upstream_frames_app
               upstream_frames_send_str).
    apply app_nil_r.
  - intros payload. now apply send_control_none.
Qed.

Lemma connect_phone_control_turn_frame_witness :
  healthy 1%nat hub_three
  /\ healthy 1%nat
       (connect_phone_control_turn (Connected [TextMessage "ok"] None) 30 hub_three).2.
Proof.
  assert (Hc : healthy 1%nat hub_three).
  { split; [|reflexivity]. vm_compute. set_solver. }
  split; [exact Hc|].
  destruct (connect_phone_control_turn_frame (Connected [TextMessage "ok"] None) 30 hub_three)
    as (_ & _ & _ & Hkept & _).
  exact (Hkept 1%nat Hc).
Defined.

(** ** The router of observer messages *)

Lemma send_control_ok (payload : json) (st : State) : (send_control payload st).1 = Ok tt.
Proof. unfold send_control, bind, gets. destruct (control_ws st) as [[|]|]; reflexivity. Qed.

Lemma handle_browser_message_control (json_loads : string -> result json) (data : string)
    (fields : list (string * json)) (st : State) :
  json_loads data = Ok (JObject fields) ->
  dict_get fields "type" = Some (JString "control") ->
  handle_browser_message json_loads data st
  = send_control (default (JObject []) (dict_get fields "payload")) st.
Proof.
  intros Hloads Htype. unfold handle_browser_message. rewrite Hloads.
  unfold bind, lift, py_get. rewrite Htype.
  change (default JNull (Some (JString "control"))) with (JString "control").
  change (json_eq_str (JString "control") "motor") with false.
  change (json_eq_str (JString "control") "stop") with false.
  change (json_eq_str (JString "control") "control") with true. reflexivity.
Qed.

Lemma handle_browser_message_unrouted (json_loads : string -> result json) (data : string)
    (fields : list (string * json)) (st : State) :
  json_loads data = Ok (JObject fields) ->
  routed_type (default JNull (dict_get fields "type")) = false ->
  handle_browser_message json_loads data st = (Ok tt, st).
Proof.
  intros Hloads Htype. unfold routed_type in Htype.
  apply orb_false_elim in Htype as [Htype Hc].
  apply orb_false_elim in Htype as [Hm Hs].
  unfold handle_browser_message. rewrite Hloads.
  unfold bind, lift, py_get. now rewrite Hm, Hs, Hc.
Qed.

Lemma handle_browser_message_object_ok (json_loads : string -> result json) (data : string)
    (fields : list (string * json)) (st : State) :
  json_loads data = Ok (JObject fields) ->
  (handle_browser_message json_loads data st).1 = Ok tt.
Proof.
  intros Hloads. unfold handle_browser_message. rewrite Hloads.
  unfold bind, lift, py_get, gets, modify, ret. cbv beta iota zeta.
  destruct (json_eq_str _ "motor").
  - destruct (_ mod 20 =? 1); [destruct (percent_d _ && percent_d _)|];
      apply send_control_ok.
  - destruct (json_eq_str _ "stop"); [apply send_control_ok|].
    destruct (json_eq_str _ "control"); [apply send_control_ok|reflexivity].
Qed.

(** X12.  An observer message that is not JSON, or that is an object whose
    [type] is absent or is none of "motor", "stop" and "control", is ignored:
    the handler returns normally and nothing at all has changed. *)
Theorem handle_browser_message_ignores (json_loads : string -> result json)
    (data : string) (st : State) :
  (json_loads data = Raise JSONDecodeError ->
   handle_browser_message json_loads data st = (Ok tt, st))
  /\ (forall fields,
        json_loads data = Ok (JObject fields) ->
        routed_type (default JNull (dict_get fields "type")) = false ->
        handle_browser_message json_loads data st = (Ok tt, st)).
Proof.
  split.
  - intros Hnone. unfold handle_browser_message. now rewrite Hnone.
  - intros fields. apply handle_browser_message_unrouted.
Qed.

Lemma handle_browser_message_ignores_witness :
  handle_browser_message loads_more "motor" hub_three = (Ok tt, hub_three)
  /\ handle_browser_message loads_more
       (json_dumps (JObject [("type", JString "dance")])) hub_three = (Ok tt, hub_three)
  /\ handle_browser_message loads_more
       (json_dumps (JObject [("reading", JInt 7)])) hub_three = (Ok tt, hub_three).
Proof.
  split; [|split].
  - apply (proj1 (handle_browser_message_ignores loads_more "motor" hub_three)).
    reflexivity.
  - apply (proj2 (handle_browser_message_ignores loads_more _ hub_three)
             [("type", JString "dance")]); reflexivity.
  - apply (proj2 (handle_browser_message_ignores loads_more _ hub_three)
             [("reading", JInt 7)]); reflexivity.
Defined.

Lemma handle_browser_message_result (json_loads : string -> result json)
    (data : string) (st : State) :
  (handle_browser_message json_loads data st).1
  = match json_loads data with
    | Ok v => if is_object v then Ok tt else Raise AttributeError
    | Raise JSONDecodeError => Ok tt
    | Raise e => Raise e
    end.
Proof.
  destruct (json_loads data) as [v|e] eqn:Hloads.
  - destruct v;
      try (unfold handle_browser_message; rewrite Hloads; reflexivity).
    exact (handle_browser_message_object_ok json_loads data fields st Hloads).
  - unfold handle_browser_message. rewrite Hloads. destruct e; reflexivity.
Qed.

Lemma handle_browser_message_raise (json_loads : string -> result json)
    (data : string) (st : State) (e : exn) :
  (handle_browser_message json_loads data st).1 = Raise e ->
  handle_browser_message json_loads data st = (Raise e, st).
Proof.
  intros Hraise.
  pose proof (handle_browser_message_result json_loads data st) as Hr.
  rewrite Hraise in Hr. revert Hraise Hr. unfold handle_browser_message.
  destruct (json_loads data) as [v|e'].
  - destruct v; cbn [is_object]; unfold bind, lift, py_get; cbn [fst];
      intros H1 H2;
      first [discriminate H2 | injection H1 as <-; reflexivity].
  - destruct e'; cbn [ret raise fst]; intros H1 H2;
      first [discriminate H1 | injection H1 as <-; reflexivity].
Qed.

(** X13.  The handler raises in two cases only: when [json.loads] raises
    something else than [JSONDecodeError], with that exception; and when the
    text is JSON but not an object, with the [AttributeError] of the first
    [msg.get].  In both nothing has changed.  In every other case it returns
    normally, whatever the state of the control link and whatever a motor
    message gives as speeds. *)
Theorem handle_browser_message_outcome (json_loads : string -> result json)
    (data : string) (st : State) :
  (handle_browser_message json_loads data st).1
  = match json_loads data with
    | Ok v => if is_object v then Ok tt else Raise AttributeError
    | Raise JSONDecodeError => Ok tt
    | Raise e => Raise e
    end
  /\ (forall e,
        (handle_browser_message json_loads data st).1 = Raise e ->
        (handle_browser_message json_loads data st).2 = st).
Proof.
  split; [apply handle_browser_message_result|].
  intros e Hraise. now rewrite (handle_browser_message_raise _ _ _ _ Hraise).
Qed.

Lemma handle_browser_message_outcome_witness :
  handle_browser_message loads_more (json_dumps (JArray [JString "motor"])) hub_three
  = (Raise AttributeError, hub_three)
  /\ handle_browser_message loads_limited long_integer hub_three
     = (Raise ValueError, hub_three).
Proof.
  split.
  - destruct (handle_browser_message_outcome loads_more
                (json_dumps (JArray [JString "motor"])) hub_three) as [Hr Hs].
    change (loads_more (json_dumps (JArray [JString "motor"])))
      with (Ok (JArray [JString "motor"])) in Hr.
    cbn [is_object] in Hr.
    rewrite (surjective_pairing (handle_browser_message _ _ _)).
    now rewrite Hr, (Hs _ Hr).
  - destruct (handle_browser_message_outcome loads_limited long_integer hub_three)
      as [Hr Hs].
    assert (Hload : loads_limited long_integer = Raise ValueError)
      by (vm_compute; reflexivity).
    rewrite Hload in Hr.
    rewrite (surjective_pairing (handle_browser_message _ _ _)).
    now rewrite Hr, (Hs _ Hr).
Defined.

(** X14.  A message of type "control" on an open link puts exactly its
    [payload] on the control link, as JSON and unchanged, whatever kind of
    value it is; without a [payload] it sends the empty object.  Nothing else
    changes. *)
Theorem control_forwards_payload (json_loads : string -> result json)
    (data : string) (fields : list (string * json)) (st : State) :
  json_loads data = Ok (JObject fields) ->
  dict_get fields "type" = Some (JString "control") ->
  control_ws st = Some SocketOpen ->
  handle_browser_message json_loads data st
  = (Ok tt,
     emit (EvControlSend (json_dumps (default (JObject []) (dict_get fields "payload"))) None)
       st).
Proof.
  intros Hloads Htype Hlink.
  rewrite (handle_browser_message_control _ _ _ _ Hloads Htype).
  now apply send_control_open.
Qed.

Lemma control_forwards_payload_witness :
  upstream_frames
    (trace (handle_browser_message loads_more (json_dumps bare_control_message) hub_three).2)
  = ["{}"]
  /\ upstream_frames
       (trace (handle_browser_message loads_more
                 (json_dumps (control_message (JArray [JInt 1; JInt 2]))) hub_three).2)
     = ["[1, 2]"].
Proof.
  split.
  - rewrite (control_forwards_payload loads_more (json_dumps bare_control_message)
               [("type", JString "control")] hub_three eq_refl eq_refl eq_refl).
    reflexivity.
  - rewrite (control_forwards_payload loads_more
               (json_dumps (control_message (JArray [JInt 1; JInt 2])))
               [("type", JString "control"); ("payload", JArray [JInt 1; JInt 2])]
               hub_three eq_refl eq_refl eq_refl).
    reflexivity.
Defined.

Lemma motor_log_lines_app (l1 l2 : list log_record) :
  motor_log_lines (l1 ++ l2) = motor_log_lines l1 + motor_log_lines l2.
Proof. unfold motor_log_lines. rewrite List.filter_app, length_app. lia. Qed.

Lemma send_control_motor_frame (payload : json) (st : State) :
  _mc (send_control payload st).2 = _mc st
  /\ motor_log_lines (log (send_control payload st).2) = motor_log_lines (log st).
Proof.
  unfold send_control, bind, gets.
  destruct (control_ws st) as [[|]|]; cbn [websocket_send try_except modify snd];
    (split; [reflexivity|]); cbn [log logged emit]; try reflexivity;
    rewrite motor_log_lines_app;
    match goal with |- _ + ?x = _ => change x with 0 end; lia.
Qed.

Lemma motor_counted_log (left right : json) (st : State) :
  _mc (motor_counted left right st) = Some (default 0 (_mc st) + 1)
  /\ motor_log_lines (log (motor_counted left right st))
     = motor_log_lines (log st)
       + (if (default 0 (_mc st) + 1) mod 20 =? 1
          then if percent_d left && percent_d right then 1 else 0
          else 0).
Proof.
  unfold motor_counted. destruct (_ mod 20 =? 1); cbn [_mc log logged with_mc].
  - destruct (percent_d left && percent_d right); cbn [_mc log logged with_mc].
    + split; [reflexivity|]. rewrite motor_log_lines_app.
      match goal with |- _ + ?x = _ => change x with 1 end. reflexivity.
    + split; [reflexivity|]. lia.
  - split; [reflexivity|]. lia.
Qed.

(** X15.  Over a run of motor messages from one observer the counter
    [_mc] goes up by one per message, from zero when it does not exist yet,
    whether or not the commands could be sent and whatever the speeds are.
    A line is logged for no other message than those numbered 1, 21, 41,
    ...: a counter that went from [c] to [c + n] left at most
    [(c + n + 19) / 20 - (c + 19) / 20] lines, and exactly that many when the
    speeds of every message are values that [%d] formats. *)
Theorem motor_messages_counted (json_loads : string -> result json)
    (inbound : list browser_frame) :
  forall st : State,
    Forall (is_motor_frame json_loads) inbound ->
    0 <= default 0 (_mc st) ->
    (browser_receive_loop json_loads inbound st).1 = Ok tt
    /\ default 0 (_mc (browser_receive_loop json_loads inbound st).2)
       = default 0 (_mc st) + Z.of_nat (length inbound)
    /\ motor_log_lines (log (browser_receive_loop json_loads inbound st).2)
       <= motor_log_lines (log st)
          + ((default 0 (_mc st) + Z.of_nat (length inbound) + 19) / 20
             - (default 0 (_mc st) + 19) / 20)
    /\ (Forall (speeds_format json_loads) inbound ->
        motor_log_lines (log (browser_receive_loop json_loads inbound st).2)
        = motor_log_lines (log st)
          + ((default 0 (_mc st) + Z.of_nat (length inbound) + 19) / 20
             - (default 0 (_mc st) + 19) / 20)).
Proof.
  induction inbound as [|fr inbound IH]; intros st Hall Hc.
  - cbn [browser_receive_loop ret fst snd length]. split; [reflexivity|].
    replace (default 0 (_mc st) + Z.of_nat 0 + 19) with (default 0 (_mc st) + 19) by lia.
    split; [lia|]. split; [lia|]. intros _. lia.
  - apply Forall_cons in Hall as [(data & fields & -> & Hloads & Htype) Hall].
    cbn [browser_receive_loop].
    pose proof (handle_browser_message_object_ok json_loads data fields st Hloads) as Hok.
    rewrite (bind_ok _ _ _ tt Hok).
    rewrite (handle_browser_message_motor _ _ _ _ Hloads Htype).
    match goal with
    | |- context [send_control ?p (motor_counted ?l ?r st)] =>
        destruct (send_control_motor_frame p (motor_counted l r st)) as [Hmc Hlines];
        destruct (motor_counted_log l r st) as [Hmc1 Hlines1];
        set (st1 := (send_control p (motor_counted l r st)).2) in *
    end.
    rewrite Hmc1 in Hmc. rewrite Hlines1 in Hlines.
    assert (Hd : default 0 (_mc st1) = default 0 (_mc st) + 1) by now rewrite Hmc.
    assert (Hc1 : 0 <= default 0 (_mc st1)) by lia.
    destruct (IH st1 Hall Hc1) as (Hr & Hcount & Hmost & Hlog).
    split; [exact Hr|]. rewrite Hcount, Hd.
    cbn [length]. rewrite Nat2Z.inj_succ.
    assert (Hstep : forall c n : Z,
               0 <= c ->
               (c + Z.succ n + 19) / 20 - (c + 19) / 20
               = (if (c + 1) mod 20 =? 1 then 1 else 0)
                 + ((c + 1 + n + 19) / 20 - (c + 1 + 19) / 20)).
    { intros c n Hc0.
      destruct (Z.eqb_spec ((c + 1) mod 20) 1) as [Hm|Hm];
        Z.div_mod_to_equations; lia. }
    rewrite (Hstep _ _ Hc). rewrite Hd in Hmost, Hlog.
    split; [lia|]. split.
    + rewrite Hlines in Hmost.
      destruct (_ mod 20 =? 1); [destruct (percent_d _ && percent_d _)|]; lia.
    + intros Hfmt. apply Forall_cons in Hfmt as [Hhead Hfmt].
      destruct (Hhead data fields eq_refl Hloads) as [Hl Hrt].
      rewrite (Hlog Hfmt), Hlines, Hl, Hrt. cbn [andb]. lia.
Qed.

Lemma motor_messages_counted_witness :
  Forall (is_motor_frame loads_known)
    (repeat (FrameText (json_dumps bare_motor_message)) 41)
  /\ Forall (speeds_format loads_known)
       (repeat (FrameText (json_dumps bare_motor_message)) 41)
  /\ _mc (browser_receive_loop loads_known
            (repeat (FrameText (json_dumps bare_motor_message)) 41) hub_unlinked).2
     = Some 41
  /\ motor_log_lines
       (log (browser_receive_loop loads_known
               (repeat (FrameText (json_dumps bare_motor_message)) 41) hub_unlinked).2)
     = 3
  /\ Forall (is_motor_frame loads_limited) [FrameText (json_dumps worded_motor_message)]
  /\ _mc (browser_receive_loop loads_limited
            [FrameText (json_dumps worded_motor_message)] hub_unlinked).2
     = Some 1
  /\ motor_log_lines
       (log (browser_receive_loop loads_limited
               [FrameText (json_dumps worded_motor_message)] hub_unlinked).2)
     = 0.
Proof.
  assert (Hall : Forall (is_motor_frame loads_known)
                   (repeat (FrameText (json_dumps bare_motor_message)) 41)).
  { apply List.Forall_forall. intros fr Hin. apply repeat_spec in Hin as ->.
    exists (json_dumps bare_motor_message), [("type", JString "motor")].
    repeat split; reflexivity. }
  assert (Hfmt : Forall (speeds_format loads_known)
                   (repeat (FrameText (json_dumps bare_motor_message)) 41)).
  { apply List.Forall_forall. intros fr Hin. apply repeat_spec in Hin as ->.
    intros data fields [= <-] Hloads.
    change (loads_known (json_dumps bare_motor_message))
      with (Ok (A := json) (JObject [("type", JString "motor")])) in Hloads.
    injection Hloads as <-. split; reflexivity. }
  split; [exact Hall|]. split; [exact Hfmt|].
  assert (Hc : 0 <= default 0 (_mc hub_unlinked)) by (cbn; lia).
  destruct (motor_messages_counted loads_known _ hub_unlinked Hall Hc)
    as (_ & Hcount & _ & Hlog).
  split.
  { destruct (_mc (browser_receive_loop _ _ _).2) as [c|] eqn:Hmc.
    - cbn in Hcount. now subst c.
    - discriminate Hcount. }
  split; [rewrite (Hlog Hfmt); reflexivity|].
  assert (Hworded : Forall (is_motor_frame loads_limited)
                      [FrameText (json_dumps worded_motor_message)]).
  { repeat constructor.
    exists (json_dumps worded_motor_message),
      [("type", JString "motor"); ("left", JString "fast")].
    repeat split; vm_compute; reflexivity. }
  split; [exact Hworded|].
  destruct (motor_messages_counted loads_limited _ hub_unlinked Hworded Hc)
    as (_ & Hcount1 & _ & _).
  split.
  - destruct (_mc (browser_receive_loop loads_limited _ _).2) as [c|] eqn:Hmc.
    + f_equal. cbn in Hcount1. lia.
    + discriminate Hcount1.
  - vm_compute. reflexivity.
Defined.

(** ** Observer connections *)

Lemma browser_receive_loop_cut (json_loads : string -> result json)
    (pre post : list browser_frame) (fr : browser_frame) :
  fr = FrameClosed \/ fr = FrameError ->
  forall st : State,
    browser_receive_loop json_loads (pre ++ fr :: post) st
    = browser_receive_loop json_loads pre st.
Proof.
  intros Hfr. induction pre as [|[data| | |] pre IH]; intros st; cbn [app browser_receive_loop].
  - destruct Hfr as [-> | ->]; reflexivity.
  - unfold bind. destruct (handle_browser_message json_loads data st) as [[[]|e] st1];
      [apply IH|reflexivity].
  - reflexivity.
  - reflexivity.
  - apply IH.
Qed.

Lemma browser_receive_loop_skip (json_loads : string -> result json)
    (pre post : list browser_frame) :
  forall st : State,
    browser_receive_loop json_loads (pre ++ FrameOther :: post) st
    = browser_receive_loop json_loads (pre ++ post) st.
Proof.
  induction pre as [|[data| | |] pre IH]; intros st; cbn [app browser_receive_loop].
  - reflexivity.
  - unfold bind. destruct (handle_browser_message json_loads data st) as [[[]|e] st1];
      [apply IH|reflexivity].
  - reflexivity.
  - reflexivity.
  - apply IH.
Qed.

(** X16.  The receive loop of an observer connection ends at the first
    CLOSED or ERROR message: what follows it is never handled.  A message of
    any other type that is not TEXT is skipped.  A text message on which the
    handler raises also ends the loop, with the exception of the handler and
    with nothing changed by that message. *)
Theorem browser_receive_loop_ends (json_loads : string -> result json)
    (pre post : list browser_frame) (st : State) :
  browser_receive_loop json_loads (pre ++ FrameClosed :: post) st
  = browser_receive_loop json_loads pre st
  /\ browser_receive_loop json_loads (pre ++ FrameError :: post) st
     = browser_receive_loop json_loads pre st
  /\ browser_receive_loop json_loads (pre ++ FrameOther :: post) st
     = browser_receive_loop json_loads (pre ++ post) st
  /\ forall data e,
       (handle_browser_message json_loads data st).1 = Raise e ->
       browser_receive_loop json_loads (FrameText data :: post) st = (Raise e, st).
Proof.
  split; [apply browser_receive_loop_cut; now left|].
  split; [apply browser_receive_loop_cut; now right|].
  split; [apply browser_receive_loop_skip|].
  intros data e Hraise. cbn [browser_receive_loop]. unfold bind.
  now rewrite (handle_browser_message_raise _ _ _ _ Hraise).
Qed.

Lemma browser_receive_loop_ends_witness :
  browser_receive_loop loads_more
    [FrameText (json_dumps (JArray [JString "motor"])); FrameText (json_dumps stop_message)]
    hub_three
  = (Raise AttributeError, hub_three)
  /\ browser_receive_loop loads_limited
       [FrameText long_integer; FrameText (json_dumps stop_message)] hub_three
     = (Raise ValueError, hub_three).
Proof.
  split.
  - destruct (browser_receive_loop_ends loads_more [] [FrameText (json_dumps stop_message)]
                hub_three) as (_ & _ & _ & Hraise).
    apply Hraise. reflexivity.
  - destruct (browser_receive_loop_ends loads_limited []
                [FrameText (json_dumps stop_message)] hub_three) as (_ & _ & _ & Hraise).
    apply Hraise. vm_compute. reflexivity.
Defined.

Lemma received_by_control_send (c : client) (text : string) (err : option exn)
    (st : State) :
  received_by c (trace (emit (EvControlSend text err) st)) = received_by c (trace st).
Proof. cbn [trace emit]. rewrite received_by_app. apply app_nil_r. Qed.

Lemma sleeps_of_control_send (task text : string) (err : option exn) (st : State) :
  sleeps_of task (trace (emit (EvControlSend text err) st)) = sleeps_of task (trace st).
Proof. cbn [trace emit]. rewrite sleeps_of_app. apply app_nil_r. Qed.

Lemma send_control_frames (payload : json) (st : State) :
  (length (upstream_frames (trace (send_control payload st).2))
   <= length (upstream_frames (trace st)) + 1)%nat.
Proof.
  unfold send_control, bind, gets.
  destruct (control_ws st) as [[|]|]; cbn [websocket_send try_except modify snd trace logged emit];
    try rewrite upstream_frames_app; try rewrite length_app; cbn; lia.
Qed.

Lemma handle_browser_message_frames (json_loads : string -> result json)
    (data : string) (st : State) :
  (length (upstream_frames (trace (handle_browser_message json_loads data st).2))
   <= length (upstream_frames (trace st)) + 1)%nat.
Proof.
  unfold handle_browser_message.
  destruct (json_loads data) as [v|e]; [|destruct e; cbn; lia].
  destruct v; try (cbn; lia).
  unfold bind, lift, py_get, gets, modify, ret. cbv beta iota zeta.
  destruct (json_eq_str _ "motor").
  - destruct (_ mod 20 =? 1); [destruct (percent_d _ && percent_d _)|];
      match goal with
      | |- context [send_control ?p ?s] => exact (send_control_frames p s)
      end.
  - destruct (json_eq_str _ "stop"); [apply send_control_frames|].
    destruct (json_eq_str _ "control"); [apply send_control_frames|cbn; lia].
Qed.

(** X17.  Handling the messages of an observer never touches the hub: the
    set of observers, the connectivity marks and the connection in
    [control_ws] stay as they were, no observer is sent anything, and no
    task is put to sleep.  On the control link it writes at most one frame
    for each message received. *)
Theorem browser_receive_loop_frame (json_loads : string -> result json)
    (inbound : list browser_frame) (st : State) :
  browser_clients (browser_receive_loop json_loads inbound st).2 = browser_clients st
  /\ phone_connected (browser_receive_loop json_loads inbound st).2 = phone_connected st
  /\ control_ws (browser_receive_loop json_loads inbound st).2 = control_ws st
  /\ (forall c,
        received_by c (trace (browser_receive_loop json_loads inbound st).2)
        = received_by c (trace st))
  /\ (forall task,
        sleeps_of task (trace (browser_receive_loop json_loads inbound st).2)
        = sleeps_of task (trace st))
  /\ (length (upstream_frames (trace (browser_receive_loop json_loads inbound st).2))
      <= length (upstream_frames (trace st)) + length inbound)%nat.
Proof.
  split; [|split; [|split; [|split; [|split]]]].
  - apply (stays_browser_receive_loop eq browser_clients
             (fun _ _ => eq_refl) (fun _ _ _ => eq_refl) (fun _ _ => eq_refl)).
  - apply (stays_browser_receive_loop eq phone_connected
             (fun _ _ => eq_refl) (fun _ _ _ => eq_refl) (fun _ _ => eq_refl)).
  - apply (stays_browser_receive_loop eq control_ws
             (fun _ _ => eq_refl) (fun _ _ _ => eq_refl) (fun _ _ => eq_refl)).
  - intros c.
    apply (stays_browser_receive_loop eq (fun s => received_by c (trace s))
             (fun _ _ => eq_refl) (received_by_control_send c) (fun _ _ => eq_refl)).
  - intros task.
    apply (stays_browser_receive_loop eq (fun s => sleeps_of task (trace s))
             (fun _ _ => eq_refl) (sleeps_of_control_send task) (fun _ _ => eq_refl)).
  - revert st. induction inbound as [|[data| | |] inbound IH]; intros st;
      cbn [browser_receive_loop length ret snd]; try lia.
    + pose proof (handle_browser_message_frames json_loads data st) as Hone.
      unfold bind.
      destruct (handle_browser_message json_loads data st) as [[[]|e] st1]; cbn [snd] in *.
      * specialize (IH st1). lia.
      * lia.
    + specialize (IH st). lia.
Qed.

Lemma handle_browser_message_raises_on (json_loads : string -> result json)
    (data : string) (st : State) (e : exn) :
  (handle_browser_message json_loads data st).1 = Raise e -> raises_on json_loads data e.
Proof.
  rewrite handle_browser_message_result. unfold raises_on.
  destruct (json_loads data) as [v|e'].
  - destruct (is_object v) eqn:Hv; [discriminate|].
    intros [= <-]. right. split; [reflexivity|]. now exists v.
  - destruct e'; first [discriminate | intros [= <-]; left; split; [reflexivity|discriminate]].
Qed.

Lemma browser_receive_loop_result (json_loads : string -> result json)
    (inbound : list browser_frame) :
  forall st : State,
    (browser_receive_loop json_loads inbound st).1 = Ok tt
    \/ exists e data,
         (browser_receive_loop json_loads inbound st).1 = Raise e
         /\ FrameText data ∈ inbound
         /\ raises_on json_loads data e.
Proof.
  induction inbound as [|[data| | |] inbound IH]; intros st; cbn [browser_receive_loop];
    try (now left).
  - pose proof (handle_browser_message_raises_on json_loads data st) as Hr.
    unfold bind.
    destruct (handle_browser_message json_loads data st) as [[[]|e] st1]; cbn [fst] in *.
    + destruct (IH st1) as [Hok|(e & d & He & Hin & Hon)]; [now left|].
      right. exists e, d. split; [exact He|]. split; [now right|exact Hon].
    + right. exists e, data. split; [reflexivity|]. split; [now left|now apply Hr].
  - destruct (IH st) as [Hok|(e & d & He & Hin & Hon)]; [now left|].
    right. exists e, d. split; [exact He|]. split; [now right|exact Hon].
Qed.

(** [ws_handler] on a transport that takes the status frame, step by step. *)
Lemma ws_handler_run (json_loads : string -> result json) (ws : client)
    (inbound : list browser_frame) (st : State) (lines : list access_record) :
  send_fault st ws = None ->
  ws_handler json_loads ws None inbound (st, lines)
  = let out :=
      browser_receive_loop json_loads inbound
        (emit (EvSendStr ws (status_text (phone_connected st)) None)
           (with_browser_clients ({[ws]} ∪ browser_clients st) st)) in
    (match out.1 with
     | Ok _ => Ok ws
     | Raise e => Raise e
     end,
     (with_browser_clients (browser_clients out.2 ∖ {[ws]}) out.2,
      lines ++ [LogBrowserConnected (size ({[ws]} ∪ browser_clients st));
                LogBrowserDisconnected (size (browser_clients out.2 ∖ {[ws]}))])).
Proof.
  intros Hfault.
  unfold ws_handler, hub_bind, hub_lift, log_info, try_finally, hub_ret, bind, gets, modify,
    send_str, status_text.
  cbn [fst snd send_fault with_browser_clients phone_connected]. rewrite Hfault.
  cbv zeta.
  destruct (browser_receive_loop json_loads inbound _) as [[[]|e] st3];
    cbn [fst snd]; now rewrite <- app_assoc.
Qed.

(** X18.  An observer connection whose transport takes the status frame is
    always taken out of the set of observers when its receive loop ends,
    also when the loop ends with an exception.  [ws_handler] then raises
    that exception, which is the one the handler raised on one of the text
    messages; otherwise it returns the response object.  The observer was
    sent the status first, and nothing else by this handler; the two info
    lines carry the number of observers with and without it. *)
Theorem ws_handler_unregisters (json_loads : string -> result json) (ws : client)
    (inbound : list browser_frame) (st : State) (lines : list access_record) :
  send_fault st ws = None ->
  let out := ws_handler json_loads ws None inbound (st, lines) in
  (out.1 = Ok ws
   \/ exists e data,
        out.1 = Raise e /\ FrameText data ∈ inbound /\ raises_on json_loads data e)
  /\ browser_clients out.2.1 = browser_clients st ∖ {[ws]}
  /\ phone_connected out.2.1 = phone_connected st
  /\ received_by ws (trace out.2.1)
     = received_by ws (trace st) ++ [status_text (phone_connected st)]
  /\ (forall c, c <> ws -> received_by c (trace out.2.1) = received_by c (trace st))
  /\ out.2.2
     = lines ++ [LogBrowserConnected (size ({[ws]} ∪ browser_clients st));
                 LogBrowserDisconnected (size (browser_clients st ∖ {[ws]}))].
Proof.
  intros Hfault. cbv zeta. rewrite (ws_handler_run _ _ _ _ _ Hfault). cbv zeta.
  cbn [fst snd browser_clients phone_connected trace with_browser_clients].
  set (st2 := emit _ _).
  pose proof (stays_browser_receive_loop eq browser_clients
                (fun _ _ => eq_refl) (fun _ _ _ => eq_refl) (fun _ _ => eq_refl)
                json_loads inbound st2) as Hclients.
  pose proof (stays_browser_receive_loop eq phone_connected
                (fun _ _ => eq_refl) (fun _ _ _ => eq_refl) (fun _ _ => eq_refl)
                json_loads inbound st2) as Hmarks.
  pose proof (fun c => stays_browser_receive_loop eq (fun s => received_by c (trace s))
                (fun _ _ => eq_refl) (received_by_control_send c) (fun _ _ => eq_refl)
                json_loads inbound st2) as Hrecv.
  cbv beta in Hclients, Hmarks, Hrecv.
  assert (Hset : browser_clients (browser_receive_loop json_loads inbound st2).2 ∖ {[ws]}
                 = browser_clients st ∖ {[ws]}).
  { rewrite Hclients. subst st2. cbn [browser_clients emit with_browser_clients].
    set_solver. }
  split; [|split; [|split; [|split; [|split]]]].
  - destruct (browser_receive_loop_result json_loads inbound st2)
      as [-> | (e & data & -> & Hin & Hon)]; [now left|].
    right. now exists e, data.
  - exact Hset.
  - rewrite Hmarks. reflexivity.
  - rewrite Hrecv. subst st2. cbn [trace emit with_browser_clients].
    rewrite received_by_app. f_equal. cbn. now rewrite decide_True.
  - intros c Hne. rewrite Hrecv. subst st2. cbn [trace emit with_browser_clients].
    rewrite received_by_app. cbn. rewrite decide_False by congruence. apply app_nil_r.
  - now rewrite Hset.
Qed.

Lemma ws_handler_unregisters_witness :
  send_fault hub_three 5%nat = None
  /\ (ws_handler loads_limited 5%nat None [FrameText long_integer] (hub_three, [])).1
     = Raise ValueError
  /\ 5%nat ∉ browser_clients
               (ws_handler loads_limited 5%nat None [FrameText long_integer]
                  (hub_three, [])).2.1.
Proof.
  split; [reflexivity|].
  destruct (ws_handler_unregisters loads_limited 5%nat [FrameText long_integer]
              hub_three [] eq_refl) as (_ & Hset & _).
  split; [vm_compute; reflexivity|].
  rewrite Hset. set_solver.
Defined.

(** X19.  When the transport of a new observer refuses the status frame,
    [ws_handler] raises that exception before it reaches its [try]: the
    observer stays in the set of observers, none of its messages is handled
    and no line is logged for its departure. *)
Theorem ws_handler_refused_status (json_loads : string -> result json) (ws : client)
    (inbound : list browser_frame) (st : State) (lines : list access_record)
    (f : send_failure) :
  send_fault st ws = Some f ->
  let out := ws_handler json_loads ws None inbound (st, lines) in
  out.1 = Raise (exn_of_failure f)
  /\ browser_clients out.2.1 = {[ws]} ∪ browser_clients st
  /\ received_by ws (trace out.2.1) = received_by ws (trace st)
  /\ upstream_frames (trace out.2.1) = upstream_frames (trace st)
  /\ _mc out.2.1 = _mc st
  /\ out.2.2 = lines ++ [LogBrowserConnected (size ({[ws]} ∪ browser_clients st))].
Proof.
  intros Hfault. cbv zeta.
  assert (Hrun : ws_handler json_loads ws None inbound (st, lines)
                 = (Raise (exn_of_failure f),
                    (emit (EvSendStr ws (status_text (phone_connected st))
                             (Some (exn_of_failure f)))
                       (with_browser_clients ({[ws]} ∪ browser_clients st) st),
                     lines ++ [LogBrowserConnected (size ({[ws]} ∪ browser_clients st))]))).
  { unfold ws_handler, hub_bind, hub_lift, log_info, bind, gets, modify, send_str, status_text.
    cbn [fst snd send_fault with_browser_clients phone_connected]. now rewrite Hfault. }
  rewrite Hrun. cbn [fst snd browser_clients trace emit with_browser_clients].
  split; [reflexivity|]. split; [reflexivity|].
  split; [rewrite received_by_app; apply app_nil_r|].
  split; [rewrite upstream_frames_app; apply app_nil_r|].
  split; reflexivity.
Qed.

Lemma ws_handler_refused_status_witness :
  send_fault hub_three 2%nat = Some FailConnection
  /\ (ws_handler loads_more 2%nat None [FrameClosed] (hub_three, [])).1
     = Raise ConnectionError
  /\ 2%nat ∈ browser_clients (ws_handler loads_more 2%nat None [FrameClosed] (hub_three, [])).2.1.
Proof.
  split; [reflexivity|].
  destruct (ws_handler_refused_status loads_more 2%nat [FrameClosed] hub_three []
              FailConnection eq_refl) as (Hr & Hset & _).
  split; [exact Hr|]. rewrite Hset. set_solver.
Defined.

(** ** Bounds of the backoff *)

Lemma delays_bounds (script : list attempt) :
  forall backoff : Q,
    (5 <= backoff)%Q -> (backoff <= 30)%Q ->
    Forall (fun d => (5 <= d)%Q /\ (d <= 30)%Q) (delays script backoff)
    /\ (5 <= final_backoff script backoff)%Q
    /\ (final_backoff script backoff <= 30)%Q.
Proof.
  induction script as [|a script IH]; intros backoff Hlo Hhi.
  - cbn [delays final_backoff]. split; [constructor|]. split; assumption.
  - cbn [delays final_backoff].
    assert (Hd : (5 <= turn_delay a backoff)%Q /\ (turn_delay a backoff <= 30)%Q).
    { destruct a; cbn [turn_delay]; split; try assumption; lra. }
    destruct Hd as [Hdlo Hdhi].
    assert (Hnlo : (5 <= Qmin (turn_delay a backoff * 1.5) 30)%Q).
    { apply Q.min_glb; lra. }
    assert (Hnhi : (Qmin (turn_delay a backoff * 1.5) 30 <= 30)%Q) by apply Q.le_min_r.
    destruct (IH _ Hnlo Hnhi) as (Hall & Hflo & Hfhi).
    split; [|split; assumption].
    constructor; [split; assumption|exact Hall].
Qed.

(** X21.  Whatever the attempts of an endpoint task meet, in whatever
    order, no sleep between two attempts is shorter than 5 seconds or longer
    than 30, and there is at most one per attempt.  The same holds for the
    task of the control link. *)
Theorem backoff_within_bounds (json_loads : string -> result json)
    (script : list attempt) (initial_delay : Q) (st : State) :
  (forall endpoint,
      exists slept,
        sleeps_of endpoint
          (trace (connect_phone_endpoint json_loads endpoint initial_delay script st).2)
        = sleeps_of endpoint (trace st)
          ++ (if Qlt_le_dec 0 initial_delay then [initial_delay] else []) ++ slept
        /\ (length slept <= length script)%nat
        /\ Forall (fun d => (5 <= d)%Q /\ (d <= 30)%Q) slept)
  /\ exists slept,
       sleeps_of "control" (trace (connect_phone_control initial_delay script st).2)
       = sleeps_of "control" (trace st)
         ++ (if Qlt_le_dec 0 initial_delay then [initial_delay] else []) ++ slept
       /\ (length slept <= length script)%nat
       /\ Forall (fun d => (5 <= d)%Q /\ (d <= 30)%Q) slept.
Proof.
  assert (Hlen : forall b, length (delays script b) = length script).
  { induction script as [|a script' IH]; intros b; [reflexivity|].
    cbn [delays length]. now rewrite IH. }
  destruct (delays_bounds script 5) as (Hall & _ & _); [lra|lra|].
  split.
  - intros endpoint. exists (delays script 5). unfold connect_phone_endpoint, bind.
    split; [|split; [now rewrite Hlen|exact Hall]].
    destruct (Qlt_le_dec 0 initial_delay) as [Hpos|Hle].
    + unfold sleep, modify.
      destruct (connect_phone_endpoint_loop_run json_loads endpoint script 5
                  (emit (EvSleep endpoint initial_delay) st)) as (st' & -> & Hs).
      cbn [snd]. rewrite Hs, String.eqb_refl. cbn [trace emit].
      rewrite sleeps_of_app, <- app_assoc. f_equal. f_equal.
      unfold sleeps_of. cbn [omap list_omap]. now rewrite String.eqb_refl.
    + unfold ret.
      destruct (connect_phone_endpoint_loop_run json_loads endpoint script 5 st)
        as (st' & -> & Hs).
      cbn [snd]. now rewrite Hs, String.eqb_refl.
  - exists (delays script 5). unfold connect_phone_control, bind.
    split; [|split; [now rewrite Hlen|exact Hall]].
    destruct (Qlt_le_dec 0 initial_delay) as [Hpos|Hle].
    + unfold sleep, modify.
      destruct (connect_phone_control_loop_run script 5
                  (emit (EvSleep "control" initial_delay) st)) as (st' & -> & Hs & _).
      cbn [snd]. rewrite Hs. cbn [trace emit].
      rewrite sleeps_of_app, <- app_assoc. reflexivity.
    + unfold ret.
      destruct (connect_phone_control_loop_run script 5 st) as (st' & -> & Hs & _).
      cbn [snd]. exact Hs.
Qed.

(** ** The status frame *)

(** X22.  The status frame shows the marks of the five endpoints and of
    the control link and nothing else of the connectivity map, and shows an
    endpoint that has no mark yet as not connected: two maps that agree on
    these six names, absent counting as false, give the same frame. *)
Theorem status_shows_six_marks (connected connected' : gmap string bool) :
  (forall ep,
      ep ∈ ENDPOINTS ++ ["control"] ->
      default false (connected !! ep) = default false (connected' !! ep)) ->
  status_json connected = status_json connected'
  /\ status_text connected = status_text connected'.
Proof.
  intros Hagree.
  assert (Hjson : status_json connected = status_json connected').
  { unfold status_json. do 5 f_equal.
    apply map_ext_in. intros ep Hin. f_equal. f_equal.
    apply Hagree. now apply list_elem_of_In. }
  split; [exact Hjson|]. unfold status_text. now rewrite Hjson.
Qed.

Lemma status_shows_six_marks_witness :
  status_text ∅ = status_text {["lidar" := false; "gps" := true]}.
Proof.
  apply (status_shows_six_marks ∅ {["lidar" := false; "gps" := true]}).
  intros ep Hin.
  repeat (apply elem_of_cons in Hin as [->|Hin]; [reflexivity|]).
  inversion Hin.
Defined.

(** ** Endpoint tasks side by side *)

Lemma connect_phone_endpoint_turn_marks (json_loads : string -> result json)
    (endpoint : string) (a : attempt) (backoff : Q) (st : State) :
  phone_connected (connect_phone_endpoint_turn json_loads endpoint a backoff st).2
  = <[endpoint := false]> (phone_connected st).
Proof.
  pose proof (stays_connect_phone_endpoint_turn eq
                (fun s => <[endpoint := false]> (phone_connected s))
                (fun _ _ => eq_refl)
                (fun m s => f_equal _ (proj1 (broadcast_frame m s)))
                (fun _ _ _ => eq_refl)
                json_loads endpoint a backoff
                (fun b s => insert_insert_eq (phone_connected s) endpoint false b) st) as Hkeep.
  cbv beta in Hkeep. rewrite <- Hkeep.
  rewrite connect_phone_endpoint_turn_eq. cbn [snd phone_connected emit].
  rewrite (proj1 (broadcast_status_frame _)).
  cbn [set_connected modify snd phone_connected with_phone_connected].
  now rewrite insert_insert_eq.
Qed.

(** X23.  In whatever order the endpoint tasks take their turns, a task
    writes no other mark than its own: after the turns every endpoint that
    took one is marked as not connected and the mark of every other name is
    the one it had; the connection in [control_ws] is the one it was. *)
Theorem run_tasks_marks (json_loads : string -> result json)
    (schedule : list (string * attempt)) :
  forall (locals : string -> Q) (st : State),
    (forall endpoint,
          endpoint ∈ schedule.*1 ->
          phone_connected (run_tasks json_loads schedule locals st).2 !! endpoint
          = Some false)
    /\ (forall name,
          name ∉ schedule.*1 ->
          phone_connected (run_tasks json_loads schedule locals st).2 !! name
          = phone_connected st !! name)
    /\ control_ws (run_tasks json_loads schedule locals st).2 = control_ws st.
Proof.
  induction schedule as [|[ep a] schedule IH]; intros locals st.
  - cbn [run_tasks ret fst snd fmap list_fmap].
    split; [intros endpoint Hin; inversion Hin|].
    split; reflexivity.
  - cbn [run_tasks].
    rewrite (bind_ok _ _ _ (Qmin (turn_delay a (locals ep) * 1.5) 30))
      by now rewrite connect_phone_endpoint_turn_eq.
    pose proof (connect_phone_endpoint_turn_marks json_loads ep a (locals ep) st) as Hmarks.
    pose proof (stays_connect_phone_endpoint_turn eq control_ws
                  (fun _ _ => eq_refl)
                  (fun m s => proj1 (proj2 (broadcast_frame m s)))
                  (fun _ _ _ => eq_refl)
                  json_loads ep a (locals ep) (fun _ _ => eq_refl) st) as Hlink.
    cbv beta in Hlink.
    match goal with
    | |- context [run_tasks _ _ ?l ?s] => destruct (IH l s) as (Hin & Hout & Hws)
    end.
    rewrite fmap_cons. cbn [fst].
    split; [|split].
    + intros endpoint Hel.
      destruct (decide (endpoint ∈ schedule.*1)) as [Hlater|Hnot]; [now apply Hin|].
      apply elem_of_cons in Hel as [->|Hel]; [|contradiction].
      rewrite (Hout _ Hnot), Hmarks. apply lookup_insert_eq.
    + intros name Hnot. apply not_elem_of_cons in Hnot as [Hne Hnot].
      rewrite (Hout _ Hnot), Hmarks. now apply lookup_insert_ne.
    + now rewrite Hws, Hlink.
Qed.

Lemma run_tasks_marks_witness :
  "lidar" ∈ schedule_two.*1
  /\ phone_connected
       (run_tasks loads_known schedule_two (fun _ => 5%Q) hub_three).2 !! "lidar"
     = Some false
  /\ ("flir" ∉ schedule_two.*1)
  /\ phone_connected
       (run_tasks loads_known schedule_two (fun _ => 5%Q) hub_three).2 !! "flir"
     = None.
Proof.
  destruct (run_tasks_marks loads_known schedule_two (fun _ => 5%Q) hub_three)
    as (Hin & Hout & _).
  assert (H1 : "lidar" ∈ schedule_two.*1) by (cbn; set_solver).
  assert (H2 : "flir" ∉ schedule_two.*1).
  { cbn. intros H. repeat (apply elem_of_cons in H as [H|H]; [discriminate H|]). inversion H. }
  split; [exact H1|]. split; [exact (Hin _ H1)|].
  split; [exact H2|]. rewrite (Hout _ H2). reflexivity.
Defined.
